(** * SolScout: scoring, throttling, notifier policy, gateway and ingestor tick

    A shallow embedding of the decision code of the five SolScout services
    and the properties of that code that the specification states.

    Conventions of the embedding.
    - C++ [int], [int64_t] and [long] values are [Z].  Most of the modelled
      code only adds small configuration constants and compares.  Where it
      multiplies an argument or counts without bound ([Throttler::set_mute],
      the counter of [cache_market_update]) the wrap-around of [int] is
      written out; signed overflow itself is undefined behaviour in C++, and
      the theorems about such a value bound it.
    - [static_cast<int>] of a [double] is given with its domain
      ([static_cast_int_defined]): a finite value whose truncation is an
      [int].
    - C++ [double] is an abstract type [D] with the operations the code uses
      (interface [Double]).  Two instances are given: IEEE-754 binary64
      (Rocq's primitive floats, bit-exact) and exact rationals [Q].
      Concrete executions are replayed on both; the bounds of S7 are proved
      for both.
    - [std::string] is [string]; [std::vector] is [list]; [std::unordered_map]
      is stdpp's [gmap]; [std::optional] is [option].
    - [std::chrono] time points are [Z] ticks of the clock that produced them;
      every clock read of the source is an explicit argument.
    - A Redis call that throws is an explicit outcome of the call; so is a
      call that never returns (a thread locking a mutex it holds). *)

From Stdlib Require Import ZArith Zpower QArith Qabs Qround Qpower Floats Uint63.
From Stdlib Require Import Ascii String Bool.
From Stdlib Require Import Lia Lqa.
From stdpp Require Import gmap strings list pretty.

Local Open Scope Z_scope.

(** ** The arithmetic of [double] *)

Module Numeric.

Class Double (D : Type) : Type := {
  d_lit : Z -> positive -> D;
  d_add : D -> D -> D;
  d_sub : D -> D -> D;
  d_mul : D -> D -> D;
  d_div : D -> D -> D;
  d_abs : D -> D;
  d_ltb : D -> D -> bool;
  d_leb : D -> D -> bool;
  d_finite : D -> bool;
  d_val : D -> Q
}.

Declare Scope double_scope.
Delimit Scope double_scope with D.
Infix "+" := d_add : double_scope.
Infix "-" := d_sub : double_scope.
Infix "*" := d_mul : double_scope.
Infix "/" := d_div : double_scope.
Infix "<?" := d_ltb : double_scope.
Infix "<=?" := d_leb : double_scope.
Notation "a >? b" := (d_ltb b a) (only parsing) : double_scope.
Notation "a >=? b" := (d_leb b a) (only parsing) : double_scope.

(** [std::min(a, b)] is [(b < a) ? b : a]; [std::max(a, b)] is
    [(a < b) ? b : a]. *)
Definition std_min {D} `{Double D} (a b : D) : D :=
  if (b <? a)%D then b else a.

Definition std_max {D} `{Double D} (a b : D) : D :=
  if (a <? b)%D then b else a.

(** Truncation toward zero, and rounding to nearest with ties away from
    zero ([std::round]), of an exact value. *)
Definition Qtrunc (q : Q) : Z := Z.quot (Qnum q) (Zpos (Qden q)).

Definition Qround_half_away (q : Q) : Z :=
  if Qle_bool 0 q then Qfloor (q + (1 # 2)) else Qceiling (q - (1 # 2)).

(** [0 <= x <= 1], by the comparisons of the instance. *)
Definition in_unit_interval {D} `{Double D} (x : D) : Prop :=
  d_leb (d_lit 0 1) x = true /\ d_leb x (d_lit 1 1) = true.

(** [static_cast<int>(x)] is defined in C++ when [x] is finite and its
    truncation is a value of [int]; for a NaN, an infinity or a value out of
    that range the behaviour is undefined. *)
Definition static_cast_int_defined {D} `{Double D} (x : D) : bool :=
  d_finite x
  && (- 2 ^ 31 <=? Qtrunc (d_val x)) && (Qtrunc (d_val x) <? 2 ^ 31).

(** The value of [static_cast<int>(x)] where [static_cast_int_defined]
    holds.  Elsewhere the number returned stands for no run of the program:
    a statement about a conversion holds of the code only together with
    [static_cast_int_defined] for its argument. *)
Definition static_cast_int {D} `{Double D} (x : D) : Z := Qtrunc (d_val x).

(** *** Exact rationals *)

Definition Qltb (a b : Q) : bool := negb (Qle_bool b a).

#[export] Instance Q_Double : Double Q := {|
  d_lit := fun n d => n # d;
  d_add := Qplus;
  d_sub := Qminus;
  d_mul := Qmult;
  d_div := Qdiv;
  d_abs := Qabs;
  d_ltb := Qltb;
  d_leb := Qle_bool;
  d_finite := fun _ => true;
  d_val := fun q => q
|}.

(** *** IEEE-754 binary64 *)

Definition float_of_Z (z : Z) : float :=
  match z with
  | Z0 => PrimFloat.of_uint63 (Uint63.of_Z 0)
  | Zpos _ => PrimFloat.of_uint63 (Uint63.of_Z z)
  | Zneg p => PrimFloat.opp (PrimFloat.of_uint63 (Uint63.of_Z (Zpos p)))
  end.

(** A decimal literal [n/d] is the binary64 number nearest to it; for the
    literals of the source (numerator and denominator below 2^53) that is
    the correctly rounded quotient. *)
Definition float_lit (n : Z) (d : positive) : float :=
  PrimFloat.div (float_of_Z n) (float_of_Z (Zpos d)).

(** The exact value of a finite binary64 number (0 for NaN and the
    infinities, whose conversion to [int] is undefined in C++). *)
Definition SF2Q (x : spec_float) : Q :=
  match x with
  | S754_finite s m e =>
      (inject_Z (if s then Zneg m else Zpos m) * Qpower (2 # 1) e)%Q
  | _ => 0%Q
  end.

(** Neither NaN nor an infinity. *)
Definition SFfinite (x : spec_float) : bool :=
  match x with
  | S754_zero _ | S754_finite _ _ _ => true
  | S754_infinity _ | S754_nan => false
  end.

#[export] Instance float_Double : Double float := {|
  d_lit := float_lit;
  d_add := PrimFloat.add;
  d_sub := PrimFloat.sub;
  d_mul := PrimFloat.mul;
  d_div := PrimFloat.div;
  d_abs := PrimFloat.abs;
  d_ltb := PrimFloat.ltb;
  d_leb := PrimFloat.leb;
  d_finite := fun x => SFfinite (Prim2SF x);
  d_val := fun x => SF2Q (Prim2SF x)
|}.

End Numeric.

Import Numeric.

(** ** analytics: configuration and types (config.hpp, types.hpp) *)

Module Analytics.

(** The fields of [Config] read by the scorer. *)
Record Config (D : Type) : Type := {
  actionable_base_threshold : Z;
  risk_on_adj : Z;
  risk_off_adj : Z;
  hygiene_penalty : Z;
  min_dq_for_actionable : D;
  max_rug_cap : Z;
  headsup_min : Z;
  headsup_max : Z;
  high_conviction_min : Z
}.

Arguments actionable_base_threshold {D} _.
Arguments risk_on_adj {D} _.
Arguments risk_off_adj {D} _.
Arguments hygiene_penalty {D} _.
Arguments min_dq_for_actionable {D} _.
Arguments max_rug_cap {D} _.
Arguments headsup_min {D} _.
Arguments headsup_max {D} _.
Arguments high_conviction_min {D} _.

(** The default member initialisers of config.hpp. *)
Definition default_config {D} `{Double D} : Config D := {|
  actionable_base_threshold := 70;
  risk_on_adj := -10;
  risk_off_adj := 10;
  hygiene_penalty := 10;
  min_dq_for_actionable := d_lit 7 10;
  max_rug_cap := 55;
  headsup_min := 60;
  headsup_max := 69;
  high_conviction_min := 85
|}.

Record SignalResult (D : Type) : Type := {
  s1_liquidity : D;
  s2_volume : D;
  s3_momentum_1h : D;
  s4_momentum_24h : D;
  s5_volatility : D;
  s6_price_discovery : D;
  s7_rug_risk : D;
  s8_tradability : D;
  s9_relative_strength : D;
  s10_route_quality : D;
  n1_hygiene : D;
  data_quality : D;
  confidence_score : Z;
  reasons : list string;
  band : string;
  entry_confirmed : bool;
  net_edge_ok : bool
}.

Arguments s1_liquidity {D} _.
Arguments s2_volume {D} _.
Arguments s3_momentum_1h {D} _.
Arguments s4_momentum_24h {D} _.
Arguments s5_volatility {D} _.
Arguments s6_price_discovery {D} _.
Arguments s7_rug_risk {D} _.
Arguments s8_tradability {D} _.
Arguments s9_relative_strength {D} _.
Arguments s10_route_quality {D} _.
Arguments n1_hygiene {D} _.
Arguments data_quality {D} _.

(** The scalar fields of [MarketUpdate] and [TokenMetadata]. *)
Record MarketUpdate (D : Type) : Type := {
  pool_id : string;
  mint_base : string;
  symbol : string;
  price : D;
  liq_usd : D;
  vol24h_usd : D;
  spread_pct : D;
  impact_1pct_pct : D;
  age_hours : D
}.

Arguments age_hours {D} _.

Record TokenMetadata (D : Type) : Type := {
  mint : string;
  decimals : Z;
  on_token_list : bool;
  top_holder_pct : D;
  risky_authorities : bool
}.

Arguments top_holder_pct {D} _.
Arguments risky_authorities {D} _.

(** *** scoring.cpp *)

Section Scorer.
Context {D : Type} `{Double D}.
Variable config_ : Config D.

Definition calculate_confidence (signals : SignalResult D) : Z :=
  if (data_quality signals <? min_dq_for_actionable config_)%D then
    Z.min 50 (static_cast_int (data_quality signals * d_lit 100 1)%D)
  else
    let weighted_sum :=
      (d_lit 15 100 * s1_liquidity signals +
       d_lit 15 100 * s2_volume signals +
       d_lit 10 100 * s3_momentum_1h signals +
       d_lit 10 100 * s4_momentum_24h signals +
       d_lit 5 100 * s5_volatility signals +
       d_lit 5 100 * s6_price_discovery signals +
       d_lit 20 100 * s7_rug_risk signals +
       d_lit 10 100 * s8_tradability signals +
       d_lit 5 100 * s9_relative_strength signals +
       d_lit 5 100 * s10_route_quality signals)%D in
    let base_score := static_cast_int (weighted_sum * d_lit 100 1)%D in
    let base_score :=
      if (n1_hygiene signals <? d_lit 5 10)%D
      then base_score - hygiene_penalty config_ else base_score in
    let base_score :=
      if (s7_rug_risk signals <? d_lit 5 10)%D
      then Z.min base_score (max_rug_cap config_) else base_score in
    Z.max 0 (Z.min 100 base_score).

Definition determine_band (confidence_score : Z)
    (entry_confirmed net_edge_ok : bool) : string :=
  if negb entry_confirmed then "watch"
  else if negb net_edge_ok then "watch"
  else if confidence_score >=? high_conviction_min config_
       then "high_conviction"
  else if confidence_score >=? actionable_base_threshold config_
       then "actionable"
  else if (confidence_score >=? headsup_min config_)
          && (confidence_score <=? headsup_max config_)
       then "heads_up"
  else "watch".

Definition apply_risk_adjustment (base_score : Z) (risk_on : bool) : Z :=
  if risk_on then Z.min 100 (base_score + risk_on_adj config_)
  else Z.max 0 (base_score + risk_off_adj config_).

End Scorer.

(** The band rule in the words of the specification, as a function of the
    confidence, the two gates and the four thresholds. *)
Definition band_rule_spec (high_conviction_min_ actionable_base_threshold_
    headsup_min_ headsup_max_ : Z) (c : Z) (e n : bool) : string :=
  if negb e || negb n then "watch"
  else if c >=? high_conviction_min_ then "high_conviction"
  else if c >=? actionable_base_threshold_ then "actionable"
  else if (headsup_min_ <=? c) && (c <=? headsup_max_) then "heads_up"
  else "watch".

(** The low-data-quality result in the words of the specification:
    [min(50, round(dq * 100))]. *)
Definition low_quality_confidence_spec {D} `{Double D} (dq : D) : Z :=
  Z.min 50 (Qround_half_away (d_val (dq * d_lit 100 1)%D)).

(** *** signals.cpp: S7 *)

Section Signals.
Context {D : Type} `{Double D}.

Definition age_factor (update : MarketUpdate D) : D :=
  std_min (d_lit 1 1) (age_hours update / d_lit 720 1)%D.

Definition holder_factor (metadata : TokenMetadata D) : D :=
  if (top_holder_pct metadata >? d_lit 0 1)%D
  then std_max (d_lit 0 1)
         (d_lit 1 1 - top_holder_pct metadata / d_lit 100 1)%D
  else d_lit 1 1.

Definition auth_factor (metadata : TokenMetadata D) : D :=
  if risky_authorities metadata then d_lit 7 10 else d_lit 1 1.

Definition calculate_s7_rug_risk (update : MarketUpdate D)
    (metadata : option (TokenMetadata D)) : D :=
  let score :=
    match metadata with
    | Some md =>
        (d_lit 7 10 * age_factor update * holder_factor md * auth_factor md)%D
    | None => d_lit 5 10
    end in
  std_min (d_lit 9 10) score.

End Signals.

End Analytics.


(** ** analytics: ThrottleManager (throttles.cpp) *)

Module Throttles.

(** [system_clock::duration] counts nanoseconds;
    [duration_cast<minutes>(d).count()] truncates toward zero. *)
Definition ticks_per_minute : Z := 60 * 1000000000.

Definition duration_cast_minutes (d : Z) : Z := Z.quot d ticks_per_minute.

(** The fields of [config_] that throttles.cpp reads.  config.hpp does not
    declare them, so they are parameters of the model, under the names the
    code uses. *)
Record Config : Type := {
  cooldown_high_conviction_min : Z;
  cooldown_actionable_min : Z;
  cooldown_headsup_min : Z;
  cooldown_watch_min : Z;
  rate_limit_window_min : Z;
  max_alerts_per_window : Z;
  max_high_conviction_per_window : Z;
  max_actionable_per_window : Z;
  max_headsup_per_window : Z;
  max_watch_per_window : Z
}.

Record AlertRecord : Type := {
  mint : string;
  band : string;
  timestamp : Z
}.

Section Manager.
Variable config_ : Config.

(** The cooldown chosen inside the first loop of [should_throttle]. *)
Definition cooldown_minutes (band : string) : Z :=
  if String.eqb band "high_conviction" then cooldown_high_conviction_min config_
  else if String.eqb band "actionable" then cooldown_actionable_min config_
  else if String.eqb band "heads_up" then cooldown_headsup_min config_
  else cooldown_watch_min config_.

Definition max_band_alerts (band : string) : Z :=
  if String.eqb band "high_conviction"
  then max_high_conviction_per_window config_
  else if String.eqb band "actionable" then max_actionable_per_window config_
  else if String.eqb band "heads_up" then max_headsup_per_window config_
  else max_watch_per_window config_.

(** First loop: a record of the same mint younger than the cooldown. *)
Fixpoint mint_in_cooldown (now : Z) (mint_ band_ : string)
    (alert_history_ : list AlertRecord) : bool :=
  match alert_history_ with
  | [] => false
  | record :: rest =>
      if String.eqb (mint record) mint_ then
        let elapsed := duration_cast_minutes (now - timestamp record) in
        if elapsed <? cooldown_minutes band_ then true
        else mint_in_cooldown now mint_ band_ rest
      else mint_in_cooldown now mint_ band_ rest
  end.

(** Second loop: [alerts_in_window]. *)
Fixpoint alerts_in_window (now : Z) (alert_history_ : list AlertRecord) : Z :=
  match alert_history_ with
  | [] => 0
  | record :: rest =>
      let elapsed := duration_cast_minutes (now - timestamp record) in
      if elapsed <? rate_limit_window_min config_
      then alerts_in_window now rest + 1
      else alerts_in_window now rest
  end.

(** Third loop: [band_alerts_in_window]. *)
Fixpoint band_alerts_in_window (now : Z) (band_ : string)
    (alert_history_ : list AlertRecord) : Z :=
  match alert_history_ with
  | [] => 0
  | record :: rest =>
      if String.eqb (band record) band_ then
        let elapsed := duration_cast_minutes (now - timestamp record) in
        if elapsed <? rate_limit_window_min config_
        then band_alerts_in_window now band_ rest + 1
        else band_alerts_in_window now band_ rest
      else band_alerts_in_window now band_ rest
  end.

Definition should_throttle (now : Z) (mint_ band_ : string)
    (alert_history_ : list AlertRecord) : bool :=
  if mint_in_cooldown now mint_ band_ alert_history_ then true
  else if alerts_in_window now alert_history_ >=? max_alerts_per_window config_
  then true
  else if band_alerts_in_window now band_ alert_history_
          >=? max_band_alerts band_
  then true
  else false.

Definition max_cooldown : Z :=
  Z.max (cooldown_high_conviction_min config_)
    (Z.max (cooldown_actionable_min config_)
       (Z.max (cooldown_headsup_min config_) (cooldown_watch_min config_))).

(** [erase(remove_if(...))]: the records that are not older than
    [max_cooldown], in their order. *)
Definition cleanup (now : Z) (alert_history_ : list AlertRecord)
    : list AlertRecord :=
  filter (fun record =>
            ¬ (duration_cast_minutes (now - timestamp record) > max_cooldown))
         alert_history_.

(** [record_alert] reads the clock twice: for the record's timestamp and,
    inside [cleanup], for the pruning. *)
Definition record_alert (now now_cleanup : Z) (mint_ band_ : string)
    (alert_history_ : list AlertRecord) : list AlertRecord :=
  let record := {| mint := mint_; band := band_; timestamp := now |} in
  cleanup now_cleanup (alert_history_ ++ [record]).

(** The calls that mutate the manager. *)
Inductive Call : Type :=
| CallRecordAlert (now now_cleanup : Z) (mint_ band_ : string)
| CallCleanup (now : Z).

Definition call_clock (c : Call) : Z :=
  match c with
  | CallRecordAlert _ now_cleanup _ _ => now_cleanup
  | CallCleanup now => now
  end.

Definition run_call (alert_history_ : list AlertRecord) (c : Call)
    : list AlertRecord :=
  match c with
  | CallRecordAlert now now_cleanup mint_ band_ =>
      record_alert now now_cleanup mint_ band_ alert_history_
  | CallCleanup now => cleanup now alert_history_
  end.

Definition run_calls (cs : list Call) (alert_history_ : list AlertRecord)
    : list AlertRecord :=
  fold_left run_call cs alert_history_.

End Manager.

End Throttles.

(** ** Library functions of C++ used by the services *)

Module Cxx.

Definition digit_of (c : ascii) : option Z :=
  let n := Z.of_nat (nat_of_ascii c) in
  if (48 <=? n) && (n <=? 57) then Some (n - 48) else None.

Definition isspace (c : ascii) : bool :=
  let n := Z.of_nat (nat_of_ascii c) in
  (n =? 32) || ((9 <=? n) && (n <=? 13)).

Fixpoint skip_spaces (s : string) : string :=
  match s with
  | String c rest => if isspace c then skip_spaces rest else s
  | EmptyString => s
  end.

(** The value of the longest prefix of decimal digits, if there is one. *)
Fixpoint read_digits (s : string) (acc : option Z) : option Z :=
  match s with
  | String c rest =>
      match digit_of c with
      | Some d => read_digits rest (Some (10 * default 0 acc + d))
      | None => acc
      end
  | EmptyString => acc
  end.

(** [strtol]-style conversion: white space, an optional sign, digits.
    [None] stands for [std::invalid_argument]. *)
Definition read_integer (s : string) : option Z :=
  match skip_spaces s with
  | String "-" rest => Z.opp <$> read_digits rest None
  | String "+" rest => read_digits rest None
  | rest => read_digits rest None
  end.

(** [std::stoi] and [std::stoll]; [None] also stands for
    [std::out_of_range]. *)
Definition stoi (s : string) : option Z :=
  n ← read_integer s;
  if (- 2 ^ 31 <=? n) && (n <? 2 ^ 31) then Some n else None.

Definition stoll (s : string) : option Z :=
  n ← read_integer s;
  if (- 2 ^ 63 <=? n) && (n <? 2 ^ 63) then Some n else None.

(** [std::to_string] of an integer. *)
Definition to_string (n : Z) : string := pretty n.

(** The result of an arithmetic operation on [int], given the exact result
    [n]: [n] itself when it is a value of [int].  Signed overflow is
    undefined in C++; the two's complement wrap-around stands for it here,
    and the theorems about such a product or sum bound it. *)
Definition wrap_int (n : Z) : Z := (n + 2 ^ 31) mod 2 ^ 32 - 2 ^ 31.

End Cxx.

(** ** The Redis server, as far as the services use it *)

Module Redis.

Inductive Reply (A : Type) : Type :=
| Ok (a : A)
| Throws.

Arguments Ok {A} a.
Arguments Throws {A}.

Record Entry : Type := {
  value : string;
  expires_at : option Z
}.

Abbreviation Store := (gmap string Entry).

Definition ticks_per_second : Z := 1000000000.

Definition live (now : Z) (e : Entry) : bool :=
  match expires_at e with
  | Some t => now <? t
  | None => true
  end.

(** The entry under [key] that has not expired at [now]. *)
Definition read (now : Z) (db : Store) (key : string) : option Entry :=
  match db !! key with
  | Some e => if live now e then Some e else None
  | None => None
  end.

(** A strict decimal integer, as INCR requires of the stored value. *)
Fixpoint all_digits (s : string) : bool :=
  match s with
  | String c rest => bool_decide (is_Some (Cxx.digit_of c)) && all_digits rest
  | EmptyString => true
  end.

Definition integer_value (s : string) : option Z :=
  match s with
  | EmptyString => None
  | String "-" EmptyString => None
  | String "-" rest =>
      if all_digits rest then Z.opp <$> Cxx.read_digits rest None else None
  | _ => if all_digits s then Cxx.read_digits s None else None
  end.

(** Every command takes [conn], whether the call reaches the server; a call
    that does not reach it throws and leaves the store as it is. *)
Section Commands.
Variable conn : bool.
Variable now : Z.

Definition EXISTS (db : Store) (key : string) : Reply Z :=
  if conn then Ok (match read now db key with Some _ => 1 | None => 0 end)
  else Throws.

Definition GET (db : Store) (key : string) : Reply (option string) :=
  if conn then Ok (value <$> read now db key) else Throws.

Definition SETEX (db : Store) (key : string) (ttl : Z) (val : string)
    : Reply unit * Store :=
  if conn then
    if ttl <=? 0 then (Throws, db)
    else (Ok tt,
          <[key := {| value := val;
                      expires_at := Some (now + ttl * ticks_per_second) |}]> db)
  else (Throws, db).

(** [set(key, val, ttl, UpdateType::NOT_EXIST)]: SET key val PX ttl NX; the
    client sends no expiry for a ttl that is not positive. *)
Definition SET_NX (db : Store) (key val : string) (ttl : Z)
    : Reply bool * Store :=
  if conn then
    match read now db key with
    | Some _ => (Ok false, db)
    | None =>
        (Ok true,
         <[key := {| value := val;
                     expires_at := if 0 <? ttl
                                   then Some (now + ttl * ticks_per_second)
                                   else None |}]> db)
    end
  else (Throws, db).

Definition DEL (db : Store) (key : string) : Reply Z * Store :=
  if conn
  then (Ok (match read now db key with Some _ => 1 | None => 0 end),
        delete key db)
  else (Throws, db).

Definition INCR (db : Store) (key : string) : Reply Z * Store :=
  if conn then
    match read now db key with
    | None => (Ok 1, <[key := {| value := "1"; expires_at := None |}]> db)
    | Some e =>
        match integer_value (value e) with
        | Some n =>
            (Ok (n + 1),
             <[key := {| value := Cxx.to_string (n + 1);
                         expires_at := expires_at e |}]> db)
        | None => (Throws, db)
        end
    end
  else (Throws, db).

Definition EXPIRE (db : Store) (key : string) (seconds : Z)
    : Reply bool * Store :=
  if conn then
    match read now db key with
    | Some e =>
        (Ok true,
         if seconds <=? 0 then delete key db
         else <[key := {| value := value e;
                          expires_at := Some (now + seconds * ticks_per_second)
                       |}]> db)
    | None => (Ok false, db)
    end
  else (Throws, db).

End Commands.

End Redis.

(** ** notifier: Throttler, Deduplicator, NotifierService *)

Module Notifier.

(** The fields of [config_] read by the modelled code, under the names the
    code uses (config.hpp declares other names for them). *)
Record Config : Type := {
  dedupe_period_sec : Z;
  global_throttle_limit : Z;
  global_throttle_period_sec : Z;
  telegram_chat_id : Z
}.

(** [InboundAlert] as the service and the deduplicator read it.  The price
    and impact fields are only read by the message formatter. *)
Record InboundAlert : Type := {
  mint : string;
  severity : string;
  symbol : string;
  confidence : Z;
  lines : list string;
  plan : string;
  sol_path : string
}.

Record OutboundAlert : Type := {
  chat_id : Z;
  message : string
}.

Record AuditEvent : Type := {
  ev_timestamp : Z;
  ev_mint : string;
  ev_symbol : string;
  ev_severity : string;
  ev_confidence : Z;
  outcome : string;
  details : string;
  raw_alert : InboundAlert
}.

(** A call made on the service thread returns, or never does. *)
Inductive Call (A : Type) : Type :=
| Returns (a : A)
| Blocks.

Arguments Returns {A} a.
Arguments Blocks {A}.

(** *** audit_logger.cpp *)

Module AuditLogger.

(** The logger: whether [conn_mutex_] is held, whether [conn_] is an open
    connection, whether the database answers, and the rows of
    [notifier_audit_log]. *)
Record t : Type := {
  conn_mutex_ : bool;
  conn_open : bool;
  pg_up : bool;
  rows : list AuditEvent
}.

Definition set_mutex (l : t) (held : bool) : t :=
  {| conn_mutex_ := held; conn_open := conn_open l; pg_up := pg_up l;
     rows := rows l |}.

(** [std::lock_guard<std::mutex> lock(conn_mutex_)]: [None] when the mutex
    is held.  The logger is called from the service thread alone and a
    [std::mutex] is not recursive: the thread then waits for itself. *)
Definition lock_guard (l : t) : option t :=
  if conn_mutex_ l then None else Some (set_mutex l true).

Definition unlock (l : t) : t := set_mutex l false.

Definition connect (l : t) : bool * t :=
  (pg_up l,
   {| conn_mutex_ := conn_mutex_ l; conn_open := pg_up l; pg_up := pg_up l;
      rows := rows l |}).

Definition check_health (l : t) : Call bool * t :=
  match lock_guard l with
  | None => (Blocks, l)
  | Some l =>
      let '(connected, l) :=
        if negb (conn_open l) then connect l else (true, l) in
      if negb connected then (Returns false, unlock l)
      else (Returns (pg_up l), unlock l)
  end.

Definition log_event (l : t) (event : AuditEvent) : Call unit * t :=
  match lock_guard l with
  | None => (Blocks, l)
  | Some l =>
      match check_health l with
      | (Blocks, l) => (Blocks, l)
      | (Returns healthy, l) =>
          if negb healthy then (Returns tt, unlock l)
          else
            (Returns tt,
             unlock (if pg_up l
                     then {| conn_mutex_ := conn_mutex_ l;
                             conn_open := conn_open l; pg_up := pg_up l;
                             rows := rows l ++ [event] |}
                     else l))
      end
  end.

End AuditLogger.

(** What the service owns: the Redis store shared by the throttler and the
    deduplicator, the outbound alert stream, the events handed to the
    audit logger, the logger itself, and whether the service thread is
    inside a call that does not return. *)
Record State : Type := {
  db : Redis.Store;
  outbound : list OutboundAlert;
  audit : list AuditEvent;
  audit_logger_ : AuditLogger.t;
  blocked : bool
}.

(** Which of the calls of one handler invocation reach their server: the
    five Redis commands of the gates, and the publish on the bus. *)
Record Io : Type := {
  exists_ok : bool;
  get_ok : bool;
  set_ok : bool;
  incr_ok : bool;
  expire_ok : bool;
  publish_ok : bool
}.

Definition mute_key_ : string := "notifier:mute_status".
Definition global_throttle_key_ : string :=
  "notifier:global_throttle:actionable".

Section Service.
Variable config_ : Config.
(** [std::hash<std::string>] and [Formatter::format_alert_message]. *)
Variable std_hash : string -> Z.
Variable format_alert_message : InboundAlert -> string.

(** *** throttler.cpp *)

Definition is_muted (io : Io) (now : Z) (db_ : Redis.Store) : bool :=
  match Redis.EXISTS (exists_ok io) now db_ mute_key_ with
  | Redis.Ok n => negb (n =? 0)
  | Redis.Throws => false
  end.

(** [minutes * 60] is a product of [int]. *)
Definition set_mute (conn : bool) (now : Z) (db_ : Redis.Store) (minutes : Z)
    : Redis.Store :=
  snd (Redis.SETEX conn now db_ mute_key_ (Cxx.wrap_int (minutes * 60)) "1").

Definition clear_mute (conn : bool) (now : Z) (db_ : Redis.Store)
    : Redis.Store :=
  snd (Redis.DEL conn now db_ mute_key_).

Definition is_globally_throttled (io : Io) (now : Z) (db_ : Redis.Store)
    (severity_ : string) : bool :=
  if negb (String.eqb severity_ "actionable") then false
  else
    match Redis.GET (get_ok io) now db_ global_throttle_key_ with
    | Redis.Ok (Some count) =>
        match Cxx.stoi count with
        | Some n => if n >=? global_throttle_limit config_ then true else false
        | None => true
        end
    | Redis.Ok None => false
    | Redis.Throws => true
    end.

Definition record_actionable_alert (io : Io) (now : Z) (db_ : Redis.Store)
    : Redis.Store :=
  match Redis.INCR (incr_ok io) now db_ global_throttle_key_ with
  | (Redis.Ok result, db') =>
      if result =? 1
      then snd (Redis.EXPIRE (expire_ok io) now db' global_throttle_key_
                  (global_throttle_period_sec config_))
      else db'
  | (Redis.Throws, db') => db'
  end.

(** *** util.cpp, deduplicator.cpp *)

Definition generate_reason_hash (reasons : list string) : string :=
  let combined := fold_left String.append reasons EmptyString in
  Cxx.to_string (std_hash combined).

Definition dedupe_key (alert : InboundAlert) : string :=
  "notifier:dedupe:" +:+ mint alert +:+ ":" +:+
  generate_reason_hash (lines alert).

Definition is_duplicate (io : Io) (now : Z) (db_ : Redis.Store)
    (alert : InboundAlert) : bool * Redis.Store :=
  match Redis.SET_NX (set_ok io) now db_ (dedupe_key alert) "1"
          (dedupe_period_sec config_) with
  | (Redis.Ok key_was_set, db') => (negb key_was_set, db')
  | (Redis.Throws, db') => (true, db')
  end.

(** *** redis_bus.cpp, notifier_service.cpp *)

Definition publish_outbound_alert (io : Io) (out : list OutboundAlert)
    (alert : OutboundAlert) : bool * list OutboundAlert :=
  if publish_ok io then (true, out ++ [alert]) else (false, out).

Definition make_event (now : Z) (alert : InboundAlert)
    (outcome_ details_ : string) : AuditEvent :=
  {| ev_timestamp := now; ev_mint := mint alert; ev_symbol := symbol alert;
     ev_severity := severity alert; ev_confidence := confidence alert;
     outcome := outcome_; details := details_; raw_alert := alert |}.

(** The state with the Redis store [db_] and the outbound stream [out]. *)
Definition with_db_outbound (st : State) (db_ : Redis.Store)
    (out : list OutboundAlert) : State :=
  {| db := db_; outbound := out; audit := audit st;
     audit_logger_ := audit_logger_ st; blocked := blocked st |}.

(** [audit_logger_->log_event(event)], the last statement of the handler:
    the event is handed to the logger; when the logger's call does not
    return, the service thread stays inside it. *)
Definition log_event (st : State) (event : AuditEvent) : State :=
  let result := AuditLogger.log_event (audit_logger_ st) event in
  {| db := db st; outbound := outbound st; audit := audit st ++ [event];
     audit_logger_ := result.2;
     blocked := match result.1 with
                | Returns _ => blocked st
                | Blocks => true
                end |}.

(** [handle_inbound_alert]: the state in which the call returns or, when
    [blocked] is set, the state in which it stays. *)
Definition handle_inbound_alert (io : Io) (now : Z) (alert : InboundAlert)
    (st : State) : State :=
  if is_muted io now (db st) then
    log_event st (make_event now alert "MUTED" "Global mute is active.")
  else if is_globally_throttled io now (db st) (severity alert) then
    log_event st
      (make_event now alert "THROTTLED"
         "Global throttle for 'actionable' alerts is active.")
  else
    let '(dup, db1) := is_duplicate io now (db st) alert in
    if dup then
      log_event (with_db_outbound st db1 (outbound st))
        (make_event now alert "DUPLICATE"
           ("Duplicate alert within " +:+
            Cxx.to_string (dedupe_period_sec config_) +:+ "s."))
    else
      let outbound_alert :=
        {| chat_id := telegram_chat_id config_;
           message := format_alert_message alert |} in
      let '(published, out1) :=
        publish_outbound_alert io (outbound st) outbound_alert in
      if published then
        let db2 :=
          if String.eqb (severity alert) "actionable"
          then record_actionable_alert io now db1 else db1 in
        log_event (with_db_outbound st db2 out1)
          (make_event now alert "SENT" "Alert sent to tg_gateway.")
      else
        log_event (with_db_outbound st db1 out1)
          (make_event now alert "PUBLISH_FAILED"
             "Failed to publish outbound alert to Redis.").

(** [service_loop], as far as alerts go: the alerts of the queue are
    handled one after the other, each with its own environment; the loop
    takes the next alert only when the call for the one before has
    returned. *)
Fixpoint service_loop (queue : list (Io * Z * InboundAlert)) (st : State)
    : State :=
  match queue with
  | [] => st
  | (io, now, alert) :: queue' =>
      if blocked st then st
      else service_loop queue' (handle_inbound_alert io now alert st)
  end.

(** The outcome of the decision for the last alert: the outcome of the
    event that the handler hands to the audit logger. *)
Definition last_outcome (st : State) : option string :=
  outcome <$> last (audit st).

End Service.

End Notifier.

(** ** tg_gateway: AuthManager, guest PINs, command relay (auth.cpp,
       redis_bus.cpp, util.cpp, main.cpp) *)

Module Gateway.

Definition ticks_per_minute : Z := 60 * Redis.ticks_per_second.

Inductive Role : Type := UNKNOWN | GUEST | OWNER.

#[export] Instance Role_eq_dec : EqDecision Role.
Proof. solve_decision. Defined.

Record Config : Type := {
  owner_telegram_id : Z;
  guest_default_minutes : Z
}.

Record UserSession : Type := {
  tg_user_id : Z;
  role : Role;
  expires_at : Z
}.

Record PendingCommandInfo : Type := {
  chat_id : Z;
  timestamp : Z
}.

Record ParsedCommand : Type := {
  command : string;
  args : list string
}.

Inductive JsonValue : Type :=
| JString (s : string)
| JInt (n : Z).

Record CommandRequest : Type := {
  cmd : string;
  req_args : list (string * JsonValue);
  from_tg_user_id : Z;
  from_role : string;
  req_corr_id : string;
  req_ts : Z
}.

Record CommandReply : Type := {
  corr_id : string;
  ok : bool;
  message : string
}.

Record AuditEvent : Type := {
  event : string;
  actor_tg_user_id : Z;
  actor_role : string;
  detail : string;
  ts : Z
}.

(** The gateway's maps, its Redis store, and what it has emitted: messages
    handed to the Telegram client, requests on the request stream, events on
    the audit stream. *)
Record State : Type := {
  guest_sessions_ : gmap Z UserSession;
  pending_commands_ : gmap string PendingCommandInfo;
  db : Redis.Store;
  sent : list (Z * string);
  requests : list CommandRequest;
  audits : list AuditEvent
}.

(** The environment of one handler invocation: the clock, which calls
    reach the Redis server, and the values drawn by [generate_uuid] and
    [generate_pin]. *)
Record Env : Type := {
  now : Z;
  get_ok : bool;
  del_ok : bool;
  setex_ok : bool;
  publish_ok : bool;
  audit_ok : bool;
  uuid : string;
  pin_drawn : string
}.

Definition nl : string := String "010" EmptyString.

Definition set_sessions (st : State) (m : gmap Z UserSession) : State :=
  {| guest_sessions_ := m; pending_commands_ := pending_commands_ st;
     db := db st; sent := sent st; requests := requests st;
     audits := audits st |}.

Definition set_pending (st : State) (m : gmap string PendingCommandInfo)
    : State :=
  {| guest_sessions_ := guest_sessions_ st; pending_commands_ := m;
     db := db st; sent := sent st; requests := requests st;
     audits := audits st |}.

Definition set_db (st : State) (d : Redis.Store) : State :=
  {| guest_sessions_ := guest_sessions_ st;
     pending_commands_ := pending_commands_ st;
     db := d; sent := sent st; requests := requests st; audits := audits st |}.

(** [telegram_client_.send_message] *)
Definition send_message (st : State) (chat : Z) (text : string) : State :=
  {| guest_sessions_ := guest_sessions_ st;
     pending_commands_ := pending_commands_ st;
     db := db st; sent := sent st ++ [(chat, text)];
     requests := requests st; audits := audits st |}.

Definition publish_command_request (env : Env) (st : State)
    (request : CommandRequest) : State :=
  if publish_ok env then
    {| guest_sessions_ := guest_sessions_ st;
       pending_commands_ := pending_commands_ st;
       db := db st; sent := sent st;
       requests := requests st ++ [request]; audits := audits st |}
  else st.

Definition publish_audit_event (env : Env) (st : State) (e : AuditEvent)
    : State :=
  if audit_ok env then
    {| guest_sessions_ := guest_sessions_ st;
       pending_commands_ := pending_commands_ st;
       db := db st; sent := sent st; requests := requests st;
       audits := audits st ++ [e] |}
  else st.

(** *** auth.cpp *)

Definition is_expired (now_ : Z) (s : UserSession) : bool :=
  now_ >? expires_at s.

Section Auth.
Variable config_ : Config.

Definition get_user_role (now_ : Z) (sessions : gmap Z UserSession)
    (user_id : Z) : Role :=
  if user_id =? owner_telegram_id config_ then OWNER
  else
    match sessions !! user_id with
    | Some s => if negb (is_expired now_ s) then GUEST else UNKNOWN
    | None => UNKNOWN
    end.

Definition is_command_allowed (cmd_ : string) (role_ : Role) : bool :=
  match role_ with
  | OWNER => true
  | GUEST =>
      String.eqb cmd_ "start" || String.eqb cmd_ "help"
      || String.eqb cmd_ "balance" || String.eqb cmd_ "holdings"
      || String.eqb cmd_ "signals" || String.eqb cmd_ "health"
  | UNKNOWN => false
  end.

Definition set_guest_session (now_ : Z) (sessions : gmap Z UserSession)
    (user_id minutes : Z) : gmap Z UserSession :=
  <[user_id := {| tg_user_id := user_id; role := GUEST;
                  expires_at := now_ + minutes * ticks_per_minute |}]> sessions.

Definition cleanup_expired_sessions (now_ : Z)
    (sessions : gmap Z UserSession) : gmap Z UserSession :=
  filter (fun kv => is_expired now_ kv.2 = false) sessions.

End Auth.

(** *** redis_bus.cpp: guest PINs *)

Definition guest_pin_key (pin : string) : string := "guest_pin:" +:+ pin.

Definition store_guest_pin (env : Env) (db_ : Redis.Store) (pin : string)
    (owner_id ttl_seconds : Z) : bool * Redis.Store :=
  match Redis.SETEX (setex_ok env) (now env) db_ (guest_pin_key pin)
          ttl_seconds (Cxx.to_string owner_id) with
  | (Redis.Ok _, db') => (true, db')
  | (Redis.Throws, db') => (false, db')
  end.

Definition get_guest_pin_user (env : Env) (db_ : Redis.Store) (pin : string)
    : option Z :=
  match Redis.GET (get_ok env) (now env) db_ (guest_pin_key pin) with
  | Redis.Ok (Some result) => Cxx.stoll result
  | _ => None
  end.

Definition delete_guest_pin (env : Env) (db_ : Redis.Store) (pin : string)
    : Redis.Store :=
  snd (Redis.DEL (del_ok env) (now env) db_ (guest_pin_key pin)).

(** *** util.cpp *)

Definition is_base58 (c : ascii) : bool :=
  let n := Z.of_nat (nat_of_ascii c) in
  ((49 <=? n) && (n <=? 57))
  || ((65 <=? n) && (n <=? 72)) || ((74 <=? n) && (n <=? 78))
  || ((80 <=? n) && (n <=? 90))
  || ((97 <=? n) && (n <=? 107)) || ((109 <=? n) && (n <=? 122)).

Definition is_valid_address (address : string) : bool :=
  let len := Z.of_nat (String.length address) in
  if (len <? 32) || (len >? 44) then false
  else forallb is_base58 (list_ascii_of_string address).

(** *** parser.cpp *)

Definition get_int_arg (c : ParsedCommand) (index : nat) : option Z :=
  arg ← args c !! index; Cxx.stoi arg.

(** *** main.cpp: TelegramGateway *)

Section TelegramGateway.
Variable config_ : Config.

Definition audit_guest_login (env : Env) (st : State) (user_id : Z) : State :=
  publish_audit_event env st
    {| event := "guest_login"; actor_tg_user_id := user_id;
       actor_role := "guest"; detail := "Guest access granted via PIN";
       ts := now env |}.

Definition audit_auth_denied (env : Env) (st : State) (user_id : Z) : State :=
  publish_audit_event env st
    {| event := "auth_denied"; actor_tg_user_id := user_id;
       actor_role := "unknown";
       detail := "Access denied for user " +:+ Cxx.to_string user_id;
       ts := now env |}.

Definition role_string (r : Role) : string :=
  if decide (r = OWNER) then "owner" else "guest".

Definition audit_command_used (env : Env) (st : State) (command_ : string)
    (user_id : Z) (r : Role) : State :=
  publish_audit_event env st
    {| event := "cmd_used"; actor_tg_user_id := user_id;
       actor_role := role_string r;
       detail := "User used command: /" +:+ command_;
       ts := now env |}.

Definition handle_guest_login (env : Env) (pin : string)
    (user_id chat : Z) (st : State) : State :=
  match get_guest_pin_user env (db st) pin with
  | None => send_message st chat "Invalid or expired PIN"
  | Some owner_id =>
      let st := set_sessions st
                  (set_guest_session (now env) (guest_sessions_ st) user_id
                     (guest_default_minutes config_)) in
      let st := set_db st (delete_guest_pin env (db st) pin) in
      let st := send_message st chat
                  "Guest access granted! Use /help for available commands." in
      audit_guest_login env st user_id
  end.

Definition help_text (r : Role) : string :=
  "Available commands:" +:+ nl +:+
  "/balance - Show wallet balances" +:+ nl +:+
  "/holdings - Show current positions" +:+ nl +:+
  "/signals [window] - Show recent signals" +:+ nl +:+
  "/health - System health check" +:+ nl +:+
  (if decide (r = OWNER) then
     "/silence [minutes] - Silence alerts" +:+ nl +:+
     "/resume - Resume alerts" +:+ nl +:+
     "/add_wallet <address> - Add wallet to monitor" +:+ nl +:+
     "/remove_wallet <address> - Remove wallet" +:+ nl +:+
     "/guest [minutes] - Generate guest PIN" +:+ nl
   else EmptyString).

Definition handle_local_command (env : Env) (c : ParsedCommand)
    (user_id chat : Z) (r : Role) (st : State) : bool * State :=
  if String.eqb (command c) "start" then
    (true, send_message st chat
             "Welcome to SoulScout! Use /help for available commands.")
  else if String.eqb (command c) "help" then
    (true, send_message st chat (help_text r))
  else if String.eqb (command c) "guest" && bool_decide (r = OWNER) then
    let minutes := default (guest_default_minutes config_) (get_int_arg c 0) in
    let pin := pin_drawn env in
    let '(stored, db') := store_guest_pin env (db st) pin user_id (minutes * 60) in
    let st := set_db st db' in
    if stored then
      (true, send_message st chat
               ("Guest PIN: <code>" +:+ pin +:+ "</code>" +:+ nl +:+
                "Valid for " +:+ Cxx.to_string minutes +:+ " minutes"))
    else (true, send_message st chat "Failed to generate guest PIN")
  else (false, st).

(** The [args] object of the request; [None] is the early return on an
    address that is not valid. *)
Definition build_args (c : ParsedCommand)
    : option (list (string * JsonValue)) :=
  match args c with
  | [] => Some []
  | arg0 :: _ =>
      if String.eqb (command c) "signals" then Some [("window", JString arg0)]
      else if String.eqb (command c) "add_wallet"
              || String.eqb (command c) "remove_wallet" then
        if negb (is_valid_address arg0) then None
        else Some [("address", JString arg0)]
      else if String.eqb (command c) "silence" then
        match get_int_arg c 0 with
        | Some minutes => Some [("minutes", JInt minutes)]
        | None => Some []
        end
      else Some []
  end.

Definition forward_command (env : Env) (c : ParsedCommand)
    (user_id chat : Z) (r : Role) (st : State) : State :=
  match build_args c with
  | None => st
  | Some request_args =>
      let request :=
        {| cmd := command c; req_args := request_args;
           from_tg_user_id := user_id; from_role := role_string r;
           req_corr_id := uuid env; req_ts := now env |} in
      let st := set_pending st
                  (<[uuid env := {| chat_id := chat; timestamp := now env |}]>
                     (pending_commands_ st)) in
      publish_command_request env st request
  end.

Definition handle_command_reply (reply : CommandReply) (st : State) : State :=
  match pending_commands_ st !! corr_id reply with
  | None => st
  | Some info =>
      let chat_id_to_reply := chat_id info in
      let st := set_pending st (delete (corr_id reply) (pending_commands_ st)) in
      if negb (chat_id_to_reply =? 0)
      then send_message st chat_id_to_reply (message reply)
      else st
  end.

(** The body of [cleanup_loop]: expired sessions, then pending commands
    older than five minutes (the rate limiter's own sweep does not touch
    the state modelled here). *)
Definition sweep_pending (now_ : Z) (m : gmap string PendingCommandInfo)
    : gmap string PendingCommandInfo :=
  filter (fun kv => ¬ (now_ - timestamp kv.2 > 5 * ticks_per_minute)) m.

Definition cleanup_tick (now_ : Z) (st : State) : State :=
  let st := set_sessions st (cleanup_expired_sessions now_ (guest_sessions_ st)) in
  set_pending st (sweep_pending now_ (pending_commands_ st)).

Definition handle_command (env : Env) (c : ParsedCommand)
    (user_id chat : Z) (st : State) : State :=
  if String.eqb (command c) "start" && (length (args c) =? 1)%nat then
    handle_guest_login env (default EmptyString (args c !! 0%nat)) user_id chat st
  else
    let user_role := get_user_role config_ (now env) (guest_sessions_ st) user_id in
    if bool_decide (user_role = UNKNOWN) then
      audit_auth_denied env
        (send_message st chat "Access denied. Contact the owner for access.")
        user_id
    else if negb (is_command_allowed (command c) user_role) then
      audit_auth_denied env
        (send_message st chat "You don't have permission to use this command.")
        user_id
    else
      let '(handled, st1) := handle_local_command env c user_id chat user_role st in
      if handled then st1
      else
        audit_command_used env (forward_command env c user_id chat user_role st1)
          (command c) user_id user_role.

End TelegramGateway.

End Gateway.

(** ** tg_gateway: CommandParser (parser.cpp) *)

Module Parser.

(** The loop [while (iss >> arg) args.push_back(arg)]: each extraction
    skips white space and reads up to the next white space; [word] is the
    argument being read, if one has been started. *)
Fixpoint split_args_from (text : string) (word : option string)
    : list string :=
  match text with
  | EmptyString =>
      match word with
      | Some w => [w]
      | None => []
      end
  | String c rest =>
      if Cxx.isspace c then
        match word with
        | Some w => w :: split_args_from rest None
        | None => split_args_from rest None
        end
      else
        split_args_from rest
          (Some (default EmptyString word +:+ String c EmptyString))
  end.

Definition split_args (text : string) : list string :=
  split_args_from text None.

Definition is_command (text : string) : bool :=
  match text with
  | String "/" _ => true
  | _ => false
  end.

(** [args[0].substr(1)]: the first word without its first character (a
    word is never empty, so [substr] does not throw). *)
Definition substr_1 (s : string) : string :=
  match s with
  | String _ rest => rest
  | EmptyString => EmptyString
  end.

Definition parse (text : string) : option Gateway.ParsedCommand :=
  if negb (is_command text) then None
  else
    match split_args text with
    | [] => None
    | arg0 :: rest =>
        Some {| Gateway.command := substr_1 arg0; Gateway.args := rest |}
    end.

End Parser.

(** ** tg_gateway: RateLimiter (rate_limiter.cpp) *)

Module RateLimiter.

Definition ticks_per_hour : Z := 60 * Gateway.ticks_per_minute.

(** The value type of [user_limits_], with the two members that
    rate_limiter.cpp reads and writes. *)
Record UserLimit : Type := {
  window_start : Z;
  message_count : Z
}.

Record State : Type := {
  user_limits_ : gmap Z UserLimit;
  actionable_timestamps_ : list Z
}.

(** The entry that [user_limits_[user_id]] creates for a new user:
    value-initialised, so the epoch and a count of zero. *)
Definition fresh : UserLimit := {| window_start := 0; message_count := 0 |}.

(** [static_cast<size_t>] of an [int]. *)
Definition static_cast_size_t (n : Z) : Z := n mod 2 ^ 64.

Section Limiter.
Variable msgs_per_min_ : Z.
Variable global_actionable_per_hour_ : Z.

Definition check_user_rate_limit (now : Z) (user_id : Z) (st : State)
    : bool * State :=
  let data := default fresh (user_limits_ st !! user_id) in
  let data :=
    if now - window_start data >? Gateway.ticks_per_minute
    then {| window_start := now; message_count := 0 |}
    else data in
  if message_count data >=? msgs_per_min_ then
    (false,
     {| user_limits_ := <[user_id := data]> (user_limits_ st);
        actionable_timestamps_ := actionable_timestamps_ st |})
  else
    (true,
     {| user_limits_ :=
          <[user_id := {| window_start := window_start data;
                          message_count := message_count data + 1 |}]>
            (user_limits_ st);
        actionable_timestamps_ := actionable_timestamps_ st |}).

(** [erase(remove_if(..., ts < hour_ago))] *)
Definition remove_older_than_hour (now : Z) (timestamps : list Z) : list Z :=
  let hour_ago := now - ticks_per_hour in
  filter (fun ts => ¬ (ts < hour_ago)) timestamps.

Definition check_global_actionable_limit (now : Z) (st : State)
    : bool * State :=
  let timestamps := remove_older_than_hour now (actionable_timestamps_ st) in
  (Z.of_nat (length timestamps)
     <? static_cast_size_t global_actionable_per_hour_,
   {| user_limits_ := user_limits_ st;
      actionable_timestamps_ := timestamps |}).

Definition record_actionable (now : Z) (st : State) : State :=
  {| user_limits_ := user_limits_ st;
     actionable_timestamps_ := actionable_timestamps_ st ++ [now] |}.

Definition cleanup_old_entries (now : Z) (st : State) : State :=
  {| user_limits_ :=
       filter (fun kv => ¬ (now - window_start kv.2
                            > 2 * Gateway.ticks_per_minute))
         (user_limits_ st);
     actionable_timestamps_ :=
       remove_older_than_hour now (actionable_timestamps_ st) |}.

End Limiter.

End RateLimiter.

(** ** tg_gateway: the entry points of TelegramGateway (main.cpp) *)

Module Dispatch.

(** [TelegramUpdate], as far as the handler reads it. *)
Record TelegramUpdate : Type := {
  text : string;
  from_id : Z;
  update_chat_id : Z
}.

(** [Alert], with the members that [handle_alert] reads. *)
Record Alert : Type := {
  severity : string;
  title : string;
  message : string
}.

(** The three markers of [handle_alert], as the UTF-8 bytes of the source. *)
Definition emoji_info : string :=
  String "226" (String "132" (String "185"
    (String "239" (String "184" (String "143" EmptyString))))).
Definition emoji_warning : string :=
  String "226" (String "154" (String "160"
    (String "239" (String "184" (String "143" EmptyString))))).
Definition emoji_siren : string :=
  String "240" (String "159" (String "154" (String "168" EmptyString))).

Section TelegramGateway.
Variable config_ : Gateway.Config.
Variable rate_limit_msgs_per_min : Z.
Variable global_actionable_max_per_hour : Z.

(** The rate limiter reads the clock first, at [now_limit]; the command
    handler reads it through [env]. *)
Definition handle_telegram_update_struct (env : Gateway.Env) (now_limit : Z)
    (update : TelegramUpdate) (s : RateLimiter.State * Gateway.State)
    : RateLimiter.State * Gateway.State :=
  let '(limiter, st) := s in
  match text update with
  | EmptyString => s
  | _ =>
      let user_id := from_id update in
      let chat_id := update_chat_id update in
      let '(allowed, limiter) :=
        RateLimiter.check_user_rate_limit rate_limit_msgs_per_min
          now_limit user_id limiter in
      if negb allowed then
        (limiter,
         Gateway.send_message st chat_id
           "Rate limit exceeded. Please slow down.")
      else
        match Parser.parse (text update) with
        | None =>
            (limiter,
             Gateway.send_message st chat_id
               "Invalid command format. Use /help for available commands.")
        | Some parsed =>
            (limiter, Gateway.handle_command config_ env parsed user_id chat_id st)
        end
  end.

Definition is_limited (alert : Alert) : bool :=
  String.eqb (severity alert) "actionable"
  || String.eqb (severity alert) "high_conviction".

Definition format_alert (alert : Alert) : string :=
  let severity_emoji :=
    if String.eqb (severity alert) "actionable" then emoji_warning
    else if String.eqb (severity alert) "high_conviction" then emoji_siren
    else emoji_info in
  severity_emoji +:+ " " +:+ title alert +:+ " (" +:+ severity alert +:+ ")"
  +:+ Gateway.nl +:+ message alert.

(** [handle_alert]: the limiter reads the clock in
    [check_global_actionable_limit] and again in [record_actionable]. *)
Definition handle_alert (now_check now_record : Z) (alert : Alert)
    (s : RateLimiter.State * Gateway.State)
    : RateLimiter.State * Gateway.State :=
  let '(limiter, st) := s in
  let forward limiter :=
    (limiter,
     Gateway.send_message st (Gateway.owner_telegram_id config_)
       (format_alert alert)) in
  if is_limited alert then
    let '(allowed, limiter) :=
      RateLimiter.check_global_actionable_limit
        global_actionable_max_per_hour now_check limiter in
    if negb allowed then (limiter, st)
    else forward (RateLimiter.record_actionable now_record limiter)
  else forward limiter.

(** The body of [cleanup_loop], with the limiter's own sweep. *)
Definition cleanup_loop_body (now_sessions now_limiter now_pending : Z)
    (s : RateLimiter.State * Gateway.State)
    : RateLimiter.State * Gateway.State :=
  let '(limiter, st) := s in
  let st :=
    Gateway.set_sessions st
      (Gateway.cleanup_expired_sessions now_sessions
         (Gateway.guest_sessions_ st)) in
  let limiter := RateLimiter.cleanup_old_entries now_limiter limiter in
  (limiter,
   Gateway.set_pending st
     (Gateway.sweep_pending now_pending (Gateway.pending_commands_ st))).

End TelegramGateway.

End Dispatch.

(** ** ingestor: DexClient::fetch_pools and Service::tick *)

Module Ingestor.

Record Config (D : Type) : Type := {
  min_tvl_threshold : D;
  min_volume_threshold : D
}.

Arguments min_tvl_threshold {D} _.
Arguments min_volume_threshold {D} _.

Definition default_config {D} `{Double D} : Config D := {|
  min_tvl_threshold := d_lit 25000 1;
  min_volume_threshold := d_lit 1000 1
|}.

(** [PoolInfo] with the fields that dex_client.cpp and service.cpp read and
    write. *)
Record PoolInfo (D : Type) : Type := {
  pool_id : string;
  dex_name : string;
  pool_type : string;
  reserve_a : D;
  reserve_b : D;
  tvl_usd : D;
  volume_24h_usd : D;
  price_impact_1pct : D;
  fee_rate : D;
  apr : D
}.

Arguments pool_id {D} _.
Arguments dex_name {D} _.
Arguments pool_type {D} _.
Arguments reserve_a {D} _.
Arguments reserve_b {D} _.
Arguments tvl_usd {D} _.
Arguments volume_24h_usd {D} _.
Arguments price_impact_1pct {D} _.
Arguments fee_rate {D} _.
Arguments apr {D} _.

Record MarketUpdate (D : Type) : Type := {
  id : string;
  mu_pool_id : string;
  mu_dex_name : string;
  mu_tvl_usd : D;
  mu_volume_24h_usd : D;
  mu_price_impact_1pct : D;
  mu_timestamp : Z
}.

Arguments id {D} _.
Arguments mu_pool_id {D} _.
Arguments mu_tvl_usd {D} _.
Arguments mu_volume_24h_usd {D} _.

Section Ingest.
Context {D : Type} `{Double D}.
Variable config_ : Config D.

(** *** dex_client.cpp *)

Definition calculate_additional_metrics (pool : PoolInfo D) : PoolInfo D :=
  let fee := d_lit 3 1000 in
  let impact :=
    if (reserve_a pool >? d_lit 0 1)%D && (reserve_b pool >? d_lit 0 1)%D then
      if String.eqb (pool_type pool) "constant-product" then
        let k := (reserve_a pool * reserve_b pool)%D in
        let delta_a := (reserve_a pool * d_lit 1 100)%D in
        let new_reserve_a := (reserve_a pool + delta_a)%D in
        let new_reserve_b := (k / new_reserve_a)%D in
        let initial_price := (reserve_b pool / reserve_a pool)%D in
        let new_price := (new_reserve_b / new_reserve_a)%D in
        (d_abs ((new_price - initial_price) / initial_price) * d_lit 100 1)%D
      else if String.eqb (pool_type pool) "stable" then d_lit 1 10
      else price_impact_1pct pool
    else price_impact_1pct pool in
  let apr_ :=
    if (volume_24h_usd pool >? d_lit 0 1)%D && (tvl_usd pool >? d_lit 0 1)%D
    then (volume_24h_usd pool * d_lit 365 1 / tvl_usd pool)%D
    else d_lit 0 1 in
  {| pool_id := pool_id pool; dex_name := dex_name pool;
     pool_type := pool_type pool; reserve_a := reserve_a pool;
     reserve_b := reserve_b pool; tvl_usd := tvl_usd pool;
     volume_24h_usd := volume_24h_usd pool; price_impact_1pct := impact;
     fee_rate := fee; apr := apr_ |}.

(** The predicate of the [remove_if] in [fetch_pools]. *)
Definition below_thresholds (pool : PoolInfo D) : bool :=
  (tvl_usd pool <? min_tvl_threshold config_)%D
  || (volume_24h_usd pool <? min_volume_threshold config_)%D.

(** [fetch_pools], given what the two DEX endpoints returned. *)
Definition fetch_pools (raydium_pools orca_pools : list (PoolInfo D))
    : list (PoolInfo D) :=
  let all_pools := raydium_pools ++ orca_pools in
  let all_pools := List.filter (fun pool => negb (below_thresholds pool)) all_pools in
  List.map calculate_additional_metrics all_pools.

(** *** service.cpp *)

(** The condition of the loop in [tick]. *)
Definition meets_threshold (pool : PoolInfo D) : bool :=
  (tvl_usd pool >=? min_tvl_threshold config_)%D
  || (volume_24h_usd pool >=? min_volume_threshold config_)%D.

Definition create_market_update (uuid : string) (now : Z)
    (pool_info : PoolInfo D) : MarketUpdate D :=
  {| id := uuid; mu_pool_id := pool_id pool_info;
     mu_dex_name := dex_name pool_info; mu_tvl_usd := tvl_usd pool_info;
     mu_volume_24h_usd := volume_24h_usd pool_info;
     mu_price_impact_1pct := price_impact_1pct pool_info;
     mu_timestamp := now |}.

(** What one tick hands on: the argument of [pool_cache_.update_pools] and
    the argument of [redis_publisher_.publish_market_updates] ([None] when
    the call is skipped because there is no update). *)
Record TickOutput : Type := {
  cache_update : list (PoolInfo D);
  published : option (list (MarketUpdate D))
}.

(** [tick], given the pools returned by [dex_client_.fetch_pools()]; the
    i-th market update takes the i-th draw of [generate_uuid] and its own
    clock read. *)
Definition tick (uuids : nat -> string) (clock : nat -> Z)
    (pools : list (PoolInfo D)) : TickOutput :=
  let filtered_pools := List.filter meets_threshold pools in
  let updates :=
    imap (fun i pool => create_market_update (uuids i) (clock i) pool)
      filtered_pools in
  {| cache_update := filtered_pools;
     published := match updates with [] => None | _ => Some updates end |}.

End Ingest.

End Ingestor.

(** ** analytics: the remaining signals, the entry checks, the regime
       detector and the service (signals.cpp, entry_exit.cpp, regime.cpp,
       analytics_service.cpp) *)

Arguments Analytics.mint_base {D} _.
Arguments Analytics.symbol {D} _.
Arguments Analytics.price {D} _.
Arguments Analytics.liq_usd {D} _.
Arguments Analytics.vol24h_usd {D} _.
Arguments Analytics.spread_pct {D} _.
Arguments Analytics.impact_1pct_pct {D} _.
Arguments Analytics.confidence_score {D} _.
Arguments Analytics.reasons {D} _.
Arguments Analytics.band {D} _.
Arguments Analytics.entry_confirmed {D} _.
Arguments Analytics.net_edge_ok {D} _.

Module Pipeline.

Definition ticks_per_hour : Z := 60 * Throttles.ticks_per_minute.

Definition duration_cast_hours (d : Z) : Z := Z.quot d ticks_per_hour.

Record OHLCVBar (D : Type) : Type := {
  open : D;
  high : D;
  low : D;
  close : D;
  volume_usd : D
}.

Arguments open {D} _.
Arguments high {D} _.
Arguments low {D} _.
Arguments close {D} _.

Record RouteInfo (D : Type) : Type := {
  ok : bool;
  hops : Z;
  deviation_pct : D
}.

Arguments ok {D} _.
Arguments hops {D} _.
Arguments deviation_pct {D} _.

(** [MarketUpdate] whole: its scalar fields, its route, its bars and its
    timestamp. *)
Record Update (D : Type) : Type := {
  scalars : Analytics.MarketUpdate D;
  route : RouteInfo D;
  bars : gmap string (OHLCVBar D);
  timestamp : Z
}.

Arguments scalars {D} _.
Arguments route {D} _.
Arguments bars {D} _.
Arguments timestamp {D} _.

(** The fields of [Config] read by the code of this module, beside those
    of the scorer and of the throttle manager.  [sol_mint], the two regime
    thresholds and [cache_ttl_minutes] are read by the code but not declared
    in config.hpp. *)
Record Config (D : Type) : Type := {
  scorer : Analytics.Config D;
  throttle : Throttles.Config;
  min_liquidity_actionable : D;
  min_liquidity_headsup : D;
  min_volume_actionable : D;
  min_volume_headsup : D;
  max_impact_pct : D;
  max_spread_pct : D;
  max_route_hops : Z;
  max_route_deviation : D;
  min_age_hours : Z;
  young_token_hours : Z;
  min_c_young_risky : Z;
  min_m1h_pct : D;
  max_m1h_pct : D;
  min_m24h_pct : D;
  max_m24h_pct : D;
  dq_start : D;
  dq_penalty_per_missing : D;
  max_upside_cap : D;
  net_edge_k_factor : D;
  lag_penalty : D;
  sol_mint : string;
  risk_on_sol_change_threshold : D;
  risk_on_momentum_threshold : D;
  cache_ttl_minutes : Z
}.

Arguments scorer {D} _.
Arguments throttle {D} _.
Arguments min_liquidity_actionable {D} _.
Arguments min_liquidity_headsup {D} _.
Arguments min_volume_actionable {D} _.
Arguments min_volume_headsup {D} _.
Arguments max_impact_pct {D} _.
Arguments max_spread_pct {D} _.
Arguments max_route_hops {D} _.
Arguments max_route_deviation {D} _.
Arguments min_age_hours {D} _.
Arguments young_token_hours {D} _.
Arguments min_c_young_risky {D} _.
Arguments min_m1h_pct {D} _.
Arguments max_m1h_pct {D} _.
Arguments min_m24h_pct {D} _.
Arguments max_m24h_pct {D} _.
Arguments dq_start {D} _.
Arguments dq_penalty_per_missing {D} _.
Arguments max_upside_cap {D} _.
Arguments net_edge_k_factor {D} _.
Arguments lag_penalty {D} _.
Arguments sol_mint {D} _.
Arguments risk_on_sol_change_threshold {D} _.
Arguments risk_on_momentum_threshold {D} _.
Arguments cache_ttl_minutes {D} _.

(** The alert that [generate_alerts] fills in and publishes. *)
Record Alert (D : Type) : Type := {
  alert_mint : string;
  alert_symbol : string;
  alert_price_usd : D;
  alert_liq_usd : D;
  alert_vol24h_usd : D;
  alert_confidence_score : Z;
  alert_band : string;
  alert_reasons : list string;
  alert_timestamp : Z
}.

Arguments alert_mint {D} _.
Arguments alert_band {D} _.
Arguments alert_timestamp {D} _.

Record RegimeDataPoint (D : Type) : Type := {
  point_sol_price : D;
  point_sol_24h_change_pct : D;
  point_timestamp : Z
}.

Arguments point_sol_price {D} _.
Arguments point_sol_24h_change_pct {D} _.
Arguments point_timestamp {D} _.

Record RegimeDetector (D : Type) : Type := {
  data_points_ : list (RegimeDataPoint D);
  risk_on_ : bool
}.

Arguments data_points_ {D} _.
Arguments risk_on_ {D} _.

(** The caches of [ApiSignalsHandler] (api_signals.hpp): the last update
    of each mint, the signals cached for each mint with their timestamp,
    and the static counter of [cache_market_update]. *)
Record ApiSignalsHandler (D : Type) : Type := {
  market_updates_cache_ : gmap string (Update D);
  signals_cache_ : gmap string (Analytics.SignalResult D * Z);
  counter : Z
}.

Arguments market_updates_cache_ {D} _.
Arguments signals_cache_ {D} _.
Arguments counter {D} _.

(** What the service owns: the regime detector, the SOL price tracking,
    the throttle manager's history, the API handler with its caches, and the
    alerts published so far. *)
Record Service (D : Type) : Type := {
  regime_detector_ : RegimeDetector D;
  sol_price_ : D;
  sol_24h_change_pct_ : D;
  alert_history_ : list Throttles.AlertRecord;
  api_signals_handler_ : ApiSignalsHandler D;
  alerts : list (Alert D)
}.

Arguments regime_detector_ {D} _.
Arguments sol_price_ {D} _.
Arguments sol_24h_change_pct_ {D} _.
Arguments alert_history_ {D} _.
Arguments api_signals_handler_ {D} _.
Arguments alerts {D} _.

(** What one call of [process_market_update] reads from outside: the rows
    of the store, whether the publish succeeds, and the clock at its five
    reads ([cleanup_cache], [should_throttle], the alert's timestamp,
    [record_alert] and the [cleanup] inside it). *)
Record Env (D : Type) : Type := {
  metadata : option (Analytics.TokenMetadata D);
  token_list_mints : list string;
  publish_ok : bool;
  now_cache : Z;
  now_throttle : Z;
  now_alert : Z;
  now_record : Z;
  now_cleanup : Z
}.

Arguments metadata {D} _.
Arguments token_list_mints {D} _.
Arguments publish_ok {D} _.
Arguments now_cache {D} _.
Arguments now_throttle {D} _.
Arguments now_alert {D} _.
Arguments now_record {D} _.
Arguments now_cleanup {D} _.

Section Code.
Context {D : Type} `{Double D}.
Variable config_ : Config D.
(** [generate_reasons] formats doubles with [fmt::format]; the reasons are
    carried through the pipeline and never read by it. *)
Variable generate_reasons :
  Update D -> option (Analytics.TokenMetadata D) -> Analytics.SignalResult D
  -> list string.

(** *** signals.cpp *)

Definition calculate_s1_liquidity (update : Update D) : D :=
  let liq_usd := Analytics.liq_usd (scalars update) in
  if (liq_usd <=? d_lit 0 1)%D then d_lit 0 1
  else if (liq_usd <? min_liquidity_headsup config_)%D then d_lit 0 1
  else if (liq_usd <? min_liquidity_actionable config_)%D then
    (d_lit 3 10 + d_lit 2 10 * (liq_usd - min_liquidity_headsup config_)
                  / (min_liquidity_actionable config_
                     - min_liquidity_headsup config_))%D
  else if (liq_usd <? d_lit 500000 1)%D then
    (d_lit 5 10 + d_lit 3 10 * (liq_usd - min_liquidity_actionable config_)
                  / (d_lit 500000 1 - min_liquidity_actionable config_))%D
  else if (liq_usd <? d_lit 1000000 1)%D then
    (d_lit 8 10 + d_lit 1 10 * (liq_usd - d_lit 500000 1) / d_lit 500000 1)%D
  else if (liq_usd <? d_lit 2000000 1)%D then
    (d_lit 9 10 + d_lit 1 10 * (liq_usd - d_lit 1000000 1) / d_lit 1000000 1)%D
  else d_lit 1 1.

Definition calculate_s2_volume (update : Update D) : D :=
  let vol24h_usd := Analytics.vol24h_usd (scalars update) in
  if (vol24h_usd <=? d_lit 0 1)%D then d_lit 0 1
  else if (vol24h_usd <? min_volume_headsup config_)%D then d_lit 0 1
  else if (vol24h_usd <? min_volume_actionable config_)%D then
    (d_lit 3 10 + d_lit 2 10 * (vol24h_usd - min_volume_headsup config_)
                  / (min_volume_actionable config_
                     - min_volume_headsup config_))%D
  else if (vol24h_usd <? d_lit 2000000 1)%D then
    (d_lit 5 10 + d_lit 3 10 * (vol24h_usd - min_volume_actionable config_)
                  / (d_lit 2000000 1 - min_volume_actionable config_))%D
  else if (vol24h_usd <? d_lit 5000000 1)%D then
    (d_lit 8 10 + d_lit 1 10 * (vol24h_usd - d_lit 2000000 1) / d_lit 3000000 1)%D
  else if (vol24h_usd <? d_lit 10000000 1)%D then
    (d_lit 9 10 + d_lit 1 10 * (vol24h_usd - d_lit 5000000 1) / d_lit 5000000 1)%D
  else d_lit 1 1.

(** [((bar.close / bar.open) - 1.0) * 100.0] *)
Definition change_pct (bar : OHLCVBar D) : D :=
  ((close bar / open bar - d_lit 1 1) * d_lit 100 1)%D.

Definition calculate_s3_momentum_1h (update : Update D) : D :=
  match bars update !! "5m" with
  | None => d_lit 5 10
  | Some bar_5m =>
      let m1h_pct := change_pct bar_5m in
      if (m1h_pct <=? d_lit (-10) 1)%D then d_lit 0 1
      else if (m1h_pct <=? d_lit (-5) 1)%D then
        (d_lit 0 1 + d_lit 3 10 * (m1h_pct + d_lit 10 1) / d_lit 5 1)%D
      else if (m1h_pct <=? d_lit 0 1)%D then
        (d_lit 3 10 + d_lit 2 10 * (m1h_pct + d_lit 5 1) / d_lit 5 1)%D
      else if (m1h_pct <? min_m1h_pct config_)%D then
        (d_lit 5 10 + d_lit 2 10 * m1h_pct / min_m1h_pct config_)%D
      else if (m1h_pct <=? d_lit 6 1)%D then
        (d_lit 7 10 + d_lit 2 10 * (m1h_pct - min_m1h_pct config_)
                      / (d_lit 6 1 - min_m1h_pct config_))%D
      else if (m1h_pct <=? max_m1h_pct config_)%D then
        (d_lit 9 10 + d_lit 1 10 * (m1h_pct - d_lit 6 1)
                      / (max_m1h_pct config_ - d_lit 6 1))%D
      else d_lit 1 1
  end.

Definition calculate_s4_momentum_24h (update : Update D) : D :=
  let m24h_pct :=
    match bars update !! "15m" with
    | Some bar_15m => change_pct bar_15m
    | None => d_lit 0 1
    end in
  if (m24h_pct <=? d_lit (-30) 1)%D then d_lit 0 1
  else if (m24h_pct <=? d_lit (-10) 1)%D then
    (d_lit 0 1 + d_lit 3 10 * (m24h_pct + d_lit 30 1) / d_lit 20 1)%D
  else if (m24h_pct <=? d_lit 0 1)%D then
    (d_lit 3 10 + d_lit 2 10 * (m24h_pct + d_lit 10 1) / d_lit 10 1)%D
  else if (m24h_pct <? min_m24h_pct config_)%D then
    (d_lit 5 10 + d_lit 2 10 * m24h_pct / min_m24h_pct config_)%D
  else if (m24h_pct <=? d_lit 20 1)%D then
    (d_lit 7 10 + d_lit 2 10 * (m24h_pct - min_m24h_pct config_)
                  / (d_lit 20 1 - min_m24h_pct config_))%D
  else if (m24h_pct <=? max_m24h_pct config_)%D then
    (d_lit 9 10 + d_lit 1 10 * (m24h_pct - d_lit 20 1)
                  / (max_m24h_pct config_ - d_lit 20 1))%D
  else d_lit 1 1.

Definition calculate_s5_volatility (update : Update D) : D :=
  match bars update !! "15m" with
  | None => d_lit 5 10
  | Some bar_15m =>
      let volatility :=
        ((high bar_15m - low bar_15m) / low bar_15m * d_lit 100 1)%D in
      if (volatility <=? d_lit 0 1)%D then d_lit 0 1
      else if (volatility <=? d_lit 5 1)%D then
        (d_lit 0 1 + d_lit 5 10 * volatility / d_lit 5 1)%D
      else if (volatility <=? d_lit 10 1)%D then
        (d_lit 5 10 + d_lit 3 10 * (volatility - d_lit 5 1) / d_lit 5 1)%D
      else if (volatility <=? d_lit 20 1)%D then
        (d_lit 8 10 + d_lit 2 10 * (volatility - d_lit 10 1) / d_lit 10 1)%D
      else d_lit 1 1
  end.

Definition calculate_s6_price_discovery (update : Update D) : D :=
  let s2 := calculate_s2_volume update in
  let s5 := calculate_s5_volatility update in
  (d_lit 4 10 * s2 + d_lit 6 10 * std_min s5 (d_lit 8 10))%D.

Definition calculate_s8_tradability (update : Update D) : D :=
  let spread_pct := Analytics.spread_pct (scalars update) in
  let impact_1pct_pct := Analytics.impact_1pct_pct (scalars update) in
  if (spread_pct >? max_spread_pct config_)%D
     || (impact_1pct_pct >? max_impact_pct config_)%D
  then d_lit 0 1
  else
    let spread_score := (d_lit 1 1 - spread_pct / max_spread_pct config_)%D in
    let impact_score :=
      (d_lit 1 1 - impact_1pct_pct / max_impact_pct config_)%D in
    (d_lit 4 10 * spread_score + d_lit 6 10 * impact_score)%D.

Definition calculate_s9_relative_strength (update : Update D) : D :=
  d_lit 7 10.

(** The test on the route that [calculate_s10_route_quality] and
    [check_entry_conditions] both make. *)
Definition route_fails (update : Update D) : bool :=
  negb (ok (route update))
  || (hops (route update) >? max_route_hops config_)
  || (deviation_pct (route update) >? max_route_deviation config_)%D.

Definition calculate_s10_route_quality (update : Update D) : D :=
  if route_fails update then d_lit 0 1
  else
    let hops_score :=
      (d_lit 1 1 - (d_lit (hops (route update)) 1 - d_lit 1 1)
                   / (d_lit (max_route_hops config_) 1 - d_lit 1 1))%D in
    let deviation_score :=
      (d_lit 1 1 - deviation_pct (route update)
                   / max_route_deviation config_)%D in
    (d_lit 3 10 * hops_score + d_lit 7 10 * deviation_score)%D.

Fixpoint calculate_n1_hygiene (mint : string) (token_list_mints : list string)
    : D :=
  match token_list_mints with
  | [] => d_lit 0 1
  | list_mint :: rest =>
      if String.eqb list_mint mint then d_lit 1 1
      else calculate_n1_hygiene mint rest
  end.

Definition calculate_data_quality (update : Update D) : D :=
  let penalise (missing : bool) (dq : D) : D :=
    if missing then (dq - dq_penalty_per_missing config_)%D else dq in
  let dq := dq_start config_ in
  let dq :=
    penalise (Analytics.liq_usd (scalars update) <=? d_lit 0 1)%D dq in
  let dq :=
    penalise (Analytics.vol24h_usd (scalars update) <=? d_lit 0 1)%D dq in
  let dq := penalise (bool_decide (bars update !! "5m" = None)) dq in
  let dq := penalise (bool_decide (bars update !! "15m" = None)) dq in
  let dq :=
    penalise (Analytics.spread_pct (scalars update) <=? d_lit 0 1)%D dq in
  let dq :=
    penalise (Analytics.impact_1pct_pct (scalars update) <=? d_lit 0 1)%D dq in
  std_max (d_lit 0 1) dq.

(** [SignalResult result;] leaves [confidence_score] and the two gates
    uninitialised; the service assigns each before it is read.  They stand
    here as 0 and [false]. *)
Definition calculate_signals (update : Update D)
    (metadata_ : option (Analytics.TokenMetadata D))
    (token_list_mints_ : list string) : Analytics.SignalResult D :=
  let result (reasons_ : list string) : Analytics.SignalResult D :=
    {| Analytics.s1_liquidity := calculate_s1_liquidity update;
       Analytics.s2_volume := calculate_s2_volume update;
       Analytics.s3_momentum_1h := calculate_s3_momentum_1h update;
       Analytics.s4_momentum_24h := calculate_s4_momentum_24h update;
       Analytics.s5_volatility := calculate_s5_volatility update;
       Analytics.s6_price_discovery := calculate_s6_price_discovery update;
       Analytics.s7_rug_risk :=
         Analytics.calculate_s7_rug_risk (scalars update) metadata_;
       Analytics.s8_tradability := calculate_s8_tradability update;
       Analytics.s9_relative_strength := calculate_s9_relative_strength update;
       Analytics.s10_route_quality := calculate_s10_route_quality update;
       Analytics.n1_hygiene :=
         calculate_n1_hygiene (Analytics.mint_base (scalars update))
           token_list_mints_;
       Analytics.data_quality := calculate_data_quality update;
       Analytics.confidence_score := 0;
       Analytics.reasons := reasons_;
       Analytics.band := EmptyString;
       Analytics.entry_confirmed := false;
       Analytics.net_edge_ok := false |} in
  result (generate_reasons update metadata_ (result [])).

(** *** entry_exit.cpp *)

(** The test on one bar of [check_entry_conditions]: the bar is there and
    its change is within the two bounds. *)
Definition momentum_within (bar : option (OHLCVBar D)) (lo hi : D) : bool :=
  match bar with
  | Some b =>
      negb ((change_pct b <? lo)%D || (change_pct b >? hi)%D)
  | None => false
  end.

Definition check_entry_conditions (update : Update D)
    (signals : Analytics.SignalResult D) : bool :=
  let u := scalars update in
  if (Analytics.age_hours u <? d_lit (min_age_hours config_) 1)%D then false
  else if (Analytics.liq_usd u <? min_liquidity_actionable config_)%D
  then false
  else if (Analytics.vol24h_usd u <? min_volume_actionable config_)%D
  then false
  else if (Analytics.spread_pct u >? max_spread_pct config_)%D
          || (Analytics.impact_1pct_pct u >? max_impact_pct config_)%D
  then false
  else if route_fails update then false
  else if negb (momentum_within (bars update !! "5m")
                  (min_m1h_pct config_) (max_m1h_pct config_))
  then false
  else if negb (momentum_within (bars update !! "15m")
                  (min_m24h_pct config_) (max_m24h_pct config_))
  then false
  else if (Analytics.data_quality signals
           <? Analytics.min_dq_for_actionable (scorer config_))%D
  then false
  else if (Analytics.age_hours u <? d_lit (young_token_hours config_) 1)%D
          && (Analytics.s7_rug_risk signals <? d_lit 5 10)%D
          && (Analytics.confidence_score signals <? min_c_young_risky config_)
  then false
  else true.

Definition check_net_edge (update : Update D)
    (signals : Analytics.SignalResult D) : bool :=
  let upside_potential :=
    match bars update !! "5m" with
    | Some bar_5m =>
        std_min (change_pct bar_5m * d_lit 2 1)%D (max_upside_cap config_)
    | None => d_lit 0 1
    end in
  let downside_risk :=
    (Analytics.impact_1pct_pct (scalars update) * d_lit 2 1)%D in
  let downside_risk :=
    (downside_risk + Analytics.spread_pct (scalars update))%D in
  let downside_risk := (downside_risk + lag_penalty config_)%D in
  let net_edge :=
    (upside_potential - net_edge_k_factor config_ * downside_risk)%D in
  (net_edge >? d_lit 0 1)%D.

(** *** regime.cpp *)

Definition is_risk_on (detector : RegimeDetector D) : bool :=
  risk_on_ detector.

Definition update_regime (now : Z) (sol_price sol_24h_change_pct : D)
    (detector : RegimeDetector D) : RegimeDetector D :=
  let point :=
    {| point_sol_price := sol_price;
       point_sol_24h_change_pct := sol_24h_change_pct;
       point_timestamp := now |} in
  let points := data_points_ detector ++ [point] in
  let points :=
    filter (fun p => ¬ (duration_cast_hours (now - point_timestamp p) > 24))
      points in
  if (length points <? 3)%nat then
    {| data_points_ := points; risk_on_ := false |}
  else
    let size := Z.of_nat (length points) in
    let avg_change :=
      (fold_left (fun sum p => sum + point_sol_24h_change_pct p) points
         (d_lit 0 1) / d_lit size 1)%D in
    let current_price := point_sol_price (default point (last points)) in
    let avg_price :=
      if (1 <? length points)%nat then
        (fold_left (fun sum p => sum + point_sol_price p)
           (take (length points - 1) points) (d_lit 0 1)
         / d_lit (size - 1) 1)%D
      else current_price in
    let price_momentum :=
      ((current_price / avg_price - d_lit 1 1) * d_lit 100 1)%D in
    let new_risk_on :=
      (avg_change >? risk_on_sol_change_threshold config_)%D
      && (price_momentum >? risk_on_momentum_threshold config_)%D in
    {| data_points_ := points; risk_on_ := new_risk_on |}.

(** *** analytics_service.cpp *)

(** The subscriber of market updates in [run], beside queueing the update:
    the SOL price tracking and the regime update.  The service reads
    [price_usd] and [symbol_base], which types.hpp declares as [price] and
    [symbol]. *)
Definition on_market_update (now : Z) (update : Update D) (st : Service D)
    : Service D :=
  if String.eqb (Analytics.mint_base (scalars update)) (sol_mint config_) then
    let sol_price := Analytics.price (scalars update) in
    let sol_24h_change_pct :=
      match bars update !! "15m" with
      | Some bar_15m => change_pct bar_15m
      | None => sol_24h_change_pct_ st
      end in
    {| regime_detector_ :=
         update_regime now sol_price sol_24h_change_pct (regime_detector_ st);
       sol_price_ := sol_price;
       sol_24h_change_pct_ := sol_24h_change_pct;
       alert_history_ := alert_history_ st;
       api_signals_handler_ := api_signals_handler_ st;
       alerts := alerts st |}
  else st.

(** *** api_signals.cpp: the update cache *)

Definition cleanup_cache (now : Z) (handler : ApiSignalsHandler D)
    : ApiSignalsHandler D :=
  {| market_updates_cache_ :=
       filter (fun kv =>
                 ¬ (Throttles.duration_cast_minutes (now - timestamp kv.2)
                    > cache_ttl_minutes config_))
         (market_updates_cache_ handler);
     signals_cache_ :=
       filter (fun kv =>
                 ¬ (Throttles.duration_cast_minutes (now - snd kv.2)
                    > cache_ttl_minutes config_))
         (signals_cache_ handler);
     counter := counter handler |}.

(** [++counter % 100 == 0] on the static [int] counter. *)
Definition cache_market_update (now : Z) (update : Update D)
    (handler : ApiSignalsHandler D) : ApiSignalsHandler D :=
  let handler :=
    {| market_updates_cache_ :=
         <[Analytics.mint_base (scalars update) := update]>
           (market_updates_cache_ handler);
       signals_cache_ := signals_cache_ handler;
       counter := Cxx.wrap_int (counter handler + 1) |} in
  if Z.rem (counter handler) 100 =? 0 then cleanup_cache now handler
  else handler.

Definition set_api_signals_handler (st : Service D)
    (handler : ApiSignalsHandler D) : Service D :=
  {| regime_detector_ := regime_detector_ st;
     sol_price_ := sol_price_ st;
     sol_24h_change_pct_ := sol_24h_change_pct_ st;
     alert_history_ := alert_history_ st;
     api_signals_handler_ := handler;
     alerts := alerts st |}.

(** *** analytics_service.cpp: the processing thread *)

Definition generate_alerts (env : Env D) (update : Update D)
    (signals : Analytics.SignalResult D) (st : Service D) : Service D :=
  let mint := Analytics.mint_base (scalars update) in
  if String.eqb (Analytics.band signals) "watch" then st
  else if Throttles.should_throttle (throttle config_) (now_throttle env)
            mint (Analytics.band signals) (alert_history_ st)
  then st
  else
    let alert :=
      {| alert_mint := mint;
         alert_symbol := Analytics.symbol (scalars update);
         alert_price_usd := Analytics.price (scalars update);
         alert_liq_usd := Analytics.liq_usd (scalars update);
         alert_vol24h_usd := Analytics.vol24h_usd (scalars update);
         alert_confidence_score := Analytics.confidence_score signals;
         alert_band := Analytics.band signals;
         alert_reasons := Analytics.reasons signals;
         alert_timestamp := now_alert env |} in
    if publish_ok env then
      {| regime_detector_ := regime_detector_ st;
         sol_price_ := sol_price_ st;
         sol_24h_change_pct_ := sol_24h_change_pct_ st;
         alert_history_ :=
           Throttles.record_alert (throttle config_) (now_record env)
             (now_cleanup env) mint (Analytics.band signals)
             (alert_history_ st);
         api_signals_handler_ := api_signals_handler_ st;
         alerts := alerts st ++ [alert] |}
    else st.

Definition set_confidence_score (signals : Analytics.SignalResult D) (c : Z)
    : Analytics.SignalResult D :=
  {| Analytics.s1_liquidity := Analytics.s1_liquidity signals;
     Analytics.s2_volume := Analytics.s2_volume signals;
     Analytics.s3_momentum_1h := Analytics.s3_momentum_1h signals;
     Analytics.s4_momentum_24h := Analytics.s4_momentum_24h signals;
     Analytics.s5_volatility := Analytics.s5_volatility signals;
     Analytics.s6_price_discovery := Analytics.s6_price_discovery signals;
     Analytics.s7_rug_risk := Analytics.s7_rug_risk signals;
     Analytics.s8_tradability := Analytics.s8_tradability signals;
     Analytics.s9_relative_strength := Analytics.s9_relative_strength signals;
     Analytics.s10_route_quality := Analytics.s10_route_quality signals;
     Analytics.n1_hygiene := Analytics.n1_hygiene signals;
     Analytics.data_quality := Analytics.data_quality signals;
     Analytics.confidence_score := c;
     Analytics.reasons := Analytics.reasons signals;
     Analytics.band := Analytics.band signals;
     Analytics.entry_confirmed := Analytics.entry_confirmed signals;
     Analytics.net_edge_ok := Analytics.net_edge_ok signals |}.

Definition set_gates_and_band (signals : Analytics.SignalResult D)
    (entry_confirmed_ net_edge_ok_ : bool) (band_ : string)
    : Analytics.SignalResult D :=
  {| Analytics.s1_liquidity := Analytics.s1_liquidity signals;
     Analytics.s2_volume := Analytics.s2_volume signals;
     Analytics.s3_momentum_1h := Analytics.s3_momentum_1h signals;
     Analytics.s4_momentum_24h := Analytics.s4_momentum_24h signals;
     Analytics.s5_volatility := Analytics.s5_volatility signals;
     Analytics.s6_price_discovery := Analytics.s6_price_discovery signals;
     Analytics.s7_rug_risk := Analytics.s7_rug_risk signals;
     Analytics.s8_tradability := Analytics.s8_tradability signals;
     Analytics.s9_relative_strength := Analytics.s9_relative_strength signals;
     Analytics.s10_route_quality := Analytics.s10_route_quality signals;
     Analytics.n1_hygiene := Analytics.n1_hygiene signals;
     Analytics.data_quality := Analytics.data_quality signals;
     Analytics.confidence_score := Analytics.confidence_score signals;
     Analytics.reasons := Analytics.reasons signals;
     Analytics.band := band_;
     Analytics.entry_confirmed := entry_confirmed_;
     Analytics.net_edge_ok := net_edge_ok_ |}.

(** The signals as [process_market_update] hands them to
    [generate_alerts]: scored, adjusted for the regime, gated and banded. *)
Definition scored_signals (env : Env D) (update : Update D) (st : Service D)
    : Analytics.SignalResult D :=
  let signals :=
    calculate_signals update (metadata env) (token_list_mints env) in
  let signals :=
    set_confidence_score signals
      (Analytics.calculate_confidence (scorer config_) signals) in
  let risk_on := is_risk_on (regime_detector_ st) in
  let signals :=
    set_confidence_score signals
      (Analytics.apply_risk_adjustment (scorer config_)
         (Analytics.confidence_score signals) risk_on) in
  let entry_confirmed_ := check_entry_conditions update signals in
  let net_edge_ok_ := check_net_edge update signals in
  set_gates_and_band signals entry_confirmed_ net_edge_ok_
    (Analytics.determine_band (scorer config_)
       (Analytics.confidence_score signals) entry_confirmed_ net_edge_ok_).

(** [process_market_update], given what the store returns for the token:
    an update that is not of SOL is cached first, then scored and handed
    to [generate_alerts]. *)
Definition process_market_update (env : Env D) (update : Update D)
    (st : Service D) : Service D :=
  if String.eqb (Analytics.mint_base (scalars update)) (sol_mint config_)
  then st
  else
    let st :=
      set_api_signals_handler st
        (cache_market_update (now_cache env) update
           (api_signals_handler_ st)) in
    generate_alerts env update (scored_signals env update st) st.

End Code.

End Pipeline.

(** ** ingestor: requests with backoff (dex_client.cpp) *)

Module DexRequests.

(** [cpr::Response], as far as the retry loop reads it. *)
Record Response : Type := {
  error : bool;
  status_code : Z;
  text : string
}.

(** [cpr::Response()] *)
Definition empty_response : Response :=
  {| error := false; status_code := 0; text := EmptyString |}.

Definition max_attempts : Z := 5.

(** What a call of [make_request_with_backoff] leaves behind: the response
    returned, how often [request_func] was called, the sleeps in
    milliseconds, and [backoff_seconds_] afterwards. *)
Record Outcome (D : Type) : Type := {
  response : Response;
  calls : nat;
  sleeps_ms : list Z;
  backoff_seconds_after : D
}.

Arguments response {D} _.
Arguments calls {D} _.
Arguments sleeps_ms {D} _.
Arguments backoff_seconds_after {D} _.

Section Impl.
Context {D : Type} `{Double D}.
Variable max_backoff_seconds : D.
(** The response of the i-th call of [request_func], and the i-th draw of
    the jitter. *)
Variable request_func : nat -> Response.
Variable jitter : nat -> D.

Definition increase_backoff (backoff_seconds_ : D) : D :=
  std_min (backoff_seconds_ * d_lit 2 1)%D max_backoff_seconds.

Definition succeeded (response_ : Response) : bool :=
  negb (error response_)
  && ((status_code response_ =? 200) || (status_code response_ =? 201)).

(** The [while (attempts < max_attempts)] loop; [fuel] bounds its rounds. *)
Fixpoint request_loop (fuel : nat) (attempts : Z) (calls_ : nat)
    (backoff_seconds_ : D) (sleeps : list Z) : Outcome D :=
  match fuel with
  | O =>
      {| response := empty_response; calls := calls_; sleeps_ms := sleeps;
         backoff_seconds_after := backoff_seconds_ |}
  | S fuel' =>
      if negb (attempts <? max_attempts) then
        {| response := empty_response; calls := calls_; sleeps_ms := sleeps;
           backoff_seconds_after := backoff_seconds_ |}
      else
        let response_ := request_func calls_ in
        if succeeded response_ then
          {| response := response_; calls := S calls_; sleeps_ms := sleeps;
             backoff_seconds_after := backoff_seconds_ |}
        else
          let attempts := attempts + 1 in
          if attempts >=? max_attempts then
            {| response := response_; calls := S calls_; sleeps_ms := sleeps;
               backoff_seconds_after := backoff_seconds_ |}
          else
            let backoff_with_jitter :=
              (backoff_seconds_ * (d_lit 1 1 + jitter calls_))%D in
            let sleep :=
              static_cast_int (backoff_with_jitter * d_lit 1000 1)%D in
            request_loop fuel' attempts (S calls_)
              (increase_backoff backoff_seconds_) (sleeps ++ [sleep])
  end.

Definition make_request_with_backoff (backoff_seconds_ : D) : Outcome D :=
  request_loop (Z.to_nat max_attempts) 0 0 backoff_seconds_ [].

End Impl.

End DexRequests.

(** * Properties *)

Import Analytics.

(** ** Scorer *)

(** Concrete signal vectors: every sub-signal [x], hygiene 1, data quality
    [dq]. *)
Definition uniform_signals {D} `{Double D} (x dq : D) : SignalResult D := {|
  s1_liquidity := x; s2_volume := x; s3_momentum_1h := x;
  s4_momentum_24h := x; s5_volatility := x; s6_price_discovery := x;
  s7_rug_risk := x; s8_tradability := x; s9_relative_strength := x;
  s10_route_quality := x; n1_hygiene := d_lit 1 1; data_quality := dq;
  confidence_score := 0; reasons := []; band := EmptyString;
  entry_confirmed := false; net_edge_ok := false
|}.

Lemma determine_band_gated :
  forall (D : Type) (cfg : Config D) (c : Z) (e n : bool),
    e = false \/ n = false -> determine_band cfg c e n = "watch".
Proof.
  intros D cfg c e n [-> | ->]; unfold determine_band; simpl.
  - reflexivity.
  - destruct e; reflexivity.
Qed.

(** C1. [determine_band] is the band rule of the specification: watch when
    either gate is false, otherwise high_conviction, actionable, heads_up or
    watch by the thresholds; it is a function of the triple and of the four
    configured thresholds alone. *)
Theorem determine_band_is_band_rule :
  forall (D : Type) (cfg : Config D) (c : Z) (e n : bool),
    determine_band cfg c e n =
      band_rule_spec (high_conviction_min cfg) (actionable_base_threshold cfg)
        (headsup_min cfg) (headsup_max cfg) c e n /\
    determine_band cfg c false n = "watch" /\
    determine_band cfg c e false = "watch" /\
    determine_band cfg c true true =
      if c >=? high_conviction_min cfg then "high_conviction"
      else if c >=? actionable_base_threshold cfg then "actionable"
      else if (headsup_min cfg <=? c) && (c <=? headsup_max cfg)
           then "heads_up"
      else "watch".
Proof.
  intros D cfg c e n.
  split.
  { unfold determine_band, band_rule_spec.
    destruct e, n; simpl; try reflexivity.
    rewrite (Z.geb_leb c (headsup_min cfg)). reflexivity. }
  split; [apply determine_band_gated; left; reflexivity |].
  split; [apply determine_band_gated; right; reflexivity |].
  unfold determine_band. simpl.
  rewrite (Z.geb_leb c (headsup_min cfg)). reflexivity.
Qed.

Lemma clamp_range (x : Z) : 0 <= Z.max 0 (Z.min 100 x) <= 100.
Proof. lia. Qed.

(** Outside the low-data-quality branch the score is clamped. *)
Lemma calculate_confidence_clamped :
  forall (D : Type) (HD : Double D) (cfg : Config D) (s : SignalResult D),
    d_ltb (data_quality s) (min_dq_for_actionable cfg) = false ->
    0 <= calculate_confidence cfg s <= 100.
Proof.
  intros D HD cfg s Hdq. unfold calculate_confidence. rewrite Hdq.
  cbv zeta. apply clamp_range.
Qed.

Lemma Qtrunc_nonneg (q : Q) : (0 <= q)%Q -> 0 <= Qtrunc q.
Proof.
  intros Hq. unfold Qtrunc. apply Z.quot_pos; [| lia].
  unfold Qle in Hq. simpl in Hq. lia.
Qed.

(** In the exact instance the confidence of [calculate_confidence] is in
    range whenever the data quality is not negative. *)
Lemma calculate_confidence_range_exact :
  forall (cfg : Config Q) (s : SignalResult Q),
    (0 <= data_quality s)%Q ->
    0 <= calculate_confidence cfg s <= 100.
Proof.
  intros cfg s Hdq.
  destruct (d_ltb (data_quality s) (min_dq_for_actionable cfg)) eqn:E.
  - unfold calculate_confidence. rewrite E.
    assert (0 <= static_cast_int (data_quality s * d_lit 100 1)%D).
    { apply Qtrunc_nonneg. simpl. apply Qmult_le_0_compat; [exact Hdq|].
      unfold Qle; simpl; lia. }
    lia.
  - apply calculate_confidence_clamped; exact E.
Qed.

(** C2. The confidence after [apply_risk_adjustment] leaves [0, 100]: with
    the default configuration, all sub-signals 0 and risk-on the result is
    -10, and all sub-signals 1 and risk-off the result is 110 (binary64 and
    exact arithmetic agree).  Each branch clamps one side only. *)
Theorem risk_adjustment_leaves_range :
  let zero_f := uniform_signals (float_lit 0 1) (float_lit 1 1) in
  let one_f := uniform_signals (float_lit 1 1) (float_lit 1 1) in
  let zero_q := uniform_signals 0%Q 1%Q in
  let one_q := uniform_signals 1%Q 1%Q in
  calculate_confidence default_config zero_f = 0 /\
  apply_risk_adjustment (D:=float) default_config
    (calculate_confidence default_config zero_f) true = -10 /\
  calculate_confidence default_config one_f = 100 /\
  apply_risk_adjustment (D:=float) default_config
    (calculate_confidence default_config one_f) false = 110 /\
  apply_risk_adjustment (D:=Q) default_config
    (calculate_confidence default_config zero_q) true = -10 /\
  apply_risk_adjustment (D:=Q) default_config
    (calculate_confidence default_config one_q) false = 110.
Proof. vm_compute. repeat split; reflexivity. Qed.

(** What [apply_risk_adjustment] does guarantee: one bound per branch. *)
Lemma apply_risk_adjustment_one_sided :
  forall (D : Type) (cfg : Config D) (base : Z),
    apply_risk_adjustment cfg base true <= 100 /\
    0 <= apply_risk_adjustment cfg base false.
Proof. intros D cfg base. unfold apply_risk_adjustment. lia. Qed.

(** C9 as stated fails: with data quality 0.456 (below the default 0.7) the
    code returns 45, the truncation of 45.6, where [min(50, round(dq*100))]
    is 46; in binary64 and in exact arithmetic alike. *)
Lemma low_quality_confidence_not_rounded :
  let s_f := uniform_signals (float_lit 1 1) (float_lit 456 1000) in
  let s_q := uniform_signals 1%Q (456 # 1000)%Q in
  d_ltb (data_quality s_f) (min_dq_for_actionable default_config) = true /\
  calculate_confidence default_config s_f = 45 /\
  low_quality_confidence_spec (data_quality s_f) = 46 /\
  d_ltb (data_quality s_q) (min_dq_for_actionable default_config) = true /\
  calculate_confidence default_config s_q = 45 /\
  low_quality_confidence_spec (data_quality s_q) = 46.
Proof. vm_compute. repeat split; reflexivity. Qed.

(** C9, amended.  Below [min_dq_for_actionable] the result is
    [min(50, trunc(dq * 100))], the conversion to [int] truncating toward
    zero, and no sub-signal is read: two signal vectors with the same data
    quality get the same confidence. *)
Theorem low_quality_confidence_truncates :
  forall (D : Type) (HD : Double D) (cfg : Config D) (s : SignalResult D),
    d_ltb (data_quality s) (min_dq_for_actionable cfg) = true ->
    calculate_confidence cfg s =
      Z.min 50 (Qtrunc (d_val (d_mul (data_quality s) (d_lit 100 1)))) /\
    forall s' : SignalResult D,
      data_quality s' = data_quality s ->
      calculate_confidence cfg s' = calculate_confidence cfg s.
Proof.
  intros D HD cfg s Hdq. unfold calculate_confidence. rewrite Hdq.
  split; [reflexivity |].
  intros s' ->. rewrite Hdq. reflexivity.
Qed.

Lemma low_quality_confidence_truncates_witness :
  let s := uniform_signals (float_lit 1 1) (float_lit 29 100) in
  calculate_confidence (D:=float) default_config s = 28.
Proof.
  intros s.
  destruct (low_quality_confidence_truncates float _ default_config s) as [E _].
  - vm_compute. reflexivity.
  - rewrite E. vm_compute. reflexivity.
Defined.

(** ** Signals: S7 *)

Definition update_of_age {D} `{Double D} (age : D) : MarketUpdate D := {|
  pool_id := EmptyString; mint_base := "A"; symbol := "A";
  price := d_lit 1 1; liq_usd := d_lit 600000 1; vol24h_usd := d_lit 3000000 1;
  spread_pct := d_lit 5 10; impact_1pct_pct := d_lit 3 10; age_hours := age
|}.

Definition metadata_of {D} `{Double D} (pct : D) (risky : bool)
    : TokenMetadata D := {|
  mint := "A"; decimals := 9; on_token_list := true;
  top_holder_pct := pct; risky_authorities := risky
|}.

(** C10 as stated fails: nothing bounds [age_hours] below, and a negative
    age makes the age factor, and with it the result, negative.  With
    [age_hours = -720] and clean metadata the result is -0.7. *)
Lemma rug_risk_negative_for_negative_age :
  let r_f := calculate_s7_rug_risk (update_of_age (float_lit (-720) 1))
               (Some (metadata_of (float_lit 0 1) false)) in
  let r_q := calculate_s7_rug_risk (update_of_age (-720 # 1)%Q)
               (Some (metadata_of 0%Q false)) in
  d_leb (float_lit 0 1) r_f = false /\
  PrimFloat.eqb r_f (float_lit (-7) 10) = true /\
  ~ (0 <= r_q)%Q /\ (r_q == - (7 # 10))%Q.
Proof.
  cbv zeta. split; [vm_compute; reflexivity |].
  split; [vm_compute; reflexivity |].
  split.
  - intros H0. vm_compute in H0. apply H0. reflexivity.
  - vm_compute. reflexivity.
Qed.

Lemma Qltb_true (a b : Q) : Qltb a b = true <-> (a < b)%Q.
Proof.
  unfold Qltb. rewrite negb_true_iff.
  destruct (Qle_bool b a) eqn:E.
  - apply Qle_bool_iff in E. split; [discriminate | intros Hlt; exfalso; lra].
  - split; [intros _ | reflexivity].
    destruct (Qlt_le_dec a b) as [Hlt | Hle]; [exact Hlt |].
    apply Qle_bool_iff in Hle. congruence.
Qed.

Lemma Qltb_false (a b : Q) : Qltb a b = false <-> (b <= a)%Q.
Proof.
  unfold Qltb. rewrite negb_false_iff. apply Qle_bool_iff.
Qed.

Lemma Qscale_le (x c f : Q) :
  (x <= c)%Q -> (0 <= c)%Q -> (0 <= f)%Q -> (f <= 1)%Q -> (x * f <= c)%Q.
Proof. intros. nra. Qed.

Lemma Qscale_nonneg (x f : Q) : (0 <= x)%Q -> (0 <= f)%Q -> (0 <= x * f)%Q.
Proof. intros. nra. Qed.

Lemma age_factor_le_1 (u : MarketUpdate Q) : (age_factor u <= 1)%Q.
Proof.
  unfold age_factor, std_min. simpl.
  destruct (Qltb (age_hours u / (720 # 1)) (1 # 1)) eqn:E.
  - apply Qltb_true in E. lra.
  - lra.
Qed.

Lemma age_factor_nonneg (u : MarketUpdate Q) :
  (0 <= age_hours u)%Q -> (0 <= age_factor u)%Q.
Proof.
  intros Hage. unfold age_factor, std_min. simpl.
  destruct (Qltb (age_hours u / (720 # 1)) (1 # 1)) eqn:E.
  - unfold Qdiv. apply Qscale_nonneg; [exact Hage |].
    unfold Qle; simpl; lia.
  - lra.
Qed.

Lemma holder_factor_range (md : TokenMetadata Q) :
  (0 <= holder_factor md)%Q /\ (holder_factor md <= 1)%Q.
Proof.
  unfold holder_factor, std_max. simpl.
  destruct (Qltb (0 # 1) (top_holder_pct md)) eqn:E; [| lra].
  apply Qltb_true in E.
  assert (Hq : (0 <= top_holder_pct md / (100 # 1))%Q).
  { unfold Qdiv. apply Qscale_nonneg; [lra |]. unfold Qle; simpl; lia. }
  destruct (Qltb (0 # 1) ((1 # 1) - top_holder_pct md / (100 # 1))) eqn:E2.
  - apply Qltb_true in E2. lra.
  - lra.
Qed.

Lemma auth_factor_range (md : TokenMetadata Q) :
  (0 <= auth_factor md)%Q /\ (auth_factor md <= 1)%Q.
Proof.
  unfold auth_factor. simpl. destruct (risky_authorities md); lra.
Qed.

(** In exact arithmetic the product is at most 0.7 for every age, so the 0.9
    cap never binds. *)
Lemma rug_risk_is_product (u : MarketUpdate Q) (md : TokenMetadata Q) :
  calculate_s7_rug_risk u (Some md) =
    ((7 # 10) * age_factor u * holder_factor md * auth_factor md)%Q /\
  (calculate_s7_rug_risk u (Some md) <= 7 # 10)%Q.
Proof.
  pose proof (age_factor_le_1 u) as Ha.
  pose proof (holder_factor_range md) as [Hh0 Hh1].
  pose proof (auth_factor_range md) as [Hr0 Hr1].
  assert (Hle : ((7 # 10) * age_factor u * holder_factor md * auth_factor md
                 <= 7 # 10)%Q).
  { apply Qscale_le; try assumption; [| lra].
    apply Qscale_le; try assumption; lra. }
  assert (Heq : calculate_s7_rug_risk u (Some md) =
    ((7 # 10) * age_factor u * holder_factor md * auth_factor md)%Q).
  { unfold calculate_s7_rug_risk, std_min. simpl.
    destruct (Qltb _ (9 # 10)) eqn:E; [reflexivity |].
    apply Qltb_false in E. lra. }
  rewrite Heq. split; [reflexivity | exact Hle].
Qed.

(** The bounds in exact arithmetic: with an age that is not negative each
    factor is in [0, 1] and the result, the product itself, is in
    [0, 0.7]. *)
Lemma rug_risk_exact_range :
  forall (u : MarketUpdate Q) (md : TokenMetadata Q),
    (0 <= age_hours u)%Q ->
    (0 <= age_factor u <= 1)%Q /\
    (0 <= holder_factor md <= 1)%Q /\
    (0 <= auth_factor md <= 1)%Q /\
    (0 <= calculate_s7_rug_risk u (Some md) <= 7 # 10)%Q.
Proof.
  intros u md Hage.
  pose proof (age_factor_le_1 u) as Ha.
  pose proof (age_factor_nonneg u Hage) as Ha0.
  pose proof (holder_factor_range md) as [Hh0 Hh1].
  pose proof (auth_factor_range md) as [Hr0 Hr1].
  destruct (rug_risk_is_product u md) as [Heq Hle].
  repeat split; try assumption.
  rewrite Heq.
  apply Qscale_nonneg; [| assumption].
  apply Qscale_nonneg; [| assumption].
  apply Qscale_nonneg; [lra | assumption].
Qed.

(** *** Binary64: rounding and factors in [0, 1]

    The facts about IEEE-754 binary64 that the bounds of S7 rest on, from
    the specification of the primitive floats ([SpecFloat], [FloatAxioms]):
    the order of valid numbers is the order of their values; rounding to
    nearest never crosses a representable upper bound; the product of a
    number in [0, c] and a number in [0, 1] is in [0, c]; a quotient of
    numbers that are not negative is not negative; [1 - y] is at most 1 for
    [y] that is not negative. *)

Module Binary64.

(** Values are compared as integers: [m * 2^e] is scaled by [2^bias], which
    is an integer for every exponent of a binary64 number and of a product
    of two. *)
Definition bias : Z := 2200.

Definition scaled (m e : Z) : Z := m * 2 ^ (e + bias).

Lemma digits2_bounds (m : positive) :
  2 ^ (Zpos (digits2_pos m) - 1) <= Zpos m < 2 ^ Zpos (digits2_pos m).
Proof.
  induction m as [p IH | p IH |]; simpl digits2_pos.
  - rewrite Pos2Z.inj_succ, (Pos2Z.inj_xI p).
    replace (Z.succ (Zpos (digits2_pos p)) - 1) with (Z.succ (Zpos (digits2_pos p) - 1)) by lia.
    rewrite !Z.pow_succ_r by lia.
    set (a := 2 ^ (Z.pos (digits2_pos p) - 1)) in *.
    set (b := 2 ^ Z.pos (digits2_pos p)) in *. clearbody a b. lia.
  - rewrite Pos2Z.inj_succ, (Pos2Z.inj_xO p).
    replace (Z.succ (Zpos (digits2_pos p)) - 1) with (Z.succ (Zpos (digits2_pos p) - 1)) by lia.
    rewrite !Z.pow_succ_r by lia.
    set (a := 2 ^ (Z.pos (digits2_pos p) - 1)) in *.
    set (b := 2 ^ Z.pos (digits2_pos p)) in *. clearbody a b. lia.
  - simpl. lia.
Qed.

Lemma pow2_pos (n : Z) : 0 <= n -> 0 < 2 ^ n.
Proof. intros. apply Z.pow_pos_nonneg; lia. Qed.

(** What [valid_binary] says of a finite number. *)
Lemma canonical_facts (m : positive) (e : Z) :
  bounded prec emax m e = true ->
  Zpos (digits2_pos m) <= 53 /\ -1074 <= e <= 971 /\
  (-1074 < e -> Zpos (digits2_pos m) = 53) /\
  fexp prec emax (Zpos (digits2_pos m) + e) = e.
Proof.
  unfold bounded, canonical_mantissa, fexp, SpecFloat.emin, prec, emax.
  intros H. apply andb_true_iff in H as [H1 H2].
  apply Z.eqb_eq in H1. apply Z.leb_le in H2. lia.
Qed.

Lemma V_lt_exp (m1 m2 : positive) (e1 e2 : Z) :
  bounded prec emax m1 e1 = true -> bounded prec emax m2 e2 = true ->
  e1 < e2 -> scaled (Zpos m1) e1 < scaled (Zpos m2) e2.
Proof.
  intros B1 B2 Hlt.
  destruct (canonical_facts m1 e1 B1) as (Hd1 & He1 & _ & _).
  destruct (canonical_facts m2 e2 B2) as (Hd2 & He2 & Hn2 & _).
  assert (Hd : Zpos (digits2_pos m2) = 53) by (apply Hn2; lia).
  pose proof (digits2_bounds m1) as [_ Hm1].
  pose proof (digits2_bounds m2) as [Hm2 _]. rewrite Hd in Hm2.
  unfold scaled, bias.
  assert (Zpos m1 < 2 ^ 53).
  { eapply Z.lt_le_trans; [exact Hm1|]. apply Z.pow_le_mono_r; lia. }
  replace (e2 + 2200) with ((e1 + 2200) + (e2 - e1)) by lia.
  rewrite (Z.pow_add_r 2 (e1 + 2200) (e2 - e1)) by lia.
  assert (0 < 2 ^ (e1 + 2200)) by (apply pow2_pos; lia).
  assert (2 ^ 1 <= 2 ^ (e2 - e1)) by (apply Z.pow_le_mono_r; lia).
  change (2 ^ (53 - 1)) with 4503599627370496 in Hm2.
  change (2 ^ 53) with 9007199254740992 in H.
  change (2 ^ 1) with 2 in H1.
  set (A := 2 ^ (e1 + 2200)) in *. set (B := 2 ^ (e2 - e1)) in *.
  clearbody A B.
  assert (Z.pos m1 * A < 9007199254740992 * A)
    by (apply Z.mul_lt_mono_pos_r; lia).
  assert (4503599627370496 * (A * 2) <= Z.pos m2 * (A * B)).
  { apply Z.mul_le_mono_nonneg; try lia. apply Z.mul_le_mono_nonneg_l; lia. }
  lia.
Qed.

(** scaled value of a non-negative finite float *)
Definition val (x : spec_float) : Z :=
  match x with
  | S754_finite false m e => scaled (Zpos m) e
  | _ => 0
  end.

(** non-negative and finite: a zero of either sign or a positive finite *)
Definition nnf (x : spec_float) : bool :=
  match x with
  | S754_zero _ => true
  | S754_finite false _ _ => true
  | _ => false
  end.

Lemma V_pos (m : positive) (e : Z) : -bias <= e -> 0 < scaled (Zpos m) e.
Proof.
  intros He. unfold scaled. apply Z.mul_pos_pos; [lia |]. apply pow2_pos. lia.
Qed.

Lemma valid_exp (m : positive) (e : Z) :
  bounded prec emax m e = true -> -bias <= e.
Proof. intros B. destruct (canonical_facts m e B) as (_ & He & _). unfold bias. lia. Qed.

Lemma compare_pos_val (m1 m2 : positive) (e1 e2 : Z) :
  bounded prec emax m1 e1 = true -> bounded prec emax m2 e2 = true ->
  match Z.compare e1 e2 with
  | Lt => Lt
  | Gt => Gt
  | Eq => Pos.compare_cont Eq m1 m2
  end = (scaled (Zpos m1) e1 ?= scaled (Zpos m2) e2).
Proof.
  intros B1 B2. destruct (Z.compare_spec e1 e2) as [-> | Hlt | Hgt].
  - unfold scaled.
    assert (HA : 0 < 2 ^ (e2 + bias))
      by (apply pow2_pos; pose proof (valid_exp _ _ B2); lia).
    change (Pos.compare_cont Eq m1 m2) with (Z.pos m1 ?= Z.pos m2).
    destruct (Z.compare_spec (Z.pos m1) (Z.pos m2)) as [E | E | E]; symmetry.
    + rewrite E. apply Z.compare_refl.
    + apply Z.compare_lt_iff. apply Z.mul_lt_mono_pos_r; assumption.
    + apply Z.compare_gt_iff. apply Z.mul_lt_mono_pos_r; assumption.
  - symmetry. apply Z.compare_lt_iff. apply V_lt_exp; assumption.
  - symmetry. apply Z.compare_gt_iff. apply V_lt_exp; assumption.
Qed.

Lemma SFcompare_nnf (x y : spec_float) :
  valid_binary x = true -> valid_binary y = true ->
  nnf x = true -> nnf y = true ->
  SFcompare x y = Some (val x ?= val y).
Proof.
  intros Vx Vy Nx Ny.
  destruct x as [sx | sx | | sx mx ex]; try discriminate;
  destruct y as [sy | sy | | sy my ey]; try discriminate.
  - reflexivity.
  - destruct sy; [discriminate |].
    pose proof (V_pos my ey (valid_exp _ _ Vy)) as HV.
    unfold SFcompare, val. f_equal. symmetry. apply Z.compare_lt_iff. exact HV.
  - destruct sx; [discriminate |].
    pose proof (V_pos mx ex (valid_exp _ _ Vx)) as HV.
    unfold SFcompare, val. f_equal. symmetry. apply Z.compare_gt_iff. exact HV.
  - destruct sx; [discriminate |]. destruct sy; [discriminate |].
    unfold SFcompare, val. f_equal. apply compare_pos_val; assumption.
Qed.

Lemma SFleb_nnf (x y : spec_float) :
  valid_binary x = true -> valid_binary y = true ->
  nnf x = true -> nnf y = true ->
  SFleb x y = (val x <=? val y).
Proof.
  intros. unfold SFleb. rewrite SFcompare_nnf by assumption.
  unfold Z.leb. destruct (val x ?= val y); reflexivity.
Qed.

Lemma SFltb_nnf (x y : spec_float) :
  valid_binary x = true -> valid_binary y = true ->
  nnf x = true -> nnf y = true ->
  SFltb x y = (val x <? val y).
Proof.
  intros. unfold SFltb. rewrite SFcompare_nnf by assumption.
  unfold Z.ltb. destruct (val x ?= val y); reflexivity.
Qed.


(** ** Right shifts *)

Definition shr_inv (m0 k : Z) (st : shr_record) : Prop :=
  shr_m st = m0 / 2 ^ k /\
  (orb (shr_r st) (shr_s st) = false <-> m0 mod 2 ^ k = 0).

Lemma shr_1_inv (m0 k : Z) (st : shr_record) :
  0 <= m0 -> 0 <= k -> shr_inv m0 k st -> shr_inv m0 (k + 1) (shr_1 st).
Proof.
  intros Hm0 Hk [Hm Hrs].
  assert (Hp : 0 < 2 ^ k) by (apply pow2_pos; exact Hk).
  assert (Hdiv : m0 / 2 ^ (k + 1) = (m0 / 2 ^ k) / 2).
  { rewrite Z.pow_add_r by lia. change (2 ^ 1) with 2.
    rewrite Z.div_div by lia. reflexivity. }
  assert (Hmod : m0 mod 2 ^ (k + 1)
                 = m0 mod 2 ^ k + 2 ^ k * ((m0 / 2 ^ k) mod 2)).
  { rewrite Z.pow_add_r by lia. change (2 ^ 1) with 2.
    apply Z.rem_mul_r; lia. }
  pose proof (Z.mod_pos_bound m0 (2 ^ k) Hp) as Hb.
  destruct st as [m r s]. simpl in Hm, Hrs.
  unfold shr_inv. rewrite Hdiv, Hmod, <- Hm.
  destruct m as [| [p | p |] | p]; simpl shr_1; simpl shr_m; simpl shr_r;
    simpl shr_s.
  - split; [reflexivity |].
    change (0 mod 2) with 0. rewrite Z.mul_0_r, Z.add_0_r. exact Hrs.
  - split.
    + rewrite (Pos2Z.inj_xI p). symmetry.
      replace (2 * Z.pos p + 1) with (1 + Z.pos p * 2) by lia.
      rewrite Z.div_add by lia. reflexivity.
    + rewrite (Pos2Z.inj_xI p).
      replace (2 * Z.pos p + 1) with (1 + Z.pos p * 2) by lia.
      rewrite Z.mod_add by lia. change (1 mod 2) with 1.
      split; [intros H; discriminate H | intros H; exfalso; lia].
  - split.
    + rewrite (Pos2Z.inj_xO p). symmetry.
      replace (2 * Z.pos p) with (Z.pos p * 2) by lia.
      apply Z.div_mul. lia.
    + rewrite (Pos2Z.inj_xO p).
      replace (2 * Z.pos p) with (Z.pos p * 2) by lia.
      rewrite Z.mod_mul by lia. rewrite Z.mul_0_r, Z.add_0_r. exact Hrs.
  - split; [reflexivity |].
    change (1 mod 2) with 1.
    split; [intros H; discriminate H | intros H; exfalso; lia].
  - pose proof (Z.div_pos m0 (2 ^ k) Hm0 Hp). lia.
Qed.

Lemma iter_shr_inv (p : positive) :
  forall (m0 k : Z) (st : shr_record),
    0 <= m0 -> 0 <= k -> shr_inv m0 k st ->
    shr_inv m0 (k + Zpos p) (SpecFloat.iter_pos shr_1 p st).
Proof.
  induction p as [p IH | p IH |]; intros m0 k st Hm0 Hk Hinv; simpl.
  - replace (k + Z.pos p~1) with (k + 1 + Z.pos p + Z.pos p) by lia.
    apply IH; try lia. apply IH; try lia. apply shr_1_inv; assumption.
  - replace (k + Z.pos p~0) with (k + Z.pos p + Z.pos p) by lia.
    apply IH; try lia. apply IH; try lia. assumption.
  - apply shr_1_inv; assumption.
Qed.

(** [shr_fexp] on a non-negative mantissa with an exact location. *)
Lemma shr_fexp_spec (m e : Z) :
  0 <= m ->
  let n := fexp prec emax (Zdigits2 m + e) - e in
  let '(st, e') := shr_fexp prec emax m e loc_Exact in
  if 0 <? n
  then e' = e + n /\ shr_inv m n st
  else e' = e /\ st = Build_shr_record m false false.
Proof.
  intros Hm n. unfold shr_fexp, shr. fold n.
  simpl shr_record_of_loc.
  destruct n as [| p | p] eqn:En; simpl.
  - split; reflexivity.
  - split; [reflexivity |].
    apply (iter_shr_inv p m 0); try lia.
    split; simpl; [symmetry; apply Z.div_1_r | split; [intros _; apply Z.mod_1_r | reflexivity]].
  - split; reflexivity.
Qed.

(** ** Rounding does not cross a representable upper bound *)

Lemma fexp_mono (a b : Z) : a <= b -> fexp prec emax a <= fexp prec emax b.
Proof. unfold fexp, SpecFloat.emin, prec, emax. lia. Qed.

Lemma fexp_ge_emin (a : Z) : -1074 <= fexp prec emax a.
Proof. unfold fexp, SpecFloat.emin, prec, emax. lia. Qed.

Lemma mag_le (m mX : positive) (e eX : Z) :
  -bias <= e -> -bias <= eX ->
  scaled (Zpos m) e <= scaled (Zpos mX) eX ->
  Zpos (digits2_pos m) + e <= Zpos (digits2_pos mX) + eX.
Proof.
  intros He HeX Hle. unfold scaled in Hle.
  pose proof (digits2_bounds m) as [Hm _].
  pose proof (digits2_bounds mX) as [_ HmX].
  assert (H1 : 2 ^ (Zpos (digits2_pos m) - 1 + (e + bias)) <= Zpos m * 2 ^ (e + bias)).
  { rewrite (Z.pow_add_r 2 (Zpos (digits2_pos m) - 1) (e + bias)) by lia.
    apply Z.mul_le_mono_nonneg_r; [apply Z.pow_nonneg; lia | exact Hm]. }
  assert (H2 : Zpos mX * 2 ^ (eX + bias) < 2 ^ (Zpos (digits2_pos mX) + (eX + bias))).
  { rewrite (Z.pow_add_r 2 (Zpos (digits2_pos mX)) (eX + bias)) by lia.
    apply Z.mul_lt_mono_pos_r; [apply pow2_pos; lia | exact HmX]. }
  assert (H3 : 2 ^ (Zpos (digits2_pos m) - 1 + (e + bias))
               < 2 ^ (Zpos (digits2_pos mX) + (eX + bias))) by lia.
  apply Z.pow_lt_mono_r_iff in H3; lia.
Qed.

Lemma round_nearest_even_cases (m : Z) (st : shr_record) :
  shr_m st = m ->
  let m1 := round_nearest_even (shr_m st) (loc_of_shr_record st) in
  m1 = m \/ (m1 = m + 1 /\ orb (shr_r st) (shr_s st) = true).
Proof.
  intros <-. destruct st as [m r s]. simpl.
  destruct r, s; simpl; try (left; reflexivity); try (right; split; reflexivity).
  destruct (Z.even m); [left | right]; split; reflexivity.
Qed.

Lemma V_floor (m n e : Z) :
  0 <= m -> 0 < n -> 0 <= e + bias ->
  scaled (m / 2 ^ n) (e + n) <= scaled m e.
Proof.
  intros Hm Hn He. unfold scaled.
  replace (e + n + bias) with (n + (e + bias)) by lia.
  rewrite Z.pow_add_r by lia.
  assert (Hp : 0 < 2 ^ n) by (apply pow2_pos; lia).
  assert (Hq : 0 < 2 ^ (e + bias)) by (apply pow2_pos; lia).
  pose proof (Z.mul_div_le m (2 ^ n) Hp) as Hd.
  rewrite Z.mul_assoc. apply Z.mul_le_mono_nonneg_r; lia.
Qed.

Lemma V_round_up (m n e mX eX : Z) :
  0 <= m -> 0 < n -> 0 <= e + bias -> e + n <= eX ->
  m mod 2 ^ n <> 0 ->
  scaled m e <= scaled mX eX ->
  scaled (m / 2 ^ n + 1) (e + n) <= scaled mX eX.
Proof.
  intros Hm Hn He HeX Hrem Hle. unfold scaled in *.
  assert (HN : 0 < 2 ^ n) by (apply pow2_pos; lia).
  assert (HA : 0 < 2 ^ (e + bias)) by (apply pow2_pos; lia).
  assert (HB : 0 < 2 ^ (eX - (e + n))) by (apply pow2_pos; lia).
  pose proof (Z.div_mod m (2 ^ n) ltac:(lia)) as Hdm.
  pose proof (Z.mod_pos_bound m (2 ^ n) HN) as Hb.
  assert (EX : 2 ^ (eX + bias) = 2 ^ (eX - (e + n)) * (2 ^ n * 2 ^ (e + bias))).
  { rewrite <- !Z.pow_add_r by lia. f_equal. lia. }
  assert (E1 : 2 ^ (e + n + bias) = 2 ^ n * 2 ^ (e + bias)).
  { rewrite <- Z.pow_add_r by lia. f_equal. lia. }
  rewrite EX in *. rewrite E1.
  set (q := m / 2 ^ n) in *. set (rho := m mod 2 ^ n) in *.
  set (A := 2 ^ (e + bias)) in *. set (N := 2 ^ n) in *.
  set (B := 2 ^ (eX - (e + n))) in *. clearbody A N B q rho.
  assert (H1 : m <= mX * B * N).
  { apply (Z.mul_le_mono_pos_r _ _ A HA). lia. }
  assert (H2 : q * N < mX * B * N) by lia.
  assert (H3 : q < mX * B).
  { apply (Z.mul_lt_mono_pos_r N); assumption. }
  assert (H4 : (q + 1) * N <= mX * B * N).
  { apply Z.mul_le_mono_nonneg_r; lia. }
  assert (H5 : (q + 1) * N * A <= mX * B * N * A).
  { apply Z.mul_le_mono_nonneg_r; lia. }
  lia.
Qed.

(** The first shift and the rounding. *)
Lemma first_round_le (m mX : positive) (e eX : Z) :
  -bias <= e <= 971 ->
  bounded prec emax mX eX = true ->
  scaled (Zpos m) e <= scaled (Zpos mX) eX ->
  let '(st, e1) := shr_fexp prec emax (Zpos m) e loc_Exact in
  let m1 := round_nearest_even (shr_m st) (loc_of_shr_record st) in
  0 <= m1 /\ -1074 <= e1 <= 971 /\ scaled m1 e1 <= scaled (Zpos mX) eX.
Proof.
  intros He BX Hle.
  destruct (canonical_facts mX eX BX) as (HdX & HeX & _ & HfX).
  pose proof (shr_fexp_spec (Zpos m) e ltac:(lia)) as Hs. cbv zeta in Hs.
  destruct (shr_fexp prec emax (Z.pos m) e loc_Exact) as [st e1].
  simpl Zdigits2 in Hs.
  pose proof (mag_le m mX e eX ltac:(lia) ltac:(unfold bias; lia) Hle) as Hmag.
  pose proof (fexp_mono _ _ Hmag) as Hf. rewrite HfX in Hf.
  pose proof (fexp_ge_emin (Z.pos (digits2_pos m) + e)) as Hemin.
  destruct (0 <? fexp prec emax (Z.pos (digits2_pos m) + e) - e) eqn:En.
  - apply Z.ltb_lt in En. destruct Hs as [-> [Hm Hrs]].
    set (n := fexp prec emax (Z.pos (digits2_pos m) + e) - e) in *.
    assert (Hp : 0 < 2 ^ n) by (apply pow2_pos; lia).
    assert (Hm' : 0 <= Z.pos m / 2 ^ n) by (apply Z.div_pos; lia).
    destruct (round_nearest_even_cases _ st Hm) as [E | [E Hinexact]];
      cbv zeta in E; rewrite E.
    + split; [lia |]. split; [lia |].
      etransitivity; [| exact Hle]. apply V_floor; lia.
    + split; [lia |]. split; [lia |].
      (* rounded up: the bound is a multiple of the unit in the last place *)
      assert (Hrem : Z.pos m mod 2 ^ n <> 0).
      { intros H0. apply Hrs in H0. congruence. }
      apply V_round_up; try lia; exact Hle.
  - apply Z.ltb_ge in En. destruct Hs as [-> ->]. simpl.
    split; [lia |]. split; [lia | exact Hle].
Qed.

Lemma round_aux_le (m mX : positive) (e eX : Z) :
  -bias <= e <= 971 ->
  bounded prec emax mX eX = true ->
  scaled (Zpos m) e <= scaled (Zpos mX) eX ->
  nnf (binary_round_aux prec emax false (Zpos m) e loc_Exact) = true /\
  val (binary_round_aux prec emax false (Zpos m) e loc_Exact)
    <= scaled (Zpos mX) eX.
Proof.
  intros He BX Hle.
  destruct (canonical_facts mX eX BX) as (HdX & HeX & _ & HfX).
  assert (HVX : 0 < scaled (Zpos mX) eX) by (apply V_pos; unfold bias; lia).
  pose proof (first_round_le m mX e eX He BX Hle) as H1.
  unfold binary_round_aux.
  destruct (shr_fexp prec emax (Z.pos m) e loc_Exact) as [st e1].
  cbv zeta in H1.
  set (m1 := round_nearest_even (shr_m st) (loc_of_shr_record st)) in *.
  destruct H1 as (Hm1 & He1 & HV1).
  pose proof (shr_fexp_spec m1 e1 Hm1) as H2. cbv zeta in H2.
  destruct (shr_fexp prec emax m1 e1 loc_Exact) as [st2 e2].
  assert (Hres : 0 <= shr_m st2 /\ e2 <= 971 /\ -bias <= e2 /\
                 scaled (shr_m st2) e2 <= scaled (Zpos mX) eX).
  { destruct (0 <? fexp prec emax (Zdigits2 m1 + e1) - e1) eqn:En.
    - apply Z.ltb_lt in En. destruct H2 as [-> [Hm2 _]].
      set (n := fexp prec emax (Zdigits2 m1 + e1) - e1) in *.
      assert (Hp : 0 < 2 ^ n) by (apply pow2_pos; lia).
      rewrite Hm2.
      split; [apply Z.div_pos; lia |].
      split.
      + destruct m1 as [| p1 | p1]; [| | lia].
        * unfold n, fexp, SpecFloat.emin, prec, emax in En. simpl in En. lia.
        * pose proof (mag_le p1 mX e1 eX ltac:(unfold bias; lia)
                        ltac:(unfold bias; lia) HV1) as Hmag.
          pose proof (fexp_mono _ _ Hmag) as Hf. rewrite HfX in Hf.
          unfold n. simpl Zdigits2. lia.
      + split; [unfold bias in *; lia |].
        etransitivity; [| exact HV1]. apply V_floor; unfold bias; lia.
    - destruct H2 as [-> ->]. simpl. unfold bias in *.
      split; [lia |]. split; [lia |]. split; [lia | exact HV1]. }
  destruct Hres as (Hm2 & He2 & He2' & HV2).
  destruct (shr_m st2) as [| p2 | p2]; [| | lia].
  - split; [reflexivity |]. change (0 <= scaled (Z.pos mX) eX). lia.
  - unfold prec, emax. change (1024 - 53) with 971.
    destruct (Z.leb_spec e2 971) as [_ | Hgt]; [| lia].
    split; [reflexivity | exact HV2].
Qed.

(** ** Multiplication by a factor in [0, 1] *)

Definition SF_one : spec_float := S754_finite false 4503599627370496 (-52).

Lemma val_one : val SF_one = 2 ^ bias.
Proof. reflexivity. Qed.

Lemma valid_nnf_exp (x : spec_float) (m : positive) (e : Z) :
  valid_binary x = true -> x = S754_finite false m e -> -1074 <= e <= 971.
Proof.
  intros Vx ->. simpl in Vx. destruct (canonical_facts m e Vx) as (_ & He & _).
  exact He.
Qed.

Lemma SFmul_le (x y c : spec_float) :
  valid_binary x = true -> valid_binary y = true -> valid_binary c = true ->
  nnf x = true -> nnf y = true -> nnf c = true ->
  val x <= val c -> val y <= val SF_one ->
  nnf (SF64mul x y) = true /\ val (SF64mul x y) <= val c.
Proof.
  intros Vx Vy Vc Nx Ny Nc Hx Hy.
  assert (Hc0 : 0 <= val c).
  { destruct c as [| | | [] mc ec]; simpl; try lia.
    apply Z.lt_le_incl, V_pos, (valid_exp _ _ Vc). }
  destruct x as [sx | sx | | sx mx ex]; try discriminate;
  destruct y as [sy | sy | | sy my ey]; try discriminate;
    try (split; [reflexivity | exact Hc0]).
  destruct sx; [discriminate |]. destruct sy; [discriminate |].
  { unfold SF64mul, SFmul. simpl xorb.
    pose proof (valid_nnf_exp _ mx ex Vx eq_refl) as Hex.
    pose proof (valid_nnf_exp _ my ey Vy eq_refl) as Hey.
    rewrite val_one in Hy.
    change (scaled (Z.pos my) ey <= 2 ^ bias) in Hy.
    assert (HVx : 0 < scaled (Zpos mx) ex) by (apply V_pos; unfold bias; lia).
    (* the bound is positive, hence a positive finite number *)
    destruct c as [sc | | | sc mc ec]; try discriminate;
      [change (scaled (Z.pos mx) ex <= 0) in Hx; lia |].
    destruct sc; [discriminate |].
    change (scaled (Z.pos mx) ex <= scaled (Z.pos mc) ec) in Hx.
    change (val (S754_finite false mc ec)) with (scaled (Z.pos mc) ec).
    (* y <= 1 keeps the exponent of y at or below 0 *)
    assert (Hey0 : ey <= 0).
    { unfold scaled in Hy.
      destruct (Z.le_gt_cases ey 0) as [Hle | Hgt]; [exact Hle | exfalso].
      assert (2 ^ bias < 2 ^ (ey + bias)) by (apply Z.pow_lt_mono_r; unfold bias; lia).
      assert (0 < 2 ^ (ey + bias)) by (apply pow2_pos; unfold bias; lia).
      nia. }
    change (Z.pos (mx * my)) with (Z.pos mx * Z.pos my).
    assert (Hprod : scaled (Z.pos mx * Z.pos my) (ex + ey) <= scaled (Zpos mc) ec).
    { unfold scaled in *.
      assert (E : 2 ^ (ex + ey + bias) * 2 ^ bias = 2 ^ (ex + bias) * 2 ^ (ey + bias)).
      { rewrite <- !Z.pow_add_r by (unfold bias; lia). f_equal. lia. }
      assert (HK : 0 < 2 ^ bias) by (apply pow2_pos; unfold bias; lia).
      assert (H1 : 0 < 2 ^ (ex + bias)) by (apply pow2_pos; unfold bias; lia).
      assert (H2 : 0 < 2 ^ (ey + bias)) by (apply pow2_pos; unfold bias; lia).
      assert (H3 : 0 < 2 ^ (ex + ey + bias)) by (apply pow2_pos; unfold bias; lia).
      apply (Z.mul_le_mono_pos_r _ _ (2 ^ bias) HK).
      set (A := 2 ^ (ex + bias)) in *. set (B := 2 ^ (ey + bias)) in *.
      set (C := 2 ^ (ex + ey + bias)) in *. set (T := 2 ^ bias) in *.
      set (VC := Z.pos mc * 2 ^ (ec + bias)) in *.
      clearbody A B C T VC.
      assert (Eq : Z.pos mx * Z.pos my * C * T
                   = (Z.pos mx * A) * (Z.pos my * B)).
      { replace (Z.pos mx * Z.pos my * C * T)
          with (Z.pos mx * Z.pos my * (C * T)) by ring.
        rewrite E. ring. }
      rewrite Eq. apply Z.mul_le_mono_nonneg; lia. }
    apply (round_aux_le (mx * my) mc (ex + ey) ec);
      [unfold bias; lia | exact Vc | exact Hprod]. }
Qed.

(** ** Signs *)

(** zero, positive finite, positive infinity *)
Definition nonneg (x : spec_float) : bool :=
  match x with
  | S754_zero _ | S754_finite false _ _ | S754_infinity false => true
  | _ => false
  end.

(** not negative: [nonneg] or NaN *)
Definition nonneg_or_nan (x : spec_float) : bool :=
  match x with
  | S754_nan => true
  | _ => nonneg x
  end.

(** not positive: what [0 < x] excludes *)
Definition nonpos_or_nan (x : spec_float) : bool :=
  match x with
  | S754_zero _ | S754_finite true _ _ | S754_infinity true | S754_nan => true
  | _ => false
  end.

Lemma binary_round_aux_sign_false (m e : Z) (l : location) :
  nonneg_or_nan (binary_round_aux prec emax false m e l) = true.
Proof.
  unfold binary_round_aux.
  destruct (shr_fexp prec emax m e l) as [st e1].
  destruct (shr_fexp prec emax _ e1 loc_Exact) as [st2 e2].
  destruct (shr_m st2); [reflexivity | | reflexivity].
  destruct (e2 <=? emax - prec); reflexivity.
Qed.

Lemma binary_round_aux_sign_true (m e : Z) (l : location) :
  nonpos_or_nan (binary_round_aux prec emax true m e l) = true.
Proof.
  unfold binary_round_aux.
  destruct (shr_fexp prec emax m e l) as [st e1].
  destruct (shr_fexp prec emax _ e1 loc_Exact) as [st2 e2].
  destruct (shr_m st2); [reflexivity | | reflexivity].
  destruct (e2 <=? emax - prec); reflexivity.
Qed.

Lemma SFleb_zero_nonneg (x : spec_float) :
  SFleb (S754_zero false) x = true -> nonneg x = true.
Proof.
  destruct x as [s | [] | | [] m e]; compute; intros H;
    (discriminate H || reflexivity).
Qed.

Lemma SFltb_zero_pos (x : spec_float) :
  SFltb (S754_zero false) x = true ->
  nonneg x = true /\ nonpos_or_nan x = false.
Proof.
  destruct x as [s | [] | | [] m e]; compute; intros H;
    (discriminate H || (split; reflexivity)).
Qed.

Lemma SFdiv_sign (x : spec_float) (my : positive) (ey : Z) :
  nonneg x = true ->
  nonneg_or_nan (SF64div x (S754_finite false my ey)) = true.
Proof.
  intros Nx. destruct x as [sx | sx | | sx mx ex]; try discriminate.
  - reflexivity.
  - destruct sx; [discriminate | reflexivity].
  - destruct sx; [discriminate |].
    unfold SF64div, SFdiv.
    destruct (SFdiv_core_binary prec emax (Z.pos mx) ex (Z.pos my) ey)
      as [[mz ez] lz].
    apply binary_round_aux_sign_false.
Qed.

(** below 1 and not negative: a factor in [0, 1] *)
Lemma SFltb_one_factor (q : spec_float) :
  valid_binary q = true -> nonneg_or_nan q = true ->
  SFltb q SF_one = true ->
  nnf q = true /\ val q <= val SF_one.
Proof.
  intros Vq Nq Hlt.
  destruct q as [s | [] | | [] m e]; try discriminate.
  - split; [reflexivity |]. rewrite val_one. change (0 <= 2 ^ bias).
    apply Z.lt_le_incl, pow2_pos. unfold bias; lia.
  - split; [reflexivity |].
    rewrite SFltb_nnf in Hlt by (try assumption; reflexivity).
    apply Z.ltb_lt in Hlt. lia.
Qed.

(** ** Subtraction from 1 *)

Lemma shl_align_spec (m : positive) (e ex' : Z) :
  let '(m', e') := shl_align m e ex' in
  e' <= e /\ Zpos m' = Zpos m * 2 ^ (e - e') /\ e' = Z.min e ex'.
Proof.
  unfold shl_align. destruct (ex' - e) as [| d | d] eqn:Ed.
  - rewrite Z.sub_diag. simpl. lia.
  - rewrite Z.sub_diag. simpl. lia.
  - replace (e - ex') with (Zpos d) by lia.
    split; [lia |]. split; [| lia].
    change (Pos.iter xO m d) with (shift_pos d m).
    rewrite shift_pos_correct. change (Z.pow_pos 2 d) with (2 ^ Z.pos d). lia.
Qed.

Lemma V_shl (m m' : positive) (e e' : Z) :
  -bias <= e' -> e' <= e -> Zpos m' = Zpos m * 2 ^ (e - e') ->
  scaled (Zpos m') e' = scaled (Zpos m) e.
Proof.
  intros He' Hle E. unfold scaled. rewrite E.
  replace (e + bias) with ((e - e') + (e' + bias)) by lia.
  rewrite (Z.pow_add_r 2 (e - e') (e' + bias)) by lia. ring.
Qed.

Lemma SFsub_one_le (y : spec_float) :
  valid_binary y = true -> nonneg_or_nan y = true ->
  SFltb (S754_zero false) (SF64sub SF_one y) = true ->
  nnf (SF64sub SF_one y) = true /\ val (SF64sub SF_one y) <= val SF_one.
Proof.
  intros Vy Ny Hpos.
  destruct y as [s | [] | | [] my ey]; try discriminate.
  - (* y = 0 *) split; [reflexivity | apply Z.le_refl].
  - (* y finite and positive *)
    destruct (canonical_facts my ey Vy) as (_ & Hey & _).
    unfold SF64sub, SFsub, SF_one in *. simpl cond_Zopp in *.
    set (ez := Z.min (-52) ey) in *.
    pose proof (shl_align_spec 4503599627370496 (-52) ez) as H1.
    pose proof (shl_align_spec my ey ez) as H2.
    destruct (shl_align 4503599627370496 (-52) ez) as [m1 e1].
    destruct (shl_align my ey ez) as [m2 e2].
    destruct H1 as (H1a & H1b & H1c). destruct H2 as (H2a & H2b & H2c).
    simpl fst in *.
    assert (E1 : e1 = ez) by (unfold ez in *; lia).
    assert (E2 : e2 = ez) by (unfold ez in *; lia).
    clear H1c H2c. rewrite E1 in H1a, H1b. rewrite E2 in H2a, H2b.
    clear E1 E2 e1 e2.
    assert (Hez : -1074 <= ez <= -52) by (unfold ez; lia).
    pose proof (V_shl _ m1 (-52) ez ltac:(unfold bias; lia) ltac:(lia) H1b) as HV1.
    pose proof (V_shl _ m2 ey ez ltac:(unfold bias; lia) ltac:(lia) H2b) as HV2.
    assert (HVy : 0 < scaled (Zpos my) ey) by (apply V_pos; unfold bias; lia).
    change (val (S754_finite false 4503599627370496 (-52)))
      with (scaled 4503599627370496 (-52)).
    unfold binary_normalize in *.
    destruct (Z.pos m1 - Z.pos m2) as [| d | d] eqn:Ed.
    + discriminate Hpos.
    + (* a positive difference, rounded *)
      unfold binary_round in *.
      pose proof (shl_align_spec d ez
                    (fexp prec emax (Z.pos (digits2_pos d) + ez))) as H3.
      pose proof (fexp_ge_emin (Z.pos (digits2_pos d) + ez)) as Hf.
      destruct (shl_align d ez _) as [mz ez'].
      destruct H3 as (H3a & H3b & H3c).
      assert (Hez' : -1074 <= ez' <= -52) by lia.
      clear H3c.
      pose proof (V_shl _ mz ez ez' ltac:(unfold bias; lia) ltac:(lia) H3b) as HV3.
      apply round_aux_le; [unfold bias; lia | reflexivity |].
      rewrite HV3.
      assert (Hd : scaled (Z.pos d) ez = scaled (Z.pos m1) ez - scaled (Z.pos m2) ez).
      { unfold scaled. rewrite <- Ed. ring. }
      rewrite Hd, HV1, HV2. lia.
    + (* a negative difference is excluded by 0 < x *)
      unfold binary_round in Hpos.
      destruct (shl_align d ez _) as [mz ez'].
      pose proof (binary_round_aux_sign_true (Z.pos mz) ez' loc_Exact) as Hs.
      destruct (binary_round_aux prec emax true (Z.pos mz) ez' loc_Exact)
        as [s | [] | | [] m e]; try discriminate Hs; discriminate Hpos.
Qed.

End Binary64.

Import Binary64.

(** a binary64 number in [0, 1] *)
Definition unit_factor (f : float) : Prop :=
  nnf (Prim2SF f) = true /\ val (Prim2SF f) <= val SF_one.

Lemma lit_0 : Prim2SF (float_lit 0 1) = S754_zero false.
Proof. vm_compute. reflexivity. Qed.
Lemma lit_1 : Prim2SF (float_lit 1 1) = SF_one.
Proof. vm_compute. reflexivity. Qed.
Lemma lit_720 : Prim2SF (float_lit 720 1) = S754_finite false 6333186975989760 (-43).
Proof. vm_compute. reflexivity. Qed.
Lemma lit_100 : Prim2SF (float_lit 100 1) = S754_finite false 7036874417766400 (-46).
Proof. vm_compute. reflexivity. Qed.

Lemma unit_factor_age (u : MarketUpdate float) :
  d_leb (float_lit 0 1) (age_hours u) = true -> unit_factor (age_factor u).
Proof.
  intros Hage. simpl in Hage. rewrite FloatAxioms.leb_spec, lit_0 in Hage.
  apply SFleb_zero_nonneg in Hage.
  unfold age_factor, std_min. simpl d_ltb. simpl d_div. simpl d_lit.
  destruct (PrimFloat.ltb _ (float_lit 1 1)) eqn:E.
  - rewrite FloatAxioms.ltb_spec, lit_1 in E.
    apply SFltb_one_factor; [apply Prim2SF_valid | | exact E].
    rewrite FloatAxioms.div_spec, lit_720. apply SFdiv_sign. exact Hage.
  - unfold unit_factor. rewrite lit_1. split; [reflexivity | apply Z.le_refl].
Qed.

Lemma unit_factor_0 : unit_factor (float_lit 0 1).
Proof.
  unfold unit_factor. rewrite lit_0. split; [reflexivity |].
  apply Z.leb_le. vm_compute. reflexivity.
Qed.

Lemma unit_factor_1 : unit_factor (float_lit 1 1).
Proof.
  unfold unit_factor. rewrite lit_1. split; [reflexivity | apply Z.le_refl].
Qed.

Lemma unit_factor_holder (md : TokenMetadata float) :
  unit_factor (holder_factor md).
Proof.
  unfold holder_factor, std_max. simpl d_ltb. simpl d_sub. simpl d_div.
  simpl d_lit.
  destruct (PrimFloat.ltb (float_lit 0 1) (top_holder_pct md)) eqn:Epct;
    [| apply unit_factor_1].
  rewrite FloatAxioms.ltb_spec, lit_0 in Epct.
  apply SFltb_zero_pos in Epct as [Hpct _].
  destruct (PrimFloat.ltb (float_lit 0 1) _) eqn:Ex; [| apply unit_factor_0].
  rewrite FloatAxioms.ltb_spec, lit_0, FloatAxioms.sub_spec, lit_1 in Ex.
  unfold unit_factor. rewrite FloatAxioms.sub_spec, lit_1.
  apply SFsub_one_le; [apply Prim2SF_valid | | exact Ex].
  rewrite FloatAxioms.div_spec, lit_100. apply SFdiv_sign. exact Hpct.
Qed.

Lemma unit_factor_auth (md : TokenMetadata float) :
  unit_factor (auth_factor md).
Proof.
  unfold auth_factor. simpl d_lit.
  destruct (risky_authorities md); [| apply unit_factor_1].
  split; [vm_compute; reflexivity |].
  apply Z.leb_le. vm_compute. reflexivity.
Qed.

(** Multiplying a number in [0, c] by a factor in [0, 1] stays in [0, c]. *)
Lemma mul_unit_factor (a f c : float) :
  nnf (Prim2SF a) = true -> nnf (Prim2SF c) = true ->
  val (Prim2SF a) <= val (Prim2SF c) -> unit_factor f ->
  nnf (Prim2SF (a * f)) = true /\
  val (Prim2SF (a * f)) <= val (Prim2SF c).
Proof.
  intros Na Nc Hle [Nf Hf]. rewrite FloatAxioms.mul_spec.
  apply SFmul_le; try apply Prim2SF_valid; assumption.
Qed.

Lemma val_nonneg (x : spec_float) :
  valid_binary x = true -> 0 <= val x.
Proof.
  intros Vx. destruct x as [| | | [] m e]; simpl; try lia.
  apply Z.lt_le_incl, V_pos, (valid_exp _ _ Vx).
Qed.


(** The two comparisons that [0 <= x <= c] stands for. *)
Lemma unit_factor_le (x c : float) :
  nnf (Prim2SF c) = true ->
  nnf (Prim2SF x) = true /\ val (Prim2SF x) <= val (Prim2SF c) ->
  PrimFloat.leb (float_lit 0 1) x = true /\ PrimFloat.leb x c = true.
Proof.
  intros Nc [Nx Hx].
  assert (N0 : nnf (Prim2SF (float_lit 0 1)) = true)
    by (vm_compute; reflexivity).
  rewrite !FloatAxioms.leb_spec.
  rewrite (SFleb_nnf _ _ (Prim2SF_valid _) (Prim2SF_valid _) N0 Nx).
  rewrite (SFleb_nnf _ _ (Prim2SF_valid _) (Prim2SF_valid _) Nx Nc).
  rewrite lit_0. split; apply Z.leb_le; [| exact Hx].
  apply val_nonneg, Prim2SF_valid.
Qed.

Lemma unit_factor_range (f : float) :
  unit_factor f -> in_unit_interval f.
Proof.
  intros Hf. unfold in_unit_interval. simpl d_leb. simpl d_lit.
  apply unit_factor_le; [vm_compute; reflexivity |].
  rewrite lit_1. exact Hf.
Qed.

(** *** The confidence before the risk adjustment, in binary64 *)

Lemma SFmul_sign (x : spec_float) (my : positive) (ey : Z) :
  nonneg x = true ->
  nonneg_or_nan (SF64mul x (S754_finite false my ey)) = true.
Proof.
  intros Nx. destruct x as [sx | sx | | sx mx ex]; try discriminate.
  - reflexivity.
  - destruct sx; [discriminate | reflexivity].
  - destruct sx; [discriminate |].
    unfold SF64mul, SFmul. apply binary_round_aux_sign_false.
Qed.

Lemma SF2Q_nonneg (x : spec_float) :
  nonneg_or_nan x = true -> (0 <= SF2Q x)%Q.
Proof.
  intros Nx. destruct x as [s | s | | [] m e]; try discriminate;
    unfold SF2Q; try apply Qle_refl.
  apply Qmult_le_0_compat.
  - unfold Qle. simpl. lia.
  - apply Qpower_0_le. unfold Qle. simpl. lia.
Qed.

(** The defect of C2 is in [apply_risk_adjustment] alone: for a data
    quality that is not negative, [calculate_confidence] is in [0, 100] in
    binary64, whatever the sub-signals (with the value that
    [static_cast_int] gives each conversion). *)
Lemma calculate_confidence_range_binary64 :
  forall (cfg : Config float) (s : SignalResult float),
    d_leb (float_lit 0 1) (data_quality s) = true ->
    0 <= calculate_confidence cfg s <= 100.
Proof.
  intros cfg s Hdq.
  destruct (d_ltb (data_quality s) (min_dq_for_actionable cfg)) eqn:E.
  - unfold calculate_confidence. rewrite E.
    assert (0 <= static_cast_int (data_quality s * d_lit 100 1)%D).
    { apply Qtrunc_nonneg. simpl d_val. simpl d_mul. simpl d_lit.
      apply SF2Q_nonneg. rewrite FloatAxioms.mul_spec, lit_100.
      apply SFmul_sign. apply SFleb_zero_nonneg.
      simpl in Hdq. rewrite FloatAxioms.leb_spec, lit_0 in Hdq. exact Hdq. }
    lia.
  - apply calculate_confidence_clamped; exact E.
Qed.

(** C10, amended.  Without metadata the result is exactly 0.5.  With
    metadata and an age that is not negative, each of the three factors is
    in [0, 1], the result is the product [0.7 * age_factor * holder_factor *
    auth_factor] itself (the 0.9 cap does not bind), and it lies in
    [0, 0.7].  Proved for binary64, NaN and the infinities included. *)
Theorem rug_risk_bounds :
  forall (u : MarketUpdate float),
    calculate_s7_rug_risk u None = float_lit 5 10 /\
    forall md : TokenMetadata float,
      d_leb (float_lit 0 1) (age_hours u) = true ->
      in_unit_interval (age_factor u) /\
      in_unit_interval (holder_factor md) /\
      in_unit_interval (auth_factor md) /\
      calculate_s7_rug_risk u (Some md) =
        (d_lit 7 10 * age_factor u * holder_factor md * auth_factor md)%D /\
      d_leb (float_lit 0 1) (calculate_s7_rug_risk u (Some md)) = true /\
      d_leb (calculate_s7_rug_risk u (Some md)) (float_lit 7 10) = true.
Proof.
  intros u. split; [reflexivity |].
  intros md Hage.
  pose proof (unit_factor_age u Hage) as Ha.
  pose proof (unit_factor_holder md) as Hh.
  pose proof (unit_factor_auth md) as Hr.
  split; [apply unit_factor_range; exact Ha |].
  split; [apply unit_factor_range; exact Hh |].
  split; [apply unit_factor_range; exact Hr |].
  set (c := float_lit 7 10).
  assert (Nc : nnf (Prim2SF c) = true) by (vm_compute; reflexivity).
  destruct (mul_unit_factor c (age_factor u) c Nc Nc (Z.le_refl _) Ha)
    as [N1 H1].
  destruct (mul_unit_factor _ (holder_factor md) c N1 Nc H1 Hh) as [N2 H2].
  destruct (mul_unit_factor _ (auth_factor md) c N2 Nc H2 Hr) as [N3 H3].
  set (p := (c * age_factor u * holder_factor md * auth_factor md)%float) in *.
  assert (Hlt : PrimFloat.ltb p (float_lit 9 10) = true).
  { assert (N9 : nnf (Prim2SF (float_lit 9 10)) = true)
      by (vm_compute; reflexivity).
    rewrite FloatAxioms.ltb_spec.
    rewrite (SFltb_nnf _ _ (Prim2SF_valid _) (Prim2SF_valid _) N3 N9).
    apply Z.ltb_lt. eapply Z.le_lt_trans; [exact H3 |].
    apply Z.ltb_lt. vm_compute. reflexivity. }
  assert (Er : calculate_s7_rug_risk u (Some md) = p).
  { unfold calculate_s7_rug_risk, std_min. simpl d_ltb. simpl d_mul.
    simpl d_lit. fold c. fold p. rewrite Hlt. reflexivity. }
  rewrite Er. split; [reflexivity |].
  simpl d_leb. apply (unit_factor_le p c Nc). split; assumption.
Qed.

Lemma rug_risk_bounds_witness :
  let r := calculate_s7_rug_risk (update_of_age (float_lit 360 1))
             (Some (metadata_of (float_lit 30 1) true)) in
  d_leb (float_lit 0 1) r = true /\ d_leb r (float_lit 7 10) = true.
Proof.
  cbv zeta.
  destruct (rug_risk_bounds (update_of_age (float_lit 360 1))) as [_ Hmd].
  apply (Hmd (metadata_of (float_lit 30 1) true)).
  vm_compute. reflexivity.
Defined.

(** ** Ingestor tick *)

Lemma market_update_pool_ids {D : Type} (l : list (Ingestor.PoolInfo D)) :
  forall (f : nat -> string) (g : nat -> Z),
    List.map Ingestor.mu_pool_id
      (imap (fun i pool => Ingestor.create_market_update (f i) (g i) pool) l)
    = List.map Ingestor.pool_id l.
Proof.
  induction l as [| p l IH]; intros f g; [reflexivity |].
  simpl. f_equal. apply (IH (fun i => f (S i)) (fun i => g (S i))).
Qed.


(** [calculate_additional_metrics] leaves TVL and volume as they are. *)
Lemma calculate_additional_metrics_keeps_thresholded {D : Type} `{Double D}
    (p : Ingestor.PoolInfo D) :
  Ingestor.tvl_usd (Ingestor.calculate_additional_metrics p)
    = Ingestor.tvl_usd p /\
  Ingestor.volume_24h_usd (Ingestor.calculate_additional_metrics p)
    = Ingestor.volume_24h_usd p.
Proof. split; reflexivity. Qed.

(** The pools that [DexClient::fetch_pools] returns have already passed
    its own filter, a conjunction: in exact arithmetic each of them has TVL
    and volume both at or above the thresholds, so each passes the filter of
    [tick]. *)
Lemma fetch_pools_conjunctive :
  forall (cfg : Ingestor.Config Q) (raydium orca : list (Ingestor.PoolInfo Q))
         (p : Ingestor.PoolInfo Q),
    In p (Ingestor.fetch_pools cfg raydium orca) ->
    (Ingestor.min_tvl_threshold cfg <= Ingestor.tvl_usd p)%Q /\
    (Ingestor.min_volume_threshold cfg <= Ingestor.volume_24h_usd p)%Q /\
    Ingestor.meets_threshold cfg p = true.
Proof.
  intros cfg raydium orca p Hin.
  unfold Ingestor.fetch_pools in Hin.
  apply in_map_iff in Hin as (q & <- & Hq).
  apply filter_In in Hq as [_ Hq].
  unfold Ingestor.below_thresholds in Hq.
  apply negb_true_iff, orb_false_iff in Hq as [Ht Hv].
  simpl in Ht, Hv. apply Qltb_false in Ht, Hv.
  unfold Ingestor.meets_threshold. simpl.
  repeat split; try assumption.
  apply orb_true_iff. left. apply Qle_bool_iff. exact Ht.
Qed.

(** ** ThrottleManager *)

Section ThrottleFacts.
Variable cfg : Throttles.Config.

Lemma duration_cast_minutes_mono (a b : Z) :
  a <= b -> Throttles.duration_cast_minutes a <= Throttles.duration_cast_minutes b.
Proof.
  intros Hab. unfold Throttles.duration_cast_minutes.
  apply Z.quot_le_mono; [reflexivity | exact Hab].
Qed.

Lemma cooldown_le_max (b : string) :
  Throttles.cooldown_minutes cfg b <= Throttles.max_cooldown cfg.
Proof.
  unfold Throttles.cooldown_minutes, Throttles.max_cooldown.
  repeat match goal with |- context [String.eqb ?x ?y] =>
    destruct (String.eqb x y) end; lia.
Qed.

(** A record still inside some band's cooldown at a later instant survives
    every pruning up to that instant. *)
Lemma cleanup_keeps (r : Throttles.AlertRecord) (b : string) (t now : Z)
    (h : list Throttles.AlertRecord) :
  t <= now ->
  Throttles.duration_cast_minutes (now - Throttles.timestamp r)
    < Throttles.cooldown_minutes cfg b ->
  r ∈ h -> r ∈ Throttles.cleanup cfg t h.
Proof.
  intros Ht Hfresh Hin. unfold Throttles.cleanup.
  apply list_elem_of_filter. split; [| exact Hin].
  pose proof (cooldown_le_max b).
  pose proof (duration_cast_minutes_mono (t - Throttles.timestamp r)
                (now - Throttles.timestamp r)).
  lia.
Qed.

Lemma run_call_keeps (r : Throttles.AlertRecord) (b : string) (now : Z)
    (c : Throttles.Call) (h : list Throttles.AlertRecord) :
  Throttles.call_clock c <= now ->
  Throttles.duration_cast_minutes (now - Throttles.timestamp r)
    < Throttles.cooldown_minutes cfg b ->
  r ∈ h -> r ∈ Throttles.run_call cfg h c.
Proof.
  intros Hc Hfresh Hin. destruct c as [t tc m' b' | t]; simpl in *.
  - unfold Throttles.record_alert.
    apply (cleanup_keeps r b tc now); [assumption .. |].
    apply elem_of_app. left. exact Hin.
  - apply (cleanup_keeps r b t now); assumption.
Qed.

Lemma run_calls_keep (r : Throttles.AlertRecord) (b : string) (now : Z)
    (cs : list Throttles.Call) :
  forall h : list Throttles.AlertRecord,
    Forall (fun c => Throttles.call_clock c <= now) cs ->
    Throttles.duration_cast_minutes (now - Throttles.timestamp r)
      < Throttles.cooldown_minutes cfg b ->
    r ∈ h -> r ∈ Throttles.run_calls cfg cs h.
Proof.
  induction cs as [| c cs IH]; intros h Hcs Hfresh Hin; [exact Hin |].
  inversion Hcs as [| ? ? Hc Hrest]; subst.
  unfold Throttles.run_calls. simpl. apply IH; [assumption .. |].
  apply (run_call_keeps r b now); assumption.
Qed.

(** The first loop of [should_throttle] fires on any record of the mint
    that is younger than the band's cooldown. *)
Lemma mint_in_cooldown_fires (now : Z) (m b : string)
    (h : list Throttles.AlertRecord) (r : Throttles.AlertRecord) :
  r ∈ h ->
  Throttles.mint r = m ->
  Throttles.duration_cast_minutes (now - Throttles.timestamp r)
    < Throttles.cooldown_minutes cfg b ->
  Throttles.mint_in_cooldown cfg now m b h = true.
Proof.
  intros Hin Hm Hfresh.
  induction h as [| x h IH]; [inversion Hin |].
  apply elem_of_cons in Hin. simpl.
  destruct (String.eqb (Throttles.mint x) m) eqn:Ex.
  - destruct (Throttles.duration_cast_minutes (now - Throttles.timestamp x)
              <? Throttles.cooldown_minutes cfg b) eqn:El; [reflexivity |].
    destruct Hin as [-> | Hin]; [| exact (IH Hin)].
    apply Z.ltb_ge in El. lia.
  - destruct Hin as [-> | Hin]; [| exact (IH Hin)].
    apply String.eqb_neq in Ex. contradiction.
Qed.

(** C4. After [record_alert(m, b)], with a positive cooldown configured for
    [b], [should_throttle(m, b)] is true at every later instant at which
    fewer minutes than that cooldown have elapsed since the record,
    whatever calls of [record_alert] and [cleanup] happened in between
    (the clock does not run backwards). *)
Theorem should_throttle_during_cooldown :
  forall (m b : string) (history : list Throttles.AlertRecord)
         (t_record t_cleanup : Z) (later : list Throttles.Call) (now : Z),
    0 < Throttles.cooldown_minutes cfg b ->
    t_cleanup <= now ->
    Forall (fun c => Throttles.call_clock c <= now) later ->
    Throttles.duration_cast_minutes (now - t_record)
      < Throttles.cooldown_minutes cfg b ->
    Throttles.should_throttle cfg now m b
      (Throttles.run_calls cfg later
         (Throttles.record_alert cfg t_record t_cleanup m b history)) = true.
Proof.
  intros m b history t_record t_cleanup later now _ Hclean Hlater Hfresh.
  set (r := {| Throttles.mint := m; Throttles.band := b;
               Throttles.timestamp := t_record |}).
  assert (Hin : r ∈ Throttles.run_calls cfg later
                  (Throttles.record_alert cfg t_record t_cleanup m b history)).
  { apply (run_calls_keep r b now); [assumption .. |].
    unfold Throttles.record_alert.
    apply (cleanup_keeps r b t_cleanup now); [assumption .. |].
    apply elem_of_app. right. apply list_elem_of_singleton. reflexivity. }
  unfold Throttles.should_throttle.
  rewrite (mint_in_cooldown_fires now m b _ r Hin eq_refl Hfresh).
  reflexivity.
Qed.

End ThrottleFacts.

Definition throttle_config_example : Throttles.Config := {|
  Throttles.cooldown_high_conviction_min := 720;
  Throttles.cooldown_actionable_min := 360;
  Throttles.cooldown_headsup_min := 60;
  Throttles.cooldown_watch_min := 0;
  Throttles.rate_limit_window_min := 60;
  Throttles.max_alerts_per_window := 10;
  Throttles.max_high_conviction_per_window := 5;
  Throttles.max_actionable_per_window := 5;
  Throttles.max_headsup_per_window := 5;
  Throttles.max_watch_per_window := 5
|}.

Lemma should_throttle_during_cooldown_witness :
  Throttles.should_throttle throttle_config_example
    (359 * Throttles.ticks_per_minute) "A" "actionable"
    (Throttles.run_calls throttle_config_example
       [Throttles.CallRecordAlert (100 * Throttles.ticks_per_minute)
          (100 * Throttles.ticks_per_minute) "B" "heads_up";
        Throttles.CallCleanup (300 * Throttles.ticks_per_minute)]
       (Throttles.record_alert throttle_config_example 0 5 "A" "actionable" []))
  = true.
Proof.
  apply (should_throttle_during_cooldown throttle_config_example).
  - vm_compute. reflexivity.
  - vm_compute. discriminate.
  - repeat constructor; vm_compute; discriminate.
  - vm_compute. reflexivity.
Defined.

(** ** Notifier policy *)

Section NotifierFacts.
Variable cfg : Notifier.Config.
Variable std_hash : string -> Z.
Variable format_alert_message : Notifier.InboundAlert -> string.

Abbreviation handle :=
  (Notifier.handle_inbound_alert cfg std_hash format_alert_message).
Abbreviation key_of := (Notifier.dedupe_key std_hash).

(** The Redis commands of all three gates throw. *)
Definition gates_down (io : Notifier.Io) : Prop :=
  Notifier.exists_ok io = false /\ Notifier.get_ok io = false /\
  Notifier.set_ok io = false.

Lemma is_muted_when_down (io : Notifier.Io) (now : Z) (db_ : Redis.Store) :
  Notifier.exists_ok io = false -> Notifier.is_muted io now db_ = false.
Proof. intros E. unfold Notifier.is_muted, Redis.EXISTS. rewrite E. reflexivity. Qed.

Lemma is_globally_throttled_when_down (io : Notifier.Io) (now : Z)
    (db_ : Redis.Store) (sev : string) :
  Notifier.get_ok io = false ->
  Notifier.is_globally_throttled cfg io now db_ sev = String.eqb sev "actionable".
Proof.
  intros E. unfold Notifier.is_globally_throttled, Redis.GET. rewrite E.
  destruct (String.eqb sev "actionable"); reflexivity.
Qed.

Lemma is_duplicate_when_down (io : Notifier.Io) (now : Z) (db_ : Redis.Store)
    (a : Notifier.InboundAlert) :
  Notifier.set_ok io = false ->
  Notifier.is_duplicate cfg std_hash io now db_ a = (true, db_).
Proof.
  intros E. unfold Notifier.is_duplicate, Redis.SET_NX. rewrite E. reflexivity.
Qed.

(** With the Redis commands of the gates failing, nothing is published and
    the recorded outcome is THROTTLED for an actionable alert and DUPLICATE
    for any other: the throttle and dedup gates fail closed.  The mute gate
    is not what stops the alert: [is_muted] answers false. *)
Lemma gates_down_never_sent (io : Notifier.Io) (now : Z)
    (a : Notifier.InboundAlert) (st : Notifier.State) :
  gates_down io ->
  Notifier.outbound (handle io now a st) = Notifier.outbound st /\
  Notifier.db (handle io now a st) = Notifier.db st /\
  Notifier.last_outcome (handle io now a st) =
    Some (if String.eqb (Notifier.severity a) "actionable"
          then "THROTTLED" else "DUPLICATE") /\
  Notifier.last_outcome (handle io now a st) <> Some "SENT".
Proof.
  intros (He & Hg & Hs). unfold Notifier.handle_inbound_alert.
  rewrite (is_muted_when_down io now _ He).
  rewrite (is_globally_throttled_when_down io now _ _ Hg).
  rewrite (is_duplicate_when_down io now _ a Hs).
  unfold Notifier.last_outcome.
  destruct (String.eqb (Notifier.severity a) "actionable"); simpl;
    rewrite last_snoc; simpl; repeat split; try reflexivity; discriminate.
Qed.

(** The dedup gate answers "duplicate" on a live fingerprint, whether or
    not the SET reaches the server. *)
Lemma is_duplicate_on_live (io : Notifier.Io) (now : Z) (db_ : Redis.Store)
    (a : Notifier.InboundAlert) (e : Redis.Entry) :
  db_ !! key_of a = Some e -> Redis.live now e = true ->
  Notifier.is_duplicate cfg std_hash io now db_ a = (true, db_).
Proof.
  intros Hk Hlive. unfold Notifier.is_duplicate, Redis.SET_NX.
  destruct (Notifier.set_ok io); [| reflexivity].
  unfold Redis.read. rewrite Hk, Hlive. reflexivity.
Qed.

(** The dedup gate itself does what the spec says of it: once it has let
    an alert through (its SET stored the fingerprint), it answers
    "duplicate" for every alert with the same mint and reason lines until
    the period has passed. *)
Lemma is_duplicate_again (io1 io2 : Notifier.Io) (t1 t2 : Z)
    (db_ : Redis.Store) (a1 a2 : Notifier.InboundAlert) :
  Notifier.mint a1 = Notifier.mint a2 ->
  Notifier.lines a1 = Notifier.lines a2 ->
  t1 <= t2 < t1 + Notifier.dedupe_period_sec cfg * Redis.ticks_per_second ->
  (Notifier.is_duplicate cfg std_hash io1 t1 db_ a1).1 = false ->
  let db1 := (Notifier.is_duplicate cfg std_hash io1 t1 db_ a1).2 in
  Notifier.is_duplicate cfg std_hash io2 t2 db1 a2 = (true, db1).
Proof.
  intros Hmint Hlines Ht Hfirst db1.
  assert (Hk : key_of a2 = key_of a1).
  { unfold Notifier.dedupe_key. rewrite Hmint, Hlines. reflexivity. }
  set (e := {| Redis.value := "1";
               Redis.expires_at :=
                 if 0 <? Notifier.dedupe_period_sec cfg
                 then Some (t1 + Notifier.dedupe_period_sec cfg
                                 * Redis.ticks_per_second)
                 else None |}).
  assert (Hlive : Redis.live t2 e = true).
  { unfold Redis.live, e. simpl.
    destruct (0 <? Notifier.dedupe_period_sec cfg); [| reflexivity].
    apply Z.ltb_lt. lia. }
  apply (is_duplicate_on_live io2 t2 db1 a2 e); [| exact Hlive].
  rewrite Hk. unfold db1. revert Hfirst.
  unfold Notifier.is_duplicate, Redis.SET_NX.
  destruct (Notifier.set_ok io1); [| discriminate].
  destruct (Redis.read t1 db_ (key_of a1)); [discriminate |].
  intros _. simpl. apply lookup_insert_eq.
Qed.

(** [AuditLogger::log_event] never returns: it takes [conn_mutex_] and
    calls [check_health], which takes it again.  No row is written. *)
Lemma audit_logger_log_event_blocks (l : Notifier.AuditLogger.t)
    (e : Notifier.AuditEvent) :
  (Notifier.AuditLogger.log_event l e).1 = Notifier.Blocks /\
  Notifier.AuditLogger.rows (Notifier.AuditLogger.log_event l e).2
  = Notifier.AuditLogger.rows l.
Proof.
  unfold Notifier.AuditLogger.log_event, Notifier.AuditLogger.lock_guard.
  destruct (Notifier.AuditLogger.conn_mutex_ l); split; reflexivity.
Qed.

Lemma log_event_blocks (st : Notifier.State) (e : Notifier.AuditEvent) :
  Notifier.blocked (Notifier.log_event st e) = true /\
  Notifier.AuditLogger.rows (Notifier.audit_logger_ (Notifier.log_event st e))
  = Notifier.AuditLogger.rows (Notifier.audit_logger_ st).
Proof.
  destruct (audit_logger_log_event_blocks (Notifier.audit_logger_ st) e)
    as [Hb Hr].
  unfold Notifier.log_event. cbn [Notifier.blocked Notifier.audit_logger_].
  rewrite Hb. split; [reflexivity | exact Hr].
Qed.

(** Every path of the handler ends in [log_event]: the call of the handler
    does not return either, and the audit table stays as it was. *)
Lemma handle_blocks (io : Notifier.Io) (now : Z) (a : Notifier.InboundAlert)
    (st : Notifier.State) :
  Notifier.blocked (handle io now a st) = true /\
  Notifier.AuditLogger.rows (Notifier.audit_logger_ (handle io now a st))
  = Notifier.AuditLogger.rows (Notifier.audit_logger_ st).
Proof.
  assert (Hlog : forall (db_ : Redis.Store) (out : list Notifier.OutboundAlert)
                        (e : Notifier.AuditEvent),
             let st1 := Notifier.log_event
                          (Notifier.with_db_outbound st db_ out) e in
             Notifier.blocked st1 = true /\
             Notifier.AuditLogger.rows (Notifier.audit_logger_ st1)
             = Notifier.AuditLogger.rows (Notifier.audit_logger_ st)).
  { intros db_ out e. exact (log_event_blocks _ e). }
  unfold Notifier.handle_inbound_alert.
  destruct (Notifier.is_muted io now (Notifier.db st));
    [apply log_event_blocks |].
  destruct (Notifier.is_globally_throttled cfg io now _ _);
    [apply log_event_blocks |].
  destruct (Notifier.is_duplicate cfg std_hash io now (Notifier.db st) a)
    as [dup db1].
  destruct dup; [apply Hlog |].
  destruct (Notifier.publish_outbound_alert io _ _) as [published out1].
  destruct published; apply Hlog.
Qed.

Lemma handle_audit (io : Notifier.Io) (now : Z) (a : Notifier.InboundAlert)
    (st : Notifier.State) :
  exists e : Notifier.AuditEvent,
    Notifier.audit (handle io now a st) = Notifier.audit st ++ [e] /\
    Notifier.raw_alert e = a.
Proof.
  unfold Notifier.handle_inbound_alert.
  destruct (Notifier.is_muted io now (Notifier.db st));
    [eexists; split; reflexivity |].
  destruct (Notifier.is_globally_throttled cfg io now _ _);
    [eexists; split; reflexivity |].
  destruct (Notifier.is_duplicate cfg std_hash io now (Notifier.db st) a)
    as [dup db1].
  destruct dup; [eexists; split; reflexivity |].
  destruct (Notifier.publish_outbound_alert io _ _) as [published out1].
  destruct published; eexists; split; reflexivity.
Qed.

(** C5: the second alert is never handled.  The service thread handles the
    first alert of the queue, up to and including its publish, and then
    stays inside [AuditLogger::log_event]: whatever alerts follow, the state
    is the one the first alert left; one event, that of the first alert, has
    been handed to the logger; no row has reached the audit table; no event
    for the second alert exists, DUPLICATE or other. *)
Theorem second_alert_never_handled :
  forall (io1 io2 : Notifier.Io) (t1 t2 : Z) (a1 a2 : Notifier.InboundAlert)
         (later : list (Notifier.Io * Z * Notifier.InboundAlert))
         (st : Notifier.State),
    Notifier.blocked st = false ->
    let st1 := handle io1 t1 a1 st in
    let st' :=
      Notifier.service_loop cfg std_hash format_alert_message
        ((io1, t1, a1) :: (io2, t2, a2) :: later) st in
    st' = st1 /\
    Notifier.blocked st' = true /\
    (exists e : Notifier.AuditEvent,
       Notifier.audit st' = Notifier.audit st ++ [e] /\
       Notifier.raw_alert e = a1) /\
    Notifier.AuditLogger.rows (Notifier.audit_logger_ st')
    = Notifier.AuditLogger.rows (Notifier.audit_logger_ st).
Proof.
  intros io1 io2 t1 t2 a1 a2 later st Hrun st1 st'.
  destruct (handle_blocks io1 t1 a1 st) as [Hb Hrows].
  assert (E : st' = st1).
  { unfold st'. cbn [Notifier.service_loop]. rewrite Hrun. fold st1.
    unfold st1. rewrite Hb. reflexivity. }
  rewrite E. unfold st1.
  split; [reflexivity |]. split; [exact Hb |].
  split; [apply handle_audit | exact Hrows].
Qed.

End NotifierFacts.

Definition notifier_config_example : Notifier.Config := {|
  Notifier.dedupe_period_sec := 21600;
  Notifier.global_throttle_limit := 5;
  Notifier.global_throttle_period_sec := 3600;
  Notifier.telegram_chat_id := 1001
|}.

Definition hash_example (s : string) : Z := Z.of_nat (String.length s).

Definition format_example (a : Notifier.InboundAlert) : string :=
  Notifier.symbol a.

Definition alert_example (sev : string) : Notifier.InboundAlert := {|
  Notifier.mint := "MintA"; Notifier.severity := sev;
  Notifier.symbol := "AAA"; Notifier.confidence := 72;
  Notifier.lines := ["liq 600k"; "vol 3M"]; Notifier.plan := "plan";
  Notifier.sol_path := "SOL>AAA"
|}.

Definition io_all (b : bool) : Notifier.Io := {|
  Notifier.exists_ok := b; Notifier.get_ok := b; Notifier.set_ok := b;
  Notifier.incr_ok := b; Notifier.expire_ok := b; Notifier.publish_ok := b
|}.

(** The audit logger after its constructor has connected. *)
Definition logger_connected : Notifier.AuditLogger.t := {|
  Notifier.AuditLogger.conn_mutex_ := false;
  Notifier.AuditLogger.conn_open := true;
  Notifier.AuditLogger.pg_up := true;
  Notifier.AuditLogger.rows := []
|}.

Definition notifier_empty : Notifier.State := {|
  Notifier.db := ∅; Notifier.outbound := []; Notifier.audit := [];
  Notifier.audit_logger_ := logger_connected; Notifier.blocked := false
|}.

(** A notifier muted for 30 minutes at time 0. *)
Definition notifier_muted : Notifier.State := {|
  Notifier.db := Notifier.set_mute true 0 ∅ 30;
  Notifier.outbound := []; Notifier.audit := [];
  Notifier.audit_logger_ := logger_connected; Notifier.blocked := false
|}.

(** C3: the mute gate fails open.  On a muted notifier, ten seconds into
    the mute, [is_muted] is true when Redis answers and false when the call
    throws; with every Redis command throwing the alert passes the mute
    gate and is stopped by the dedup gate (outcome DUPLICATE, not MUTED);
    with only EXISTS throwing the alert is sent. *)
Theorem mute_gate_fails_open :
  let now := 10 * Redis.ticks_per_second in
  let a := alert_example "heads_up" in
  let only_exists_down := {|
    Notifier.exists_ok := false; Notifier.get_ok := true;
    Notifier.set_ok := true; Notifier.incr_ok := true;
    Notifier.expire_ok := true; Notifier.publish_ok := true |} in
  Notifier.is_muted (io_all true) now (Notifier.db notifier_muted) = true /\
  Notifier.is_muted (io_all false) now (Notifier.db notifier_muted) = false /\
  Notifier.last_outcome
    (Notifier.handle_inbound_alert notifier_config_example hash_example
       format_example (io_all false) now a notifier_muted) = Some "DUPLICATE" /\
  Notifier.last_outcome
    (Notifier.handle_inbound_alert notifier_config_example hash_example
       format_example only_exists_down now a notifier_muted) = Some "SENT".
Proof. vm_compute. repeat split; reflexivity. Qed.

Lemma second_alert_never_handled_witness :
  let a := alert_example "heads_up" in
  let st' :=
    Notifier.service_loop notifier_config_example hash_example format_example
      [(io_all true, 0, a); (io_all true, 60 * Redis.ticks_per_second, a)]
      notifier_empty in
  Notifier.outbound st'
    = [{| Notifier.chat_id := 1001; Notifier.message := "AAA" |}] /\
  List.map Notifier.outcome (Notifier.audit st') = ["SENT"] /\
  Notifier.blocked st' = true /\
  Notifier.AuditLogger.rows (Notifier.audit_logger_ st') = [].
Proof.
  cbv zeta.
  destruct (second_alert_never_handled notifier_config_example hash_example
              format_example (io_all true) (io_all true) 0
              (60 * Redis.ticks_per_second) (alert_example "heads_up")
              (alert_example "heads_up") [] notifier_empty eq_refl)
    as (E & Hb & _ & Hrows).
  split; [rewrite E; vm_compute; reflexivity |].
  split; [rewrite E; vm_compute; reflexivity |].
  split; [exact Hb | exact Hrows].
Defined.

(** ** Gateway: guest PINs *)

Section GuestPinFacts.
Variable cfg : Gateway.Config.

(** A login with a PIN that Redis returns installs a session that lasts
    [guest_default_minutes], whatever time the PIN has left. *)
Lemma guest_login_session (env : Gateway.Env) (pin : string)
    (user_id chat owner_id : Z) (st : Gateway.State) :
  Gateway.get_guest_pin_user env (Gateway.db st) pin = Some owner_id ->
  Gateway.guest_sessions_
    (Gateway.handle_guest_login cfg env pin user_id chat st) !! user_id =
  Some {| Gateway.tg_user_id := user_id; Gateway.role := Gateway.GUEST;
          Gateway.expires_at :=
            Gateway.now env
            + Gateway.guest_default_minutes cfg * Gateway.ticks_per_minute |}.
Proof.
  intros Hpin. unfold Gateway.handle_guest_login. rewrite Hpin.
  unfold Gateway.audit_guest_login, Gateway.publish_audit_event.
  destruct (Gateway.audit_ok env); simpl;
    unfold Gateway.set_guest_session; apply lookup_insert_eq.
Qed.

(** The login deletes the PIN when the DEL reaches Redis. *)
Lemma guest_login_deletes_pin (env : Gateway.Env) (pin : string)
    (user_id chat owner_id : Z) (st : Gateway.State) :
  Gateway.get_guest_pin_user env (Gateway.db st) pin = Some owner_id ->
  Gateway.del_ok env = true ->
  Gateway.db (Gateway.handle_guest_login cfg env pin user_id chat st)
    !! Gateway.guest_pin_key pin = None.
Proof.
  intros Hpin Hdel. unfold Gateway.handle_guest_login. rewrite Hpin.
  unfold Gateway.audit_guest_login, Gateway.publish_audit_event.
  destruct (Gateway.audit_ok env); simpl;
    unfold Gateway.delete_guest_pin, Redis.DEL; rewrite Hdel; simpl;
    apply lookup_delete_eq.
Qed.

(** A [/start <pin>] for a PIN that is not stored is answered with the
    rejection and changes no session. *)
Lemma start_with_unknown_pin (env : Gateway.Env) (pin : string)
    (user_id chat : Z) (st : Gateway.State) :
  Gateway.db st !! Gateway.guest_pin_key pin = None ->
  let st' := Gateway.handle_command cfg env
               {| Gateway.command := "start"; Gateway.args := [pin] |}
               user_id chat st in
  Gateway.sent st' = Gateway.sent st ++ [(chat, "Invalid or expired PIN")] /\
  Gateway.guest_sessions_ st' = Gateway.guest_sessions_ st.
Proof.
  intros Hnone. cbv zeta. unfold Gateway.handle_command. simpl.
  unfold Gateway.handle_guest_login, Gateway.get_guest_pin_user, Redis.GET.
  destruct (Gateway.get_ok env); [| split; reflexivity].
  unfold Redis.read. rewrite Hnone. simpl. split; reflexivity.
Qed.

End GuestPinFacts.

Definition gateway_config_example : Gateway.Config := {|
  Gateway.owner_telegram_id := 1;
  Gateway.guest_default_minutes := 30
|}.

Definition gateway_empty : Gateway.State := {|
  Gateway.guest_sessions_ := ∅; Gateway.pending_commands_ := ∅;
  Gateway.db := ∅; Gateway.sent := []; Gateway.requests := [];
  Gateway.audits := []
|}.

Definition env_at (t : Z) (uuid_ pin_ : string) : Gateway.Env := {|
  Gateway.now := t; Gateway.get_ok := true; Gateway.del_ok := true;
  Gateway.setex_ok := true; Gateway.publish_ok := true;
  Gateway.audit_ok := true; Gateway.uuid := uuid_; Gateway.pin_drawn := pin_
|}.

(** C6: the guest session does not last the PIN's residual TTL.  The owner
    (user 1) issues [/guest 5] at time 0: PIN 123456 is stored for 300 s.
    User 42 sends [/start 123456] at 100 s, when the PIN has 200 s left:
    the session installed expires 1800 s later ([guest_default_minutes] =
    30).  The PIN is deleted, and a second [/start 123456], by user 43, is
    answered "Invalid or expired PIN" and installs nothing. *)
Theorem guest_session_ignores_pin_ttl :
  let sec := Redis.ticks_per_second in
  let st0 := Gateway.handle_command gateway_config_example
               (env_at 0 "u0" "123456")
               {| Gateway.command := "guest"; Gateway.args := ["5"] |}
               1 1 gateway_empty in
  let t1 := 100 * sec in
  let st1 := Gateway.handle_command gateway_config_example
               (env_at t1 "u1" "000000")
               {| Gateway.command := "start"; Gateway.args := ["123456"] |}
               42 42 st0 in
  let st2 := Gateway.handle_command gateway_config_example
               (env_at (110 * sec) "u2" "000000")
               {| Gateway.command := "start"; Gateway.args := ["123456"] |}
               43 43 st1 in
  (Redis.expires_at <$> Redis.read t1 (Gateway.db st0)
                          (Gateway.guest_pin_key "123456"))
    = Some (Some (t1 + 200 * sec)) /\
  (Gateway.expires_at <$> Gateway.guest_sessions_ st1 !! 42)
    = Some (t1 + 1800 * sec) /\
  Gateway.db st1 !! Gateway.guest_pin_key "123456" = None /\
  last (Gateway.sent st2) = Some (43, "Invalid or expired PIN") /\
  Gateway.guest_sessions_ st2 !! 43 = None.
Proof. vm_compute. repeat split; reflexivity. Qed.

(** ** Gateway: pending commands *)

Section PendingFacts.
Variable cfg : Gateway.Config.

(** The events that reach the gateway state. *)
Inductive Step : Type :=
| StepCommand (env : Gateway.Env) (c : Gateway.ParsedCommand)
    (user_id chat : Z)
| StepReply (reply : Gateway.CommandReply)
| StepTick (now : Z).

Definition step (st : Gateway.State) (s : Step) : Gateway.State :=
  match s with
  | StepCommand env c user_id chat =>
      Gateway.handle_command cfg env c user_id chat st
  | StepReply reply => Gateway.handle_command_reply reply st
  | StepTick now => Gateway.cleanup_tick now st
  end.

Definition run (steps : list Step) (st : Gateway.State) : Gateway.State :=
  fold_left step steps st.

(** The steps that end the entry under [corr]: its reply, a sweep once it
    is older than five minutes, and a command that draws the same id. *)
Definition ends (corr : string) (info : Gateway.PendingCommandInfo)
    (s : Step) : Prop :=
  match s with
  | StepCommand env _ _ _ => Gateway.uuid env = corr
  | StepReply reply => Gateway.corr_id reply = corr
  | StepTick now =>
      now - Gateway.timestamp info > 5 * Gateway.ticks_per_minute
  end.

Lemma pending_publish_audit (env : Gateway.Env) (st : Gateway.State)
    (e : Gateway.AuditEvent) :
  Gateway.pending_commands_ (Gateway.publish_audit_event env st e)
  = Gateway.pending_commands_ st.
Proof.
  unfold Gateway.publish_audit_event. destruct (Gateway.audit_ok env); reflexivity.
Qed.

Lemma pending_publish_request (env : Gateway.Env) (st : Gateway.State)
    (r : Gateway.CommandRequest) :
  Gateway.pending_commands_ (Gateway.publish_command_request env st r)
  = Gateway.pending_commands_ st.
Proof.
  unfold Gateway.publish_command_request.
  destruct (Gateway.publish_ok env); reflexivity.
Qed.

Lemma pending_guest_login (env : Gateway.Env) (pin : string)
    (user_id chat : Z) (st : Gateway.State) :
  Gateway.pending_commands_
    (Gateway.handle_guest_login cfg env pin user_id chat st)
  = Gateway.pending_commands_ st.
Proof.
  unfold Gateway.handle_guest_login.
  destruct (Gateway.get_guest_pin_user env (Gateway.db st) pin); [| reflexivity].
  unfold Gateway.audit_guest_login. rewrite pending_publish_audit. reflexivity.
Qed.

Lemma pending_local_command (env : Gateway.Env) (c : Gateway.ParsedCommand)
    (user_id chat : Z) (r : Gateway.Role) (st : Gateway.State) :
  Gateway.pending_commands_
    (Gateway.handle_local_command cfg env c user_id chat r st).2
  = Gateway.pending_commands_ st.
Proof.
  unfold Gateway.handle_local_command.
  destruct (String.eqb (Gateway.command c) "start"); [reflexivity |].
  destruct (String.eqb (Gateway.command c) "help"); [reflexivity |].
  destruct (String.eqb (Gateway.command c) "guest" && bool_decide (r = Gateway.OWNER));
    [| reflexivity].
  destruct (Gateway.store_guest_pin env (Gateway.db st) (Gateway.pin_drawn env)
              user_id _) as [stored db'].
  destruct stored; reflexivity.
Qed.

(** What [forward_command] does to the pending map. *)
Lemma pending_forward (env : Gateway.Env) (c : Gateway.ParsedCommand)
    (user_id chat : Z) (r : Gateway.Role) (st : Gateway.State) :
  Gateway.pending_commands_ (Gateway.forward_command env c user_id chat r st)
  = match Gateway.build_args c with
    | Some _ =>
        <[Gateway.uuid env :=
            {| Gateway.chat_id := chat; Gateway.timestamp := Gateway.now env |}]>
          (Gateway.pending_commands_ st)
    | None => Gateway.pending_commands_ st
    end.
Proof.
  unfold Gateway.forward_command.
  destruct (Gateway.build_args c); [| reflexivity].
  rewrite pending_publish_request. reflexivity.
Qed.

Lemma step_keeps_pending (corr : string) (info : Gateway.PendingCommandInfo)
    (s : Step) (st : Gateway.State) :
  ~ ends corr info s ->
  Gateway.pending_commands_ st !! corr = Some info ->
  Gateway.pending_commands_ (step st s) !! corr = Some info.
Proof.
  intros Hends Hin. destruct s as [env c user_id chat | reply | now]; simpl in *.
  - unfold Gateway.handle_command.
    destruct (String.eqb (Gateway.command c) "start" && _).
    { rewrite pending_guest_login. exact Hin. }
    destruct (bool_decide (_ = Gateway.UNKNOWN)).
    { unfold Gateway.audit_auth_denied. rewrite pending_publish_audit. exact Hin. }
    destruct (negb (Gateway.is_command_allowed _ _)).
    { unfold Gateway.audit_auth_denied. rewrite pending_publish_audit. exact Hin. }
    pose proof (pending_local_command env c user_id chat
                  (Gateway.get_user_role cfg (Gateway.now env)
                     (Gateway.guest_sessions_ st) user_id) st) as Hl.
    destruct (Gateway.handle_local_command cfg env c user_id chat _ st)
      as [handled st1]. simpl in Hl.
    destruct handled; [rewrite Hl; exact Hin |].
    unfold Gateway.audit_command_used.
    rewrite pending_publish_audit, pending_forward, Hl.
    destruct (Gateway.build_args c); [| exact Hin].
    rewrite lookup_insert_ne by exact Hends. exact Hin.
  - unfold Gateway.handle_command_reply.
    destruct (Gateway.pending_commands_ st !! Gateway.corr_id reply) as [i |];
      [| exact Hin].
    destruct (negb (Gateway.chat_id i =? 0)); simpl;
      rewrite lookup_delete_ne by exact Hends; exact Hin.
  - unfold Gateway.sweep_pending.
    apply map_lookup_filter_Some. split; [exact Hin | exact Hends].
Qed.

Lemma run_keeps_pending (corr : string) (info : Gateway.PendingCommandInfo)
    (steps : list Step) :
  forall st : Gateway.State,
    Forall (fun s => ~ ends corr info s) steps ->
    Gateway.pending_commands_ st !! corr = Some info ->
    Gateway.pending_commands_ (run steps st) !! corr = Some info.
Proof.
  induction steps as [| s steps IH]; intros st Hsteps Hin; [exact Hin |].
  inversion Hsteps as [| ? ? Hs Hrest]; subst.
  unfold run. simpl. apply IH; [exact Hrest |].
  apply step_keeps_pending; assumption.
Qed.

(** C8, amended.  A command that [forward_command] forwards has, from then
    on, the entry [(chat, now)] under its correlation id in the pending map
    (and its request is on the request stream when the publish succeeds).
    The entry stays through every step other than its reply, a sweep once
    it is older than five minutes, and a command drawing the same id.  Its
    reply removes it and sends the reply text to the stored chat id, unless
    that id is 0, in which case nothing is sent.  A sweep later than five
    minutes after its creation removes it.  A reply whose id has no entry
    changes nothing and sends nothing. *)
Theorem pending_entry_lifecycle :
  forall (env : Gateway.Env) (c : Gateway.ParsedCommand) (user_id chat : Z)
         (r : Gateway.Role) (st : Gateway.State)
         (request_args : list (string * Gateway.JsonValue)),
    Gateway.build_args c = Some request_args ->
    let st1 := Gateway.forward_command env c user_id chat r st in
    let info := {| Gateway.chat_id := chat;
                   Gateway.timestamp := Gateway.now env |} in
    Gateway.pending_commands_ st1 !! Gateway.uuid env = Some info /\
    (Gateway.publish_ok env = true ->
     exists rq, Gateway.requests st1 = Gateway.requests st ++ [rq] /\
                Gateway.req_corr_id rq = Gateway.uuid env /\
                Gateway.cmd rq = Gateway.command c) /\
    (forall steps : list Step,
        Forall (fun s => ~ ends (Gateway.uuid env) info s) steps ->
        Gateway.pending_commands_ (run steps st1) !! Gateway.uuid env
          = Some info) /\
    (forall (st' : Gateway.State) (reply : Gateway.CommandReply),
        Gateway.pending_commands_ st' !! Gateway.uuid env = Some info ->
        Gateway.corr_id reply = Gateway.uuid env ->
        let st'' := Gateway.handle_command_reply reply st' in
        Gateway.pending_commands_ st'' !! Gateway.uuid env = None /\
        Gateway.sent st'' =
          if chat =? 0 then Gateway.sent st'
          else Gateway.sent st' ++ [(chat, Gateway.message reply)]) /\
    (forall (st' : Gateway.State) (t : Z),
        Gateway.pending_commands_ st' !! Gateway.uuid env = Some info ->
        t - Gateway.now env > 5 * Gateway.ticks_per_minute ->
        Gateway.pending_commands_ (Gateway.cleanup_tick t st')
          !! Gateway.uuid env = None) /\
    (forall (st' : Gateway.State) (reply : Gateway.CommandReply),
        Gateway.pending_commands_ st' !! Gateway.corr_id reply = None ->
        Gateway.handle_command_reply reply st' = st').
Proof.
  intros env c user_id chat r st request_args Hargs st1 info.
  assert (H1 : Gateway.pending_commands_ st1 !! Gateway.uuid env = Some info).
  { unfold st1. rewrite pending_forward, Hargs. apply lookup_insert_eq. }
  split; [exact H1 |].
  split.
  { intros Hpub. unfold st1, Gateway.forward_command.
    rewrite Hargs. unfold Gateway.publish_command_request. rewrite Hpub.
    simpl. eexists. repeat split. }
  split.
  { intros steps Hsteps. apply run_keeps_pending; assumption. }
  split.
  { intros st' reply Hin Hcorr. cbv zeta.
    unfold Gateway.handle_command_reply. rewrite Hcorr, Hin. simpl.
    destruct (chat =? 0); simpl; split;
      try apply lookup_delete_eq; reflexivity. }
  split.
  { intros st' t Hin Hold. unfold Gateway.cleanup_tick. simpl.
    unfold Gateway.sweep_pending. apply map_lookup_filter_None.
    right. intros x Hx. rewrite Hin in Hx. injection Hx as <-.
    simpl. lia. }
  intros st' reply Hnone. unfold Gateway.handle_command_reply.
  rewrite Hnone. reflexivity.
Qed.

End PendingFacts.

Definition balance_command : Gateway.ParsedCommand :=
  {| Gateway.command := "balance"; Gateway.args := [] |}.

(** C8 as stated fails for a stored chat id of 0: the reply removes the
    entry and no message is sent. *)
Lemma reply_for_chat_zero_not_sent :
  let env := env_at 0 "corr-1" "000000" in
  let st1 := Gateway.handle_command gateway_config_example env
               balance_command 1 0 gateway_empty in
  let reply := {| Gateway.corr_id := "corr-1"; Gateway.ok := true;
                  Gateway.message := "1.5 SOL" |} in
  let st2 := Gateway.handle_command_reply reply st1 in
  List.map Gateway.req_corr_id (Gateway.requests st1) = ["corr-1"] /\
  Gateway.pending_commands_ st1 !! "corr-1"
    = Some {| Gateway.chat_id := 0; Gateway.timestamp := 0 |} /\
  Gateway.pending_commands_ st2 !! "corr-1" = None /\
  Gateway.sent st2 = [].
Proof. vm_compute. repeat split; reflexivity. Qed.

Lemma pending_entry_lifecycle_witness :
  let env := env_at 0 "corr-1" "000000" in
  let st1 := Gateway.forward_command env balance_command 1 77 Gateway.OWNER
               gateway_empty in
  let reply := {| Gateway.corr_id := "corr-1"; Gateway.ok := true;
                  Gateway.message := "1.5 SOL" |} in
  let st2 := run gateway_config_example
               [StepTick (4 * Gateway.ticks_per_minute);
                StepReply {| Gateway.corr_id := "other"; Gateway.ok := true;
                             Gateway.message := "x" |}] st1 in
  Gateway.pending_commands_ st2 !! "corr-1"
    = Some {| Gateway.chat_id := 77; Gateway.timestamp := 0 |} /\
  Gateway.sent (Gateway.handle_command_reply reply st2) = [(77, "1.5 SOL")].
Proof.
  cbv zeta.
  destruct (pending_entry_lifecycle gateway_config_example
              (env_at 0 "corr-1" "000000") balance_command 1 77 Gateway.OWNER
              gateway_empty [] eq_refl) as (_ & _ & Hkeep & Hreply & _ & _).
  assert (Hin : Gateway.pending_commands_
                  (run gateway_config_example
                     [StepTick (4 * Gateway.ticks_per_minute);
                      StepReply {| Gateway.corr_id := "other";
                                   Gateway.ok := true;
                                   Gateway.message := "x" |}]
                     (Gateway.forward_command (env_at 0 "corr-1" "000000")
                        balance_command 1 77 Gateway.OWNER gateway_empty))
                !! "corr-1"
                = Some {| Gateway.chat_id := 77; Gateway.timestamp := 0 |}).
  { apply Hkeep. repeat constructor; simpl.
    - vm_compute. intros H; discriminate H.
    - discriminate. }
  split; [exact Hin |].
  destruct (Hreply _ {| Gateway.corr_id := "corr-1"; Gateway.ok := true;
                        Gateway.message := "1.5 SOL" |} Hin eq_refl)
    as [_ Hsent].
  rewrite Hsent. vm_compute. reflexivity.
Defined.

(** * Further properties of the code *)

(** ** Decimal conversions: [std::to_string] against [std::stoi],
       [std::stoll] and the integer reading of Redis *)

Lemma digit_of_pretty_N_char (d : N) :
  (d < 10)%N -> Cxx.digit_of (pretty_N_char d) = Some (Z.of_N d).
Proof.
  intros Hd.
  assert (d = 0 \/ d = 1 \/ d = 2 \/ d = 3 \/ d = 4 \/ d = 5 \/ d = 6
          \/ d = 7 \/ d = 8 \/ d = 9)%N as Hc by lia.
  repeat destruct Hc as [-> | Hc]; try subst d; reflexivity.
Qed.

Lemma read_digits_pretty_N_go (x : N) :
  forall (s : string) (a : option Z),
    (0 < x)%N ->
    exists k : Z,
      0 <= k /\
      Cxx.read_digits (pretty_N_go x s) a =
      Cxx.read_digits s (Some (default 0 a * 10 ^ k + Z.of_N x)).
Proof.
  induction (N.lt_wf_0 x) as [x _ IH]. intros s a Hx.
  rewrite pretty_N_go_step by exact Hx.
  pose proof (N.mod_lt x 10 ltac:(discriminate)) as Hm.
  pose proof (N.div_mod x 10 ltac:(discriminate)) as Hdm.
  destruct (N.eq_dec (x `div` 10)%N 0%N) as [E | E].
  - rewrite E, pretty_N_go_0. exists 1. split; [lia |].
    cbn [Cxx.read_digits]. rewrite (digit_of_pretty_N_char _ Hm).
    assert (Hz : Z.of_N x = Z.of_N (x `mod` 10)) by lia.
    rewrite Hz, Z.pow_1_r, (Z.mul_comm 10). reflexivity.
  - assert (Hlt : (x `div` 10 < x)%N).
    { apply N.div_lt; [exact Hx | reflexivity]. }
    assert (Hpos : (0 < x `div` 10)%N) by (apply N.neq_0_lt_0; exact E).
    destruct (IH _ Hlt (String (pretty_N_char (x `mod` 10)) s) a Hpos)
      as (k & Hk & ->).
    exists (k + 1). split; [lia |].
    cbn [Cxx.read_digits]. rewrite (digit_of_pretty_N_char _ Hm).
    cbn [default].
    assert (Hgoal : forall u v : Z, u = v ->
      Cxx.read_digits s (Some u) = Cxx.read_digits s (Some v))
      by (intros ? ? ->; reflexivity).
    apply Hgoal.
    assert (Hz : Z.of_N x = 10 * Z.of_N (x `div` 10) + Z.of_N (x `mod` 10))
      by lia.
    rewrite Z.pow_add_r by lia. rewrite Hz. unfold id. ring.
Qed.

Lemma all_digits_pretty_N_go (x : N) :
  forall s : string,
    Redis.all_digits (pretty_N_go x s) = Redis.all_digits s.
Proof.
  induction (N.lt_wf_0 x) as [x _ IH]. intros s.
  destruct (N.eq_dec x 0%N) as [-> | E]; [reflexivity |].
  rewrite pretty_N_go_step by lia.
  rewrite IH by (apply N.div_lt; lia).
  cbn [Redis.all_digits].
  rewrite (digit_of_pretty_N_char _ (N.mod_lt x 10 ltac:(lia))).
  reflexivity.
Qed.

Lemma pretty_N_go_head (x : N) :
  forall s : string,
    (0 < x)%N ->
    exists (d : N) (rest : string),
      (d < 10)%N /\ pretty_N_go x s = String (pretty_N_char d) rest.
Proof.
  induction (N.lt_wf_0 x) as [x _ IH]. intros s Hx.
  rewrite pretty_N_go_step by exact Hx.
  destruct (N.eq_dec (x `div` 10)%N 0%N) as [E | E].
  - rewrite E, pretty_N_go_0. eexists _, _. split; [| reflexivity].
    apply N.mod_lt. lia.
  - apply IH; [apply N.div_lt; lia | apply N.neq_0_lt_0; exact E].
Qed.

Lemma read_digits_pretty_pos (p : positive) :
  Cxx.read_digits (pretty (Npos p)) None = Some (Zpos p).
Proof.
  unfold pretty, pretty_N. rewrite decide_False by discriminate.
  destruct (read_digits_pretty_N_go (Npos p) "" None ltac:(lia)) as (k & _ & ->).
  simpl. reflexivity.
Qed.

Lemma read_integer_to_string (z : Z) :
  Cxx.read_integer (Cxx.to_string z) = Some z.
Proof.
  unfold Cxx.to_string, pretty, pretty_Z. destruct z as [| p | p].
  - reflexivity.
  - pose proof (read_digits_pretty_pos p) as Hr.
    unfold pretty at 1, pretty_positive.
    unfold pretty, pretty_N in *. rewrite decide_False in * by discriminate.
    destruct (pretty_N_go_head (Npos p) "" ltac:(lia)) as (d & rest & Hd & E).
    rewrite E in *. 
    assert (d = 0 \/ d = 1 \/ d = 2 \/ d = 3 \/ d = 4 \/ d = 5 \/ d = 6
            \/ d = 7 \/ d = 8 \/ d = 9)%N as Hc by lia.
    repeat destruct Hc as [-> | Hc]; try subst d; exact Hr.
  - unfold pretty at 1, pretty_positive.
    change (Cxx.read_integer ("-" +:+ pretty (Npos p)))
      with (Z.opp <$> Cxx.read_digits (pretty (Npos p)) None).
    rewrite read_digits_pretty_pos. reflexivity.
Qed.

Lemma stoi_to_string (z : Z) :
  - 2 ^ 31 <= z < 2 ^ 31 -> Cxx.stoi (Cxx.to_string z) = Some z.
Proof.
  intros Hz. unfold Cxx.stoi. rewrite read_integer_to_string. simpl.
  destruct (Z.leb_spec (- 2 ^ 31) z); [| lia].
  destruct (Z.ltb_spec z (2 ^ 31)); [reflexivity | lia].
Qed.

Lemma stoll_to_string (z : Z) :
  - 2 ^ 63 <= z < 2 ^ 63 -> Cxx.stoll (Cxx.to_string z) = Some z.
Proof.
  intros Hz. unfold Cxx.stoll. rewrite read_integer_to_string. simpl.
  destruct (Z.leb_spec (- 2 ^ 63) z); [| lia].
  destruct (Z.ltb_spec z (2 ^ 63)); [reflexivity | lia].
Qed.

Lemma integer_value_to_string (z : Z) :
  Redis.integer_value (Cxx.to_string z) = Some z.
Proof.
  unfold Cxx.to_string, pretty, pretty_Z. destruct z as [| p | p].
  - reflexivity.
  - pose proof (read_digits_pretty_pos p) as Hr.
    unfold pretty at 1, pretty_positive.
    assert (Ha : Redis.all_digits (pretty (Npos p)) = true).
    { unfold pretty, pretty_N. rewrite decide_False by discriminate.
      apply all_digits_pretty_N_go. }
    unfold pretty, pretty_N in *. rewrite decide_False in * by discriminate.
    destruct (pretty_N_go_head (Npos p) "" ltac:(lia)) as (d & rest & Hd & E).
    rewrite E in *.
    assert (d = 0 \/ d = 1 \/ d = 2 \/ d = 3 \/ d = 4 \/ d = 5 \/ d = 6
            \/ d = 7 \/ d = 8 \/ d = 9)%N as Hc by lia.
    repeat destruct Hc as [-> | Hc]; try subst d;
      cbn [pretty_N_char] in *; unfold Redis.integer_value; rewrite Ha;
      exact Hr.
  - unfold pretty at 1, pretty_positive.
    pose proof (read_digits_pretty_pos p) as Hr.
    assert (Ha : Redis.all_digits (pretty (Npos p)) = true).
    { unfold pretty, pretty_N. rewrite decide_False by discriminate.
      apply all_digits_pretty_N_go. }
    unfold pretty, pretty_N in *. rewrite decide_False in * by discriminate.
    destruct (pretty_N_go_head (Npos p) "" ltac:(lia)) as (d & rest & Hd & E).
    rewrite E in *.
    change ("-" +:+ String (pretty_N_char d) rest)
      with (String "-" (String (pretty_N_char d) rest)).
    unfold Redis.integer_value. rewrite Ha, Hr. reflexivity.
Qed.

(** ** tg_gateway: the command parser *)

Fixpoint no_space (s : string) : bool :=
  match s with
  | String c rest => negb (Cxx.isspace c) && no_space rest
  | EmptyString => true
  end.

(** A word of the command line: not empty, no white space. *)
Definition is_word (s : string) : Prop := s <> EmptyString /\ no_space s = true.

(** The text that a command and its arguments are typed as. *)
Definition render (c : Gateway.ParsedCommand) : string :=
  "/" +:+ Gateway.command c
  +:+ fold_right (fun a s => " " +:+ a +:+ s) EmptyString (Gateway.args c).

Lemma append_cons (x : ascii) (a b : string) :
  String x a +:+ b = String x (a +:+ b).
Proof. reflexivity. Qed.

Lemma append_assoc (a b c : string) : (a +:+ b) +:+ c = a +:+ (b +:+ c).
Proof.
  induction a as [| x a IH]; [reflexivity |].
  rewrite !append_cons, IH. reflexivity.
Qed.

Lemma append_empty_r (a : string) : a +:+ EmptyString = a.
Proof.
  induction a as [| x a IH]; [reflexivity |].
  rewrite append_cons, IH. reflexivity.
Qed.

Lemma no_space_append (a b : string) :
  no_space (a +:+ b) = no_space a && no_space b.
Proof.
  induction a as [| x a IH]; [reflexivity |].
  rewrite append_cons. simpl. rewrite IH, andb_assoc. reflexivity.
Qed.

Lemma append_char_not_empty (w : string) (c : ascii) :
  w +:+ String c EmptyString <> EmptyString.
Proof. destruct w; discriminate. Qed.

Lemma split_args_from_words (text : string) :
  forall word : option string,
    (forall w, word = Some w -> is_word w) ->
    Forall is_word (Parser.split_args_from text word).
Proof.
  induction text as [| c rest IH]; intros word Hw;
    cbn [Parser.split_args_from].
  - destruct word as [w |]; [| constructor].
    constructor; [apply Hw; reflexivity | constructor].
  - destruct (Cxx.isspace c) eqn:Ec.
    + destruct word as [w |].
      * constructor; [apply Hw; reflexivity |]. apply IH. discriminate.
      * apply IH. discriminate.
    + apply IH. intros w [= <-]. split; [apply append_char_not_empty |].
      rewrite no_space_append. cbn [no_space]. rewrite Ec.
      destruct word as [w |]; [| reflexivity].
      change (default EmptyString (Some w)) with w.
      rewrite (proj2 (Hw w eq_refl)). reflexivity.
Qed.

(** Reading on from a started word yields a first word that extends it. *)
Lemma split_args_from_started (text : string) :
  forall w : string,
    exists (suffix : string) (rest : list string),
      Parser.split_args_from text (Some w) = (w +:+ suffix) :: rest.
Proof.
  induction text as [| c text IH]; intros w; cbn [Parser.split_args_from].
  - exists EmptyString, []. rewrite append_empty_r. reflexivity.
  - destruct (Cxx.isspace c).
    + exists EmptyString. eexists. rewrite append_empty_r. reflexivity.
    + change (default EmptyString (Some w)) with w.
      destruct (IH (w +:+ String c EmptyString)) as (suffix & rest & ->).
      exists (String c suffix), rest. rewrite append_assoc. reflexivity.
Qed.

Lemma split_args_from_append (s : string) :
  forall (w rest : string),
    no_space s = true ->
    Parser.split_args_from (s +:+ rest) (Some w)
    = Parser.split_args_from rest (Some (w +:+ s)).
Proof.
  induction s as [| c s IH]; intros w rest Hs.
  - rewrite append_empty_r. reflexivity.
  - cbn [no_space] in Hs. apply andb_true_iff in Hs as [Hc Hs].
    apply negb_true_iff in Hc.
    rewrite append_cons. cbn [Parser.split_args_from]. rewrite Hc.
    rewrite IH by exact Hs.
    change (default EmptyString (Some w)) with w.
    rewrite append_assoc. reflexivity.
Qed.

Lemma split_args_from_rendered (l : list string) :
  forall w : string,
    Forall is_word l ->
    Parser.split_args_from
      (fold_right (fun a s => " " +:+ a +:+ s) EmptyString l) (Some w)
    = w :: l.
Proof.
  induction l as [| a l IH]; intros w Hl; [reflexivity |].
  inversion Hl as [| ? ? [Ha Hsp] Hl']; subst.
  cbn [fold_right].
  change (" " +:+ a +:+ ?s) with (String " " (a +:+ s)).
  cbn [Parser.split_args_from]. 
  change (Cxx.isspace " ") with true. cbv iota.
  f_equal.
  destruct a as [| c a]; [contradiction |].
  cbn [no_space] in Hsp. apply andb_true_iff in Hsp as [Hc Hsp].
  apply negb_true_iff in Hc.
  rewrite append_cons. cbn [Parser.split_args_from]. rewrite Hc.
  change (default EmptyString None +:+ String c EmptyString)
    with (String c EmptyString).
  rewrite (split_args_from_append a) by exact Hsp.
  apply (IH (String c a)). exact Hl'.
Qed.

(** A text that does not begin with a slash is no command. *)
Lemma parse_not_command (text : string) :
  Parser.is_command text = false -> Parser.parse text = None.
Proof. intros H. unfold Parser.parse. rewrite H. reflexivity. Qed.

(** X1. [CommandParser::parse] returns a command exactly for a text that
    begins with a slash (its test for an empty word list never fires); the
    words of the text are then the command behind its slash, followed by the
    arguments, and every argument is a non-empty word without white space. *)
Theorem parse_splits_words :
  forall text : string,
    (Parser.parse text = None <-> Parser.is_command text = false) /\
    forall c : Gateway.ParsedCommand,
      Parser.parse text = Some c ->
      Parser.split_args text
        = String "/" (Gateway.command c) :: Gateway.args c /\
      no_space (Gateway.command c) = true /\
      Forall is_word (Gateway.args c).
Proof.
  intros text.
  assert (Hwords : Forall is_word (Parser.split_args text)).
  { apply split_args_from_words. discriminate. }
  unfold Parser.parse.
  destruct (Parser.is_command text) eqn:Ecmd; simpl.
  2: { split; [split; reflexivity | discriminate]. }
  assert (Hhead : exists suffix rest,
             Parser.split_args text = String "/" suffix :: rest).
  { unfold Parser.is_command in Ecmd.
    destruct text as [| c text]; [discriminate |].
    destruct (Ascii.ascii_dec c "/") as [-> | Hc].
    - unfold Parser.split_args. cbn [Parser.split_args_from].
      change (Cxx.isspace "/") with false. cbv iota.
      change (default EmptyString None +:+ String "/" EmptyString)
        with (String "/" EmptyString).
      destruct (split_args_from_started text "/") as (suffix & rest & ->).
      exists suffix, rest. reflexivity.
    - exfalso. revert Ecmd Hc. clear.
      destruct c as [[] [] [] [] [] [] [] []]; try discriminate.
      intros _ Hc. apply Hc. reflexivity. }
  destruct Hhead as (suffix & rest & E). rewrite E in *.
  split; [split; discriminate |].
  intros c [= <-]. simpl.
  inversion Hwords as [| ? ? [_ Hsp] Hrest]; subst.
  split; [reflexivity |]. split; [| exact Hrest].
  simpl in Hsp. exact Hsp.
Qed.

(** X2. Round trip: a command typed as a slash, the command word and the
    arguments, each argument after one space, parses to that command and
    those arguments, when the command word has no white space and every
    argument is a non-empty word without white space. *)
Theorem parse_render :
  forall c : Gateway.ParsedCommand,
    no_space (Gateway.command c) = true ->
    Forall is_word (Gateway.args c) ->
    Parser.parse (render c) = Some c.
Proof.
  intros [cmd args] Hc Ha. unfold render, Parser.parse. simpl in *.
  unfold Parser.split_args.
  change ("/" +:+ cmd +:+ ?s) with (String "/" (cmd +:+ s)).
  cbn [Parser.is_command negb Parser.split_args_from].
  change (Cxx.isspace "/") with false. cbv iota.
  change (default EmptyString None +:+ String "/" EmptyString)
    with (String "/" EmptyString).
  rewrite (split_args_from_append cmd) by exact Hc.
  rewrite (split_args_from_rendered args) by exact Ha.
  reflexivity.
Qed.

Lemma parse_splits_words_witness :
  Parser.split_args "/signals  1h" = ["/signals"; "1h"].
Proof.
  destruct (parse_splits_words "/signals  1h") as [_ H].
  destruct (H {| Gateway.command := "signals"; Gateway.args := ["1h"] |})
    as [Hs _]; [vm_compute; reflexivity | exact Hs].
Defined.

Lemma parse_render_witness :
  Parser.parse "/add_wallet So11111111111111111111111111111111111111112"
  = Some {| Gateway.command := "add_wallet";
            Gateway.args :=
              ["So11111111111111111111111111111111111111112"] |}.
Proof.
  apply (parse_render
           {| Gateway.command := "add_wallet";
              Gateway.args :=
                ["So11111111111111111111111111111111111111112"] |}).
  - vm_compute. reflexivity.
  - repeat constructor; vm_compute; discriminate.
Defined.

(** ** tg_gateway: the rate limiter *)

Section RateLimiterFacts.
Variable limit : Z.

(** How many of a sequence of [check_user_rate_limit] calls, each by a user
    at an instant, are answered [true] for the user [u]. *)
Fixpoint accepted_for (u : Z) (calls : list (Z * Z)) (st : RateLimiter.State)
    : Z :=
  match calls with
  | [] => 0
  | (user, now) :: rest =>
      let '(ok, st') := RateLimiter.check_user_rate_limit limit now user st in
      (if ok && (user =? u) then 1 else 0) + accepted_for u rest st'
  end.

Definition entry_of (u : Z) (st : RateLimiter.State) : RateLimiter.UserLimit :=
  default RateLimiter.fresh (RateLimiter.user_limits_ st !! u).

(** What the user may still spend inside the minute that starts at [t_lo]:
    the rest of the current window and, if that window began before [t_lo],
    one more window. *)
Definition allowance (t_lo : Z) (e : RateLimiter.UserLimit) : Z :=
  (if t_lo <=? RateLimiter.window_start e then 0 else limit)
  + Z.max 0 (limit - RateLimiter.message_count e).

Lemma check_other_user (now user u : Z) (st : RateLimiter.State) :
  user <> u ->
  entry_of u (RateLimiter.check_user_rate_limit limit now user st).2
  = entry_of u st.
Proof.
  intros Hne. unfold RateLimiter.check_user_rate_limit, entry_of.
  destruct (_ >=? limit); simpl; rewrite lookup_insert_ne by exact Hne;
    reflexivity.
Qed.

Lemma accepted_within_allowance (u t_lo : Z) (calls : list (Z * Z)) :
  forall st : RateLimiter.State,
    0 <= limit ->
    Forall (fun call => call.1 = u ->
                        t_lo <= call.2 <= t_lo + Gateway.ticks_per_minute)
           calls ->
    accepted_for u calls st <= allowance t_lo (entry_of u st).
Proof.
  induction calls as [| [user now] calls IH]; intros st Hl Hcalls.
  - simpl. unfold allowance. destruct (_ <=? _); lia.
  - inversion Hcalls as [| ? ? Hcall Hrest]; subst. simpl in Hcall.
    cbn [accepted_for].
    destruct (RateLimiter.check_user_rate_limit limit now user st)
      as [ok st'] eqn:E.
    specialize (IH st' Hl Hrest).
    destruct (Z.eqb_spec user u) as [-> | Hne].
    + specialize (Hcall eq_refl). rewrite andb_true_r.
      revert E IH. unfold RateLimiter.check_user_rate_limit.
      fold (entry_of u st).
      destruct (entry_of u st) as [w c]. simpl.
      unfold allowance, entry_of. 
      destruct (Z.gtb_spec (now - w) Gateway.ticks_per_minute) as [Hreset | Hkeep];
        simpl.
      * destruct (Z.geb_spec 0 limit) as [H0 | H0]; intros [= <- <-]; simpl;
          rewrite lookup_insert_eq; simpl;
          destruct (Z.leb_spec t_lo now); destruct (Z.leb_spec t_lo w); lia.
      * destruct (Z.geb_spec c limit) as [H0 | H0]; intros [= <- <-]; simpl;
          rewrite lookup_insert_eq; simpl;
          destruct (Z.leb_spec t_lo w); lia.
    + rewrite andb_false_r.
      pose proof (check_other_user now user u st Hne) as Ho.
      rewrite E in Ho. simpl in Ho. rewrite Ho in IH. lia.
Qed.

(** X3. Within any minute, [check_user_rate_limit] accepts at most twice
    [msgs_per_min] messages of one user, whatever other users send in
    between: the window is fixed, so a burst can straddle one reset. *)
Theorem user_burst_bound :
  forall (u t_lo : Z) (calls : list (Z * Z)) (st : RateLimiter.State),
    0 <= limit ->
    0 <= RateLimiter.message_count (entry_of u st) ->
    Forall (fun call => call.1 = u ->
                        t_lo <= call.2 <= t_lo + Gateway.ticks_per_minute)
           calls ->
    accepted_for u calls st <= 2 * limit.
Proof.
  intros u t_lo calls st Hl Hc Hcalls.
  pose proof (accepted_within_allowance u t_lo calls st Hl Hcalls) as H.
  unfold allowance in H. destruct (_ <=? _); lia.
Qed.

End RateLimiterFacts.

Lemma user_burst_bound_witness :
  accepted_for 2 7
    [(7, 10); (7, 20); (8, 25); (7, 30); (7, 40)]
    {| RateLimiter.user_limits_ := ∅;
       RateLimiter.actionable_timestamps_ := [] |} <= 2 * 2.
Proof.
  apply (user_burst_bound 2 7 10).
  - lia.
  - vm_compute. discriminate.
  - repeat (constructor;
            [simpl; intros _; vm_compute; split; discriminate |]).
    constructor.
Defined.

Section AlertLimitFacts.
Variable cfg : Gateway.Config.
Variable per_hour : Z.

(** What reaches the limiter: an alert from the alert stream, or a round of
    the cleanup loop. *)
Inductive LimiterEvent : Type :=
| AlertArrives (now_check now_record : Z) (alert : Dispatch.Alert)
| CleanupRound (now_sessions now_limiter now_pending : Z).

Definition limiter_step (s : RateLimiter.State * Gateway.State)
    (e : LimiterEvent) : RateLimiter.State * Gateway.State :=
  match e with
  | AlertArrives now_check now_record alert =>
      Dispatch.handle_alert cfg per_hour now_check now_record alert s
  | CleanupRound now_sessions now_limiter now_pending =>
      Dispatch.cleanup_loop_body now_sessions now_limiter now_pending s
  end.

(** The limiter's clock reads do not run backwards. *)
Fixpoint clock_monotone (t : Z) (events : list LimiterEvent) : Prop :=
  match events with
  | [] => True
  | AlertArrives now_check now_record _ :: rest =>
      t <= now_check /\ now_check <= now_record /\
      clock_monotone now_record rest
  | CleanupRound _ now_limiter _ :: rest =>
      t <= now_limiter /\ clock_monotone now_limiter rest
  end.

(** The instants recorded for the actionable and high-conviction alerts
    that were forwarded to the owner. *)
Fixpoint forwarded_at (events : list LimiterEvent)
    (s : RateLimiter.State * Gateway.State) : list Z :=
  match events with
  | [] => []
  | e :: rest =>
      let s' := limiter_step s e in
      match e with
      | AlertArrives _ now_record alert =>
          if Dispatch.is_limited alert
             && (length (Gateway.sent s'.2)
                 =? S (length (Gateway.sent s.2)))%nat
          then now_record :: forwarded_at rest s'
          else forwarded_at rest s'
      | CleanupRound _ _ _ => forwarded_at rest s'
      end
  end.

Definition in_hour_before (T : Z) (l : list Z) : list Z :=
  filter (fun r => T - RateLimiter.ticks_per_hour <= r <= T) l.

Definition since (theta : Z) (l : list Z) : list Z :=
  filter (fun r => theta <= r) l.

Lemma since_since (a b : Z) (l : list Z) :
  a <= b -> since b (since a l) = since b l.
Proof.
  intros Hab. unfold since. induction l as [| r l IH]; [reflexivity |].
  rewrite (filter_cons (fun r => a <= r)).
  destruct (decide (a <= r)) as [Ha | Ha].
  - rewrite !filter_cons. destruct (decide (b <= r)); rewrite IH; reflexivity.
  - rewrite filter_cons. rewrite decide_False by lia. exact IH.
Qed.

Lemma remove_older_is_since (now : Z) (l : list Z) :
  RateLimiter.remove_older_than_hour now l
  = since (now - RateLimiter.ticks_per_hour) l.
Proof.
  unfold RateLimiter.remove_older_than_hour, since.
  apply list_filter_iff. intros r. lia.
Qed.

Lemma in_hour_before_le_since (T theta : Z) (l : list Z) :
  theta <= T - RateLimiter.ticks_per_hour ->
  (length (in_hour_before T l) <= length (since theta l))%nat.
Proof.
  intros Ht. unfold in_hour_before, since.
  induction l as [| r l IH]; [reflexivity |].
  rewrite !filter_cons.
  destruct (decide (T - RateLimiter.ticks_per_hour <= r <= T));
    destruct (decide (theta <= r)); simpl; lia.
Qed.

Definition window_ok (F : list Z) : Prop :=
  forall T : Z,
    Z.of_nat (length (in_hour_before T F))
    <= RateLimiter.static_cast_size_t per_hour.

Lemma ticks_per_hour_pos : 0 < RateLimiter.ticks_per_hour.
Proof. reflexivity. Qed.

Lemma forwarded_window (events : list LimiterEvent) :
  forall (s : RateLimiter.State * Gateway.State) (F : list Z) (t theta : Z),
    theta <= t - RateLimiter.ticks_per_hour ->
    RateLimiter.actionable_timestamps_ s.1 = since theta F ->
    window_ok F ->
    clock_monotone t events ->
    window_ok (F ++ forwarded_at events s).
Proof.
  pose proof ticks_per_hour_pos as Hpos.
  induction events as [| e events IH]; intros [limiter st] F t theta Ht HL HW Hc.
  - simpl. rewrite app_nil_r. exact HW.
  - simpl in HL. destruct e as [tc tr alert | ts tl tp].
    + destruct Hc as (Htc & Htr & Hc). cbn [forwarded_at limiter_step].
      unfold Dispatch.handle_alert.
      destruct (Dispatch.is_limited alert) eqn:El; cbn [andb].
      * unfold RateLimiter.check_global_actionable_limit.
        rewrite remove_older_is_since, HL, since_since by lia.
        destruct (Z.ltb_spec
                    (Z.of_nat (length (since (tc - RateLimiter.ticks_per_hour) F)))
                    (RateLimiter.static_cast_size_t per_hour)) as [Hok | Hno];
          cbn [negb].
        -- cbn [snd Gateway.send_message Gateway.sent].
           rewrite length_app. cbn [length].
           rewrite Nat.add_1_r, Nat.eqb_refl.
           change (F ++ tr :: ?l) with (F ++ [tr] ++ l). rewrite app_assoc.
           apply (IH _ _ tr (tc - RateLimiter.ticks_per_hour)); [lia | | | exact Hc].
           ++ cbn [fst RateLimiter.record_actionable
                   RateLimiter.actionable_timestamps_].
              unfold since. rewrite filter_app, filter_cons, filter_nil.
              rewrite decide_True by lia. reflexivity.
           ++ intros T. unfold in_hour_before.
              rewrite filter_app, filter_cons, filter_nil, length_app.
              destruct (decide (T - RateLimiter.ticks_per_hour <= tr <= T))
                as [Hin | Hout]; cbn [length].
              ** pose proof (in_hour_before_le_since T
                               (tc - RateLimiter.ticks_per_hour) F
                               ltac:(lia)) as Hle.
                 unfold in_hour_before in Hle. lia.
              ** specialize (HW T). unfold in_hour_before in HW. lia.
        -- cbn [snd].
           rewrite (proj2 (Nat.eqb_neq _ _)) by lia.
           apply (IH _ _ tr (tc - RateLimiter.ticks_per_hour));
             [lia | reflexivity | exact HW | exact Hc].
      * apply (IH _ _ tr theta); [lia | exact HL | exact HW | exact Hc].
    + destruct Hc as (Htl & Hc). cbn [forwarded_at limiter_step].
      apply (IH _ _ tl (tl - RateLimiter.ticks_per_hour)); [lia | | exact HW | exact Hc].
      cbn [Dispatch.cleanup_loop_body fst RateLimiter.cleanup_old_entries
           RateLimiter.actionable_timestamps_].
      rewrite remove_older_is_since, HL, since_since by lia. reflexivity.
Qed.

(** X4. Starting with no recorded alert, however alerts and cleanup rounds
    interleave, the actionable and high-conviction alerts forwarded to the
    owner in any window of one hour number at most
    [global_actionable_max_per_hour] (as [handle_alert] compares it, cast to
    [size_t]). *)
Theorem forwarded_alerts_per_hour :
  forall (events : list LimiterEvent)
         (s : RateLimiter.State * Gateway.State) (t T : Z),
    RateLimiter.actionable_timestamps_ s.1 = [] ->
    clock_monotone t events ->
    Z.of_nat (length (in_hour_before T (forwarded_at events s)))
    <= RateLimiter.static_cast_size_t per_hour.
Proof.
  intros events s t T Hs Hc.
  apply (forwarded_window events s [] t (t - RateLimiter.ticks_per_hour));
    [lia | rewrite Hs; reflexivity | | exact Hc].
  intros T'. simpl. unfold RateLimiter.static_cast_size_t.
  apply Z.mod_pos_bound. reflexivity.
Qed.

End AlertLimitFacts.

Definition limiter_empty : RateLimiter.State := {|
  RateLimiter.user_limits_ := ∅;
  RateLimiter.actionable_timestamps_ := []
|}.

Definition alert_of (severity_ : string) : Dispatch.Alert := {|
  Dispatch.severity := severity_;
  Dispatch.title := "SOL";
  Dispatch.message := "entry confirmed"
|}.

Lemma forwarded_alerts_per_hour_witness :
  let min := Gateway.ticks_per_minute in
  Z.of_nat
    (length
       (in_hour_before (70 * min)
          (forwarded_at gateway_config_example 2
             [AlertArrives 0 1 (alert_of "actionable");
              AlertArrives (10 * min) (10 * min) (alert_of "high_conviction");
              AlertArrives (20 * min) (20 * min) (alert_of "actionable");
              CleanupRound (30 * min) (30 * min) (30 * min);
              AlertArrives (65 * min) (65 * min) (alert_of "actionable")]
             (limiter_empty, gateway_empty))))
  <= RateLimiter.static_cast_size_t 2.
Proof.
  cbv zeta.
  apply (forwarded_alerts_per_hour gateway_config_example 2 _ _ 0).
  - reflexivity.
  - vm_compute. repeat split; discriminate.
Defined.

(** ** tg_gateway: who may do what *)

Section GatewayAccessFacts.
Variable cfg : Gateway.Config.

Lemma requests_publish_audit (env : Gateway.Env) (st : Gateway.State)
    (e : Gateway.AuditEvent) :
  Gateway.requests (Gateway.publish_audit_event env st e)
  = Gateway.requests st.
Proof.
  unfold Gateway.publish_audit_event. destruct (Gateway.audit_ok env); reflexivity.
Qed.

Lemma db_publish_audit (env : Gateway.Env) (st : Gateway.State)
    (e : Gateway.AuditEvent) :
  Gateway.db (Gateway.publish_audit_event env st e) = Gateway.db st.
Proof.
  unfold Gateway.publish_audit_event. destruct (Gateway.audit_ok env); reflexivity.
Qed.

Lemma requests_guest_login (env : Gateway.Env) (pin : string)
    (user_id chat : Z) (st : Gateway.State) :
  Gateway.requests (Gateway.handle_guest_login cfg env pin user_id chat st)
  = Gateway.requests st.
Proof.
  unfold Gateway.handle_guest_login.
  destruct (Gateway.get_guest_pin_user env (Gateway.db st) pin); [| reflexivity].
  unfold Gateway.audit_guest_login. rewrite requests_publish_audit. reflexivity.
Qed.

(** X5. A command that [is_command_allowed] refuses for the sender's role
    (every command, for a sender without a role) is never forwarded:
    [handle_command] publishes no request and registers no pending command
    for it. *)
Theorem refused_command_not_forwarded :
  forall (env : Gateway.Env) (c : Gateway.ParsedCommand) (user_id chat : Z)
         (st : Gateway.State),
    Gateway.is_command_allowed (Gateway.command c)
      (Gateway.get_user_role cfg (Gateway.now env)
         (Gateway.guest_sessions_ st) user_id) = false ->
    let st' := Gateway.handle_command cfg env c user_id chat st in
    Gateway.requests st' = Gateway.requests st /\
    Gateway.pending_commands_ st' = Gateway.pending_commands_ st.
Proof.
  intros env c user_id chat st Hrefused. cbv zeta.
  unfold Gateway.handle_command.
  destruct (String.eqb (Gateway.command c) "start" && _).
  { rewrite requests_guest_login, pending_guest_login. split; reflexivity. }
  destruct (bool_decide (_ = Gateway.UNKNOWN)).
  { unfold Gateway.audit_auth_denied.
    rewrite requests_publish_audit, pending_publish_audit. split; reflexivity. }
  rewrite Hrefused. simpl. unfold Gateway.audit_auth_denied.
  rewrite requests_publish_audit, pending_publish_audit. split; reflexivity.
Qed.

Lemma role_of_other_user (now_ : Z) (sessions : gmap Z Gateway.UserSession)
    (user_id : Z) :
  user_id <> Gateway.owner_telegram_id cfg ->
  Gateway.get_user_role cfg now_ sessions user_id <> Gateway.OWNER.
Proof.
  intros Hne. unfold Gateway.get_user_role.
  destruct (Z.eqb_spec user_id (Gateway.owner_telegram_id cfg)); [contradiction |].
  destruct (sessions !! user_id) as [s |]; [| discriminate].
  destruct (negb (Gateway.is_expired now_ s)); discriminate.
Qed.

(** What a command does to a key of the key-value store: nothing, or it
    deletes it, or it is the owner's [/guest] storing the PIN drawn. *)
Lemma handle_command_db (env : Gateway.Env) (c : Gateway.ParsedCommand)
    (user_id chat : Z) (st : Gateway.State) (key : string) :
  let st' := Gateway.handle_command cfg env c user_id chat st in
  Gateway.db st' !! key = Gateway.db st !! key \/
  Gateway.db st' !! key = None \/
  (user_id = Gateway.owner_telegram_id cfg /\
   Gateway.command c = "guest" /\
   key = Gateway.guest_pin_key (Gateway.pin_drawn env)).
Proof.
  cbv zeta. unfold Gateway.handle_command.
  destruct (String.eqb (Gateway.command c) "start" && _).
  { unfold Gateway.handle_guest_login.
    destruct (Gateway.get_guest_pin_user env (Gateway.db st) _);
      [| left; reflexivity].
    unfold Gateway.audit_guest_login. rewrite db_publish_audit. simpl.
    unfold Gateway.delete_guest_pin, Redis.DEL.
    destruct (Gateway.del_ok env); simpl; [| left; reflexivity].
    destruct (decide (Gateway.guest_pin_key
                        (default EmptyString (Gateway.args c !! 0%nat)) = key))
      as [<- | Hk].
    - right. left. apply lookup_delete_eq.
    - left. apply lookup_delete_ne. exact Hk. }
  destruct (bool_decide (_ = Gateway.UNKNOWN)).
  { unfold Gateway.audit_auth_denied. rewrite db_publish_audit. left; reflexivity. }
  destruct (negb (Gateway.is_command_allowed _ _)).
  { unfold Gateway.audit_auth_denied. rewrite db_publish_audit. left; reflexivity. }
  unfold Gateway.handle_local_command.
  destruct (String.eqb (Gateway.command c) "start"); [left; reflexivity |].
  destruct (String.eqb (Gateway.command c) "help"); [left; reflexivity |].
  destruct (String.eqb_spec (Gateway.command c) "guest") as [Hguest | _];
    cbn [andb].
  2: { unfold Gateway.audit_command_used. rewrite db_publish_audit.
       unfold Gateway.forward_command.
       destruct (Gateway.build_args c); [| left; reflexivity].
       unfold Gateway.publish_command_request.
       destruct (Gateway.publish_ok env); left; reflexivity. }
  match goal with
  | |- context [@bool_decide ?P ?i] => destruct (@bool_decide P i) eqn:Eo
  end.
  1: apply bool_decide_eq_true_1 in Eo; rename Eo into Howner.
  2: { unfold Gateway.audit_command_used. rewrite db_publish_audit.
       unfold Gateway.forward_command.
       destruct (Gateway.build_args c); [| left; reflexivity].
       unfold Gateway.publish_command_request.
       destruct (Gateway.publish_ok env); left; reflexivity. }
  assert (Hid : user_id = Gateway.owner_telegram_id cfg).
  { destruct (Z.eq_dec user_id (Gateway.owner_telegram_id cfg)) as [E | Hne];
      [exact E |].
    exfalso. exact (role_of_other_user _ _ _ Hne Howner). }
  unfold Gateway.store_guest_pin, Redis.SETEX.
  destruct (Gateway.setex_ok env); [| left; reflexivity].
  destruct (_ <=? 0); [left; reflexivity |].
  cbn [Gateway.db Gateway.send_message Gateway.set_db].
  destruct (decide (Gateway.guest_pin_key (Gateway.pin_drawn env) = key))
    as [<- | Hk].
  - right. right. repeat split; assumption.
  - left. apply lookup_insert_ne. exact Hk.
Qed.

(** What a command appends to the two streams: at most one request and at
    most one audit event. *)
Lemma handle_command_streams (env : Gateway.Env) (c : Gateway.ParsedCommand)
    (user_id chat : Z) (st : Gateway.State) :
  let st' := Gateway.handle_command cfg env c user_id chat st in
  exists (new_requests : list Gateway.CommandRequest)
         (new_audits : list Gateway.AuditEvent),
    Gateway.requests st' = Gateway.requests st ++ new_requests /\
    Gateway.audits st' = Gateway.audits st ++ new_audits /\
    (length new_requests <= 1)%nat /\ (length new_audits <= 1)%nat.
Proof.
  assert (Hnone : forall s : Gateway.State,
             Gateway.requests s = Gateway.requests st ->
             Gateway.audits s = Gateway.audits st ->
             exists (rs : list Gateway.CommandRequest)
                    (es : list Gateway.AuditEvent),
               Gateway.requests s = Gateway.requests st ++ rs /\
               Gateway.audits s = Gateway.audits st ++ es /\
               (length rs <= 1)%nat /\ (length es <= 1)%nat).
  { intros s Hr Ha. exists [], []. rewrite Hr, Ha, !app_nil_r. simpl.
    repeat split; lia. }
  assert (Haudit : forall (s : Gateway.State) (e : Gateway.AuditEvent)
                          (rs : list Gateway.CommandRequest),
             (length rs <= 1)%nat ->
             Gateway.requests s = Gateway.requests st ++ rs ->
             Gateway.audits s = Gateway.audits st ->
             exists (rs' : list Gateway.CommandRequest)
                    (es : list Gateway.AuditEvent),
               Gateway.requests (Gateway.publish_audit_event env s e)
               = Gateway.requests st ++ rs' /\
               Gateway.audits (Gateway.publish_audit_event env s e)
               = Gateway.audits st ++ es /\
               (length rs' <= 1)%nat /\ (length es <= 1)%nat).
  { intros s e rs Hlen Hr Ha. unfold Gateway.publish_audit_event.
    destruct (Gateway.audit_ok env); simpl.
    - exists rs, [e]. rewrite Hr, Ha. simpl. repeat split; lia.
    - exists rs, []. rewrite Hr, Ha, app_nil_r. simpl. repeat split; lia. }
  cbv zeta. unfold Gateway.handle_command.
  destruct (String.eqb (Gateway.command c) "start" && _).
  { unfold Gateway.handle_guest_login.
    destruct (Gateway.get_guest_pin_user env (Gateway.db st) _);
      [| apply Hnone; reflexivity].
    unfold Gateway.audit_guest_login.
    apply (Haudit _ _ []); [simpl; lia | simpl; rewrite app_nil_r |];
      reflexivity. }
  destruct (bool_decide (_ = Gateway.UNKNOWN)).
  { unfold Gateway.audit_auth_denied.
    apply (Haudit _ _ []); [simpl; lia | simpl; rewrite app_nil_r |];
      reflexivity. }
  destruct (negb (Gateway.is_command_allowed _ _)).
  { unfold Gateway.audit_auth_denied.
    apply (Haudit _ _ []); [simpl; lia | simpl; rewrite app_nil_r |];
      reflexivity. }
  unfold Gateway.handle_local_command.
  destruct (String.eqb (Gateway.command c) "start"); [apply Hnone; reflexivity |].
  destruct (String.eqb (Gateway.command c) "help"); [apply Hnone; reflexivity |].
  destruct (String.eqb (Gateway.command c) "guest" && _).
  { destruct (Gateway.store_guest_pin env (Gateway.db st) _ _ _)
      as [stored db'].
    destruct stored; apply Hnone; reflexivity. }
  unfold Gateway.audit_command_used, Gateway.forward_command.
  destruct (Gateway.build_args c) as [request_args |].
  - unfold Gateway.publish_command_request.
    destruct (Gateway.publish_ok env).
    + eapply (Haudit _ _ [_]); [simpl; lia | reflexivity | reflexivity].
    + apply (Haudit _ _ []); [simpl; lia | simpl; rewrite app_nil_r |];
        reflexivity.
  - apply (Haudit _ _ []); [simpl; lia | simpl; rewrite app_nil_r |];
      reflexivity.
Qed.

(** X6. A command from anyone but the owner never sets a key of the
    key-value store of Redis, where the guest PINs are: every key keeps its
    entry or loses it (the PIN consumed by a login).  What such a command
    does write to Redis goes to the two streams: it appends at most one
    command request and at most one audit event, and leaves what is on the
    streams as it is. *)
Theorem only_owner_stores :
  forall (env : Gateway.Env) (c : Gateway.ParsedCommand) (user_id chat : Z)
         (st : Gateway.State),
    user_id <> Gateway.owner_telegram_id cfg ->
    let st' := Gateway.handle_command cfg env c user_id chat st in
    (forall key : string,
       Gateway.db st' !! key = Gateway.db st !! key \/
       Gateway.db st' !! key = None) /\
    exists (new_requests : list Gateway.CommandRequest)
           (new_audits : list Gateway.AuditEvent),
      Gateway.requests st' = Gateway.requests st ++ new_requests /\
      Gateway.audits st' = Gateway.audits st ++ new_audits /\
      (length new_requests <= 1)%nat /\ (length new_audits <= 1)%nat.
Proof.
  intros env c user_id chat st Hne. cbv zeta. split.
  - intros key.
    destruct (handle_command_db env c user_id chat st key)
      as [H | [H | [Hid _]]]; [left; exact H | right; exact H |].
    contradiction.
  - apply handle_command_streams.
Qed.

(** X8. Sweeping expired sessions changes nobody's role, at the instant of
    the sweep or later. *)
Theorem session_sweep_keeps_roles :
  forall (t_sweep t : Z) (sessions : gmap Z Gateway.UserSession)
         (user_id : Z),
    t_sweep <= t ->
    Gateway.get_user_role cfg t
      (Gateway.cleanup_expired_sessions t_sweep sessions) user_id
    = Gateway.get_user_role cfg t sessions user_id.
Proof.
  intros t_sweep t sessions user_id Ht.
  unfold Gateway.get_user_role, Gateway.cleanup_expired_sessions.
  destruct (user_id =? Gateway.owner_telegram_id cfg); [reflexivity |].
  destruct (sessions !! user_id) as [s |] eqn:Es.
  - destruct (Gateway.is_expired t_sweep s) eqn:Ex.
    + assert (filter (fun kv => Gateway.is_expired t_sweep kv.2 = false)
                sessions !! user_id = None) as ->.
      { apply map_lookup_filter_None. right. intros x Hx.
        rewrite Es in Hx. injection Hx as <-. simpl. rewrite Ex. discriminate. }
      unfold Gateway.is_expired in *.
      destruct (Z.gtb_spec t_sweep (Gateway.expires_at s)); [| discriminate].
      destruct (Z.gtb_spec t (Gateway.expires_at s)); [reflexivity | lia].
    + assert (filter (fun kv => Gateway.is_expired t_sweep kv.2 = false)
                sessions !! user_id = Some s) as ->.
      { apply map_lookup_filter_Some. split; [exact Es | exact Ex]. }
      reflexivity.
  - assert (filter (fun kv => Gateway.is_expired t_sweep kv.2 = false)
              sessions !! user_id = None) as ->.
    { apply map_lookup_filter_None. left. exact Es. }
    reflexivity.
Qed.

End GatewayAccessFacts.

Lemma refused_command_not_forwarded_witness :
  let st' := Gateway.handle_command gateway_config_example
               (env_at 0 "u0" "000000")
               {| Gateway.command := "balance"; Gateway.args := [] |}
               42 42 gateway_empty in
  Gateway.requests st' = [] /\ Gateway.pending_commands_ st' = ∅.
Proof.
  apply (refused_command_not_forwarded gateway_config_example
           (env_at 0 "u0" "000000")
           {| Gateway.command := "balance"; Gateway.args := [] |}
           42 42 gateway_empty).
  vm_compute. reflexivity.
Defined.

Lemma only_owner_stores_witness :
  let st' := Gateway.handle_command gateway_config_example
               (env_at 0 "u0" "123456")
               {| Gateway.command := "guest"; Gateway.args := ["5"] |}
               42 42 gateway_empty in
  (forall key : string,
     Gateway.db st' !! key = Gateway.db gateway_empty !! key \/
     Gateway.db st' !! key = None) /\
  exists (new_requests : list Gateway.CommandRequest)
         (new_audits : list Gateway.AuditEvent),
    Gateway.requests st' = Gateway.requests gateway_empty ++ new_requests /\
    Gateway.audits st' = Gateway.audits gateway_empty ++ new_audits /\
    (length new_requests <= 1)%nat /\ (length new_audits <= 1)%nat.
Proof.
  apply (only_owner_stores gateway_config_example (env_at 0 "u0" "123456")
           {| Gateway.command := "guest"; Gateway.args := ["5"] |}
           42 42 gateway_empty).
  vm_compute. discriminate.
Defined.

(** The gateway after the owner's [/guest 5] at time 0 drew PIN 123456. *)
Definition gateway_with_pin : Gateway.State :=
  Gateway.handle_command gateway_config_example (env_at 0 "u0" "123456")
    {| Gateway.command := "guest"; Gateway.args := ["5"] |} 1 1 gateway_empty.

Section GuestPinReuse.
Variable cfg : Gateway.Config.
Variable msgs_per_min : Z.
Variable per_hour : Z.

(** What the gateway handles: a Telegram update, a command reply, an
    alert, or a round of the cleanup loop. *)
Inductive GatewayEvent : Type :=
| GwUpdate (env : Gateway.Env) (now_limit : Z)
    (update : Dispatch.TelegramUpdate)
| GwReply (reply : Gateway.CommandReply)
| GwAlert (now_check now_record : Z) (alert : Dispatch.Alert)
| GwCleanup (now_sessions now_limiter now_pending : Z).

Definition gateway_step (e : GatewayEvent)
    (s : RateLimiter.State * Gateway.State)
    : RateLimiter.State * Gateway.State :=
  match e with
  | GwUpdate env now_limit update =>
      Dispatch.handle_telegram_update_struct cfg msgs_per_min env now_limit
        update s
  | GwReply reply => (s.1, Gateway.handle_command_reply reply s.2)
  | GwAlert now_check now_record alert =>
      Dispatch.handle_alert cfg per_hour now_check now_record alert s
  | GwCleanup now_sessions now_limiter now_pending =>
      Dispatch.cleanup_loop_body now_sessions now_limiter now_pending s
  end.

Definition gateway_run (events : list GatewayEvent)
    (s : RateLimiter.State * Gateway.State)
    : RateLimiter.State * Gateway.State :=
  fold_left (fun s e => gateway_step e s) events s.

(** An update of the owner that parses to [/guest] and for which
    [generate_pin] draws [pin]. *)
Definition draws_pin (pin : string) (e : GatewayEvent) : Prop :=
  match e with
  | GwUpdate env _ update =>
      match Parser.parse (Dispatch.text update) with
      | Some c =>
          Dispatch.from_id update = Gateway.owner_telegram_id cfg /\
          Gateway.command c = "guest" /\ Gateway.pin_drawn env = pin
      | None => False
      end
  | _ => False
  end.

Lemma guest_pin_key_inj (p q : string) :
  Gateway.guest_pin_key p = Gateway.guest_pin_key q -> p = q.
Proof. unfold Gateway.guest_pin_key. simpl. intros [= E]. exact E. Qed.

Lemma gateway_step_keeps_pin_absent (pin : string) (e : GatewayEvent)
    (s : RateLimiter.State * Gateway.State) :
  ~ draws_pin pin e ->
  Gateway.db s.2 !! Gateway.guest_pin_key pin = None ->
  Gateway.db (gateway_step e s).2 !! Gateway.guest_pin_key pin = None.
Proof.
  intros Hdraw Hnone. destruct s as [limiter st]. simpl in Hnone.
  destruct e as [env now_limit update | reply | now_check now_record alert
                | now_sessions now_limiter now_pending].
  - simpl in Hdraw. cbn [gateway_step].
    unfold Dispatch.handle_telegram_update_struct.
    destruct (Dispatch.text update) as [| ch rest] eqn:Et; [exact Hnone |].
    destruct (RateLimiter.check_user_rate_limit msgs_per_min now_limit
                (Dispatch.from_id update) limiter) as [allowed limiter'].
    destruct allowed; cbn [negb]; [| exact Hnone].
    destruct (Parser.parse (String ch rest)) as [c |]; [| exact Hnone].
    cbn [snd].
    destruct (handle_command_db cfg env c (Dispatch.from_id update)
                (Dispatch.update_chat_id update) st
                (Gateway.guest_pin_key pin)) as [H | [H | (Hid & Hc & Hk)]].
    + rewrite H. exact Hnone.
    + exact H.
    + exfalso. apply Hdraw. repeat split; try assumption.
      symmetry. apply guest_pin_key_inj. exact Hk.
  - cbn [gateway_step snd fst]. unfold Gateway.handle_command_reply.
    destruct (Gateway.pending_commands_ st !! Gateway.corr_id reply);
      [| exact Hnone].
    destruct (negb (_ =? 0)); exact Hnone.
  - cbn [gateway_step]. unfold Dispatch.handle_alert.
    destruct (Dispatch.is_limited alert); [| exact Hnone].
    destruct (RateLimiter.check_global_actionable_limit per_hour now_check
                limiter) as [allowed limiter'].
    destruct allowed; exact Hnone.
  - exact Hnone.
Qed.

Lemma gateway_run_keeps_pin_absent (pin : string)
    (events : list GatewayEvent) :
  forall s : RateLimiter.State * Gateway.State,
    Forall (fun e => ~ draws_pin pin e) events ->
    Gateway.db s.2 !! Gateway.guest_pin_key pin = None ->
    Gateway.db (gateway_run events s).2 !! Gateway.guest_pin_key pin = None.
Proof.
  induction events as [| e events IH]; intros s He Hnone; [exact Hnone |].
  inversion He as [| ? ? He1 He2]; subst.
  unfold gateway_run. cbn [fold_left]. apply IH; [exact He2 |].
  apply gateway_step_keeps_pin_absent; assumption.
Qed.

(** X7. A PIN works once: after a login with it whose DEL reached Redis,
    whatever updates, command replies, alerts and cleanup rounds the
    gateway handles next, a [/start] with the same PIN, by whomever, is
    answered "Invalid or expired PIN" and installs no session, as long as
    no [/guest] of the owner has drawn the same PIN again in between
    ([generate_pin] does not look at the PINs in use). *)
Theorem guest_pin_single_use :
  forall (env env' : Gateway.Env) (pin : string)
         (user_id chat user_id' chat' owner_id : Z)
         (limiter : RateLimiter.State) (st : Gateway.State)
         (between : list GatewayEvent),
    Gateway.get_guest_pin_user env (Gateway.db st) pin = Some owner_id ->
    Gateway.del_ok env = true ->
    Forall (fun e => ~ draws_pin pin e) between ->
    let st1 := Gateway.handle_guest_login cfg env pin user_id chat st in
    let st1' := (gateway_run between (limiter, st1)).2 in
    let st2 := Gateway.handle_command cfg env'
                 {| Gateway.command := "start"; Gateway.args := [pin] |}
                 user_id' chat' st1' in
    Gateway.sent st2 = Gateway.sent st1' ++ [(chat', "Invalid or expired PIN")]
    /\ Gateway.guest_sessions_ st2 = Gateway.guest_sessions_ st1'.
Proof.
  intros env env' pin user_id chat user_id' chat' owner_id limiter st between
         Hpin Hdel Hbetween.
  cbv zeta.
  apply (start_with_unknown_pin cfg env' pin user_id' chat').
  apply gateway_run_keeps_pin_absent; [exact Hbetween |].
  apply (guest_login_deletes_pin cfg env pin user_id chat owner_id st Hpin Hdel).
Qed.

End GuestPinReuse.

(** After the login: a command of a stranger, a [/guest] of the owner that
    draws another PIN, an alert, and a cleanup round. *)
Definition between_example : list GatewayEvent :=
  [GwUpdate (env_at 120 "u3" "000000") 120
     {| Dispatch.text := "/balance"; Dispatch.from_id := 77;
        Dispatch.update_chat_id := 77 |};
   GwUpdate (env_at 150 "u4" "654321") 150
     {| Dispatch.text := "/guest"; Dispatch.from_id := 1;
        Dispatch.update_chat_id := 1 |};
   GwAlert 160 160
     {| Dispatch.severity := "actionable"; Dispatch.title := "AAA";
        Dispatch.message := "alert" |};
   GwCleanup 180 180 180].

Lemma guest_pin_single_use_witness :
  let st1 := Gateway.handle_guest_login gateway_config_example
               (env_at 100 "u1" "000000") "123456" 42 42 gateway_with_pin in
  let st1' := (gateway_run gateway_config_example 20 5 between_example
                 (limiter_empty, st1)).2 in
  let st2 := Gateway.handle_command gateway_config_example
               (env_at 200 "u2" "000000")
               {| Gateway.command := "start"; Gateway.args := ["123456"] |}
               43 43 st1' in
  Gateway.sent st2 = Gateway.sent st1' ++ [(43, "Invalid or expired PIN")]
  /\ Gateway.guest_sessions_ st2 = Gateway.guest_sessions_ st1'.
Proof.
  apply (guest_pin_single_use gateway_config_example 20 5
           (env_at 100 "u1" "000000") (env_at 200 "u2" "000000") "123456"
           42 42 43 43 1 limiter_empty gateway_with_pin between_example).
  - vm_compute. reflexivity.
  - reflexivity.
  - constructor; [simpl; intros (H1 & _ & _); discriminate H1 |].
    constructor; [simpl; intros (_ & _ & H3); discriminate H3 |].
    constructor; [simpl; intros [] |].
    constructor; [simpl; intros [] |]. constructor.
Defined.

Lemma session_sweep_keeps_roles_witness :
  let sessions :=
    Gateway.set_guest_session 0 ∅ 42 30 in
  Gateway.get_user_role gateway_config_example
    (31 * Gateway.ticks_per_minute)
    (Gateway.cleanup_expired_sessions (10 * Gateway.ticks_per_minute) sessions)
    42
  = Gateway.get_user_role gateway_config_example
      (31 * Gateway.ticks_per_minute) sessions 42.
Proof.
  apply (session_sweep_keeps_roles gateway_config_example).
  vm_compute. discriminate.
Defined.

Section GuestPinFlow.
Variable cfg : Gateway.Config.

(** [store_guest_pin], when its SETEX is served with a positive number of
    seconds, answers [true] and leaves the key [guest_pin:<pin>] holding the
    owner's id in decimal, to expire after those seconds. *)
Lemma store_guest_pin_served :
  forall (env : Gateway.Env) (db_ : Redis.Store) (pin : string)
         (owner_id ttl_seconds : Z),
    Gateway.setex_ok env = true ->
    0 < ttl_seconds ->
    Gateway.store_guest_pin env db_ pin owner_id ttl_seconds
    = (true,
       <[ Gateway.guest_pin_key pin :=
            {| Redis.value := Cxx.to_string owner_id;
               Redis.expires_at :=
                 Some (Gateway.now env
                       + ttl_seconds * Redis.ticks_per_second) |} ]> db_).
Proof.
  intros env db_ pin owner_id ttl Hset Httl.
  unfold Gateway.store_guest_pin, Redis.SETEX. rewrite Hset.
  destruct (Z.leb_spec ttl 0) as [| _]; [lia |]. reflexivity.
Qed.

(** X9. Round trip of a guest PIN through Redis: a PIN stored for a
    positive number of seconds is read back as the owner's id until those
    seconds have passed, and as nothing from then on. *)
Theorem guest_pin_round_trip :
  forall (env env' : Gateway.Env) (db_ : Redis.Store) (pin : string)
         (owner_id ttl_seconds : Z),
    Gateway.setex_ok env = true ->
    Gateway.get_ok env' = true ->
    0 < ttl_seconds ->
    - 2 ^ 63 <= owner_id < 2 ^ 63 ->
    let stored := Gateway.store_guest_pin env db_ pin owner_id ttl_seconds in
    stored.1 = true /\
    Gateway.get_guest_pin_user env' stored.2 pin =
      if Gateway.now env'
         <? Gateway.now env + ttl_seconds * Redis.ticks_per_second
      then Some owner_id else None.
Proof.
  intros env env' db_ pin owner_id ttl Hset Hget Httl Hid. cbv zeta.
  rewrite store_guest_pin_served by assumption.
  split; [reflexivity |]. cbn [snd].
  unfold Gateway.get_guest_pin_user, Redis.GET, Redis.read. rewrite Hget.
  rewrite lookup_insert_eq. unfold Redis.live. simpl.
  destruct (_ <? _); simpl; [| reflexivity].
  apply stoll_to_string. exact Hid.
Qed.


End GuestPinFlow.

Lemma guest_pin_round_trip_witness :
  let stored := Gateway.store_guest_pin (env_at 0 "u0" "000000") ∅
                  "123456" 1 300 in
  stored.1 = true /\
  Gateway.get_guest_pin_user (env_at (100 * Redis.ticks_per_second) "u1"
                                "000000") stored.2 "123456"
  = if 100 * Redis.ticks_per_second <? 0 + 300 * Redis.ticks_per_second
    then Some 1 else None.
Proof.
  apply (guest_pin_round_trip (env_at 0 "u0" "000000")
           (env_at (100 * Redis.ticks_per_second) "u1" "000000")
           ∅ "123456" 1 300).
  - reflexivity.
  - reflexivity.
  - lia.
  - vm_compute. split; [discriminate | reflexivity].
Defined.


Section DispatchFacts.
Variable cfg : Gateway.Config.
Variable msgs_per_min : Z.

(** The gateway state with [replies] appended to what it has sent. *)
Definition with_replies (st : Gateway.State) (replies : list (Z * string))
    : Gateway.State :=
  {| Gateway.guest_sessions_ := Gateway.guest_sessions_ st;
     Gateway.pending_commands_ := Gateway.pending_commands_ st;
     Gateway.db := Gateway.db st;
     Gateway.sent := Gateway.sent st ++ replies;
     Gateway.requests := Gateway.requests st;
     Gateway.audits := Gateway.audits st |}.

Lemma with_no_replies (st : Gateway.State) : with_replies st [] = st.
Proof. destruct st. unfold with_replies. simpl. rewrite app_nil_r. reflexivity. Qed.

(** X11. An update whose text does not begin with a slash, or whose sender
    is over the per-user limit, is never executed: sessions, pending
    commands, the Redis store, the request stream and the audit stream stay
    as they are, and at most one message is sent, to the chat of the
    update. *)
Theorem update_not_executed :
  forall (env : Gateway.Env) (now_limit : Z) (update : Dispatch.TelegramUpdate)
         (limiter : RateLimiter.State) (st : Gateway.State),
    Parser.is_command (Dispatch.text update) = false \/
    (RateLimiter.check_user_rate_limit msgs_per_min now_limit
       (Dispatch.from_id update) limiter).1 = false ->
    exists replies : list (Z * string),
      (Dispatch.handle_telegram_update_struct cfg msgs_per_min env now_limit
         update (limiter, st)).2 = with_replies st replies /\
      (length replies <= 1)%nat /\
      Forall (fun r => r.1 = Dispatch.update_chat_id update) replies.
Proof.
  intros env now_limit update limiter st Hgate.
  unfold Dispatch.handle_telegram_update_struct.
  destruct (Dispatch.text update) as [| ch rest] eqn:Et.
  { exists []. rewrite with_no_replies. repeat split; [simpl; lia | constructor]. }
  destruct (RateLimiter.check_user_rate_limit msgs_per_min now_limit
              (Dispatch.from_id update) limiter) as [allowed limiter'].
  destruct allowed; simpl in *.
  - destruct Hgate as [Hcmd | Hover]; [| discriminate].
    rewrite (parse_not_command (String ch rest) Hcmd).
    eexists [_]. repeat split; [simpl; lia |].
    constructor; [reflexivity | constructor].
  - eexists [_]. repeat split; [simpl; lia |].
    constructor; [reflexivity | constructor].
Qed.

End DispatchFacts.

Lemma update_not_executed_witness :
  exists replies : list (Z * string),
    (Dispatch.handle_telegram_update_struct gateway_config_example 20
       (env_at 0 "u0" "000000") 0
       {| Dispatch.text := "hello"; Dispatch.from_id := 42;
          Dispatch.update_chat_id := 42 |}
       (limiter_empty, gateway_empty)).2 = with_replies gateway_empty replies
    /\ (length replies <= 1)%nat
    /\ Forall (fun r => r.1 = 42) replies.
Proof.
  apply (update_not_executed gateway_config_example 20
           (env_at 0 "u0" "000000") 0
           {| Dispatch.text := "hello"; Dispatch.from_id := 42;
              Dispatch.update_chat_id := 42 |}
           limiter_empty gateway_empty).
  left. reflexivity.
Defined.

(** ** notifier: mute, outcomes and the global throttle *)

Section NotifierPolicyFacts.
Variable cfg : Notifier.Config.
Variable std_hash : string -> Z.
Variable format_alert_message : Notifier.InboundAlert -> string.

Abbreviation handle_alert_with :=
  (Notifier.handle_inbound_alert cfg std_hash format_alert_message).

Lemma wrap_int_exact (n : Z) :
  - 2 ^ 31 <= n < 2 ^ 31 -> Cxx.wrap_int n = n.
Proof.
  intros Hn. unfold Cxx.wrap_int.
  rewrite Z.mod_small by lia. lia.
Qed.

(** X12. Round trip of the mute: after [set_mute] with a positive number of
    minutes whose seconds fit an [int] has reached Redis, [is_muted] answers
    true exactly until those minutes have passed, and [clear_mute] ends the
    mute at once; for an alert handled while the mute lasts, the event
    handed to the audit logger is MUTED, nothing is published and Redis is
    left as it was, so the deduplicator does not remember the alert. *)
Theorem mute_lasts_its_minutes :
  forall (now minutes t t_clear : Z) (db_ : Redis.Store) (io : Notifier.Io),
    0 < minutes ->
    minutes * 60 < 2 ^ 31 ->
    Notifier.exists_ok io = true ->
    let muted := Notifier.set_mute true now db_ minutes in
    Notifier.is_muted io t muted
      = (t <? now + minutes * 60 * Redis.ticks_per_second) /\
    Notifier.is_muted io t (Notifier.clear_mute true t_clear muted) = false /\
    (t < now + minutes * 60 * Redis.ticks_per_second ->
     forall (alert : Notifier.InboundAlert) (st : Notifier.State),
       Notifier.db st = muted ->
       let st' := handle_alert_with io t alert st in
       Notifier.last_outcome st' = Some "MUTED" /\
       Notifier.outbound st' = Notifier.outbound st /\
       Notifier.db st' = Notifier.db st).
Proof.
  intros now minutes t t_clear db_ io Hmin Hfit Hex muted.
  assert (Hm : Notifier.is_muted io t muted
               = (t <? now + minutes * 60 * Redis.ticks_per_second)).
  { unfold muted, Notifier.set_mute, Redis.SETEX, Notifier.is_muted,
      Redis.EXISTS, Redis.read.
    rewrite wrap_int_exact by lia.
    rewrite Hex. destruct (Z.leb_spec (minutes * 60) 0); [lia |].
    simpl. rewrite lookup_insert_eq. unfold Redis.live. simpl.
    destruct (_ <? _); reflexivity. }
  split; [exact Hm |]. split.
  - unfold Notifier.clear_mute, Redis.DEL, Notifier.is_muted, Redis.EXISTS,
      Redis.read. rewrite Hex. simpl. rewrite lookup_delete_eq. reflexivity.
  - intros Ht alert st Hdb. cbv zeta.
    unfold Notifier.handle_inbound_alert. rewrite Hdb, Hm.
    destruct (Z.ltb_spec t (now + minutes * 60 * Redis.ticks_per_second));
      [| lia].
    unfold Notifier.last_outcome, Notifier.log_event. simpl.
    rewrite last_snoc. repeat split; try reflexivity. exact Hdb.
Qed.

Definition outcomes : list string :=
  ["MUTED"; "THROTTLED"; "DUPLICATE"; "SENT"; "PUBLISH_FAILED"].

(** X13. [handle_inbound_alert] hands exactly one event to the audit
    logger for every alert, stamped with the alert and one of the five
    outcomes; the alert is published, as one message to the configured chat,
    exactly when that outcome is SENT; and an alert that is MUTED or
    THROTTLED leaves Redis as it was, so it is not remembered as a
    duplicate. *)
Theorem one_event_per_alert :
  forall (io : Notifier.Io) (now : Z) (alert : Notifier.InboundAlert)
         (st : Notifier.State),
    let st' := handle_alert_with io now alert st in
    exists e : Notifier.AuditEvent,
      Notifier.audit st' = Notifier.audit st ++ [e] /\
      Notifier.raw_alert e = alert /\
      Notifier.ev_timestamp e = now /\
      Notifier.outcome e ∈ outcomes /\
      Notifier.outbound st' =
        (if String.eqb (Notifier.outcome e) "SENT"
         then Notifier.outbound st
              ++ [{| Notifier.chat_id := Notifier.telegram_chat_id cfg;
                     Notifier.message := format_alert_message alert |}]
         else Notifier.outbound st) /\
      (Notifier.outcome e = "MUTED" \/ Notifier.outcome e = "THROTTLED" ->
       Notifier.db st' = Notifier.db st).
Proof.
  intros io now alert st. cbv zeta. unfold Notifier.handle_inbound_alert.
  destruct (Notifier.is_muted io now (Notifier.db st)).
  { eexists. repeat split. unfold outcomes. set_solver. }
  destruct (Notifier.is_globally_throttled cfg io now (Notifier.db st) _).
  { eexists. repeat split. unfold outcomes. set_solver. }
  destruct (Notifier.is_duplicate cfg std_hash io now (Notifier.db st) alert)
    as [dup db1].
  destruct dup.
  { eexists. repeat split; [unfold outcomes; set_solver |].
    simpl. intros [H | H]; discriminate. }
  unfold Notifier.publish_outbound_alert.
  destruct (Notifier.publish_ok io).
  - eexists. repeat split; [unfold outcomes; set_solver |].
    simpl. intros [H | H]; discriminate.
  - eexists. repeat split; [unfold outcomes; set_solver |].
    simpl. intros [H | H]; discriminate.
Qed.

(** The throttler after [record_actionable_alert] at each of [times]. *)
Definition record_all (io : Notifier.Io) (times : list Z) (db_ : Redis.Store)
    : Redis.Store :=
  fold_left (fun d t => Notifier.record_actionable_alert cfg io t d) times db_.

Definition counter_entry (n expiry : Z) : Redis.Entry :=
  {| Redis.value := Cxx.to_string n; Redis.expires_at := Some expiry |}.

Lemma record_first (io : Notifier.Io) (t0 : Z) (db_ : Redis.Store) :
  Notifier.incr_ok io = true -> Notifier.expire_ok io = true ->
  0 < Notifier.global_throttle_period_sec cfg ->
  Redis.read t0 db_ Notifier.global_throttle_key_ = None ->
  Notifier.record_actionable_alert cfg io t0 db_ !! Notifier.global_throttle_key_
  = Some (counter_entry 1
            (t0 + Notifier.global_throttle_period_sec cfg
                  * Redis.ticks_per_second)).
Proof.
  intros Hi He Hp Hread.
  unfold Notifier.record_actionable_alert, Redis.INCR. rewrite Hi, Hread.
  simpl. unfold Redis.EXPIRE, Redis.read. rewrite He, lookup_insert_eq.
  simpl. destruct (Z.leb_spec (Notifier.global_throttle_period_sec cfg) 0);
    [lia |].
  simpl. rewrite lookup_insert_eq. reflexivity.
Qed.

Lemma record_next (io : Notifier.Io) (t n expiry : Z) (db_ : Redis.Store) :
  Notifier.incr_ok io = true ->
  0 < n -> t < expiry ->
  db_ !! Notifier.global_throttle_key_ = Some (counter_entry n expiry) ->
  Notifier.record_actionable_alert cfg io t db_ !! Notifier.global_throttle_key_
  = Some (counter_entry (n + 1) expiry).
Proof.
  intros Hi Hn Ht Hdb.
  unfold Notifier.record_actionable_alert, Redis.INCR, Redis.read.
  rewrite Hi, Hdb. unfold Redis.live. cbv iota beta.
  change (Redis.expires_at (counter_entry n expiry)) with (Some expiry).
  cbv iota beta.
  destruct (Z.ltb_spec t expiry); [| lia].
  change (Redis.value (counter_entry n expiry)) with (Cxx.to_string n).
  rewrite integer_value_to_string.
  destruct (Z.eqb_spec (n + 1) 1); [lia |].
  apply lookup_insert_eq.
Qed.

Lemma record_all_counts (io : Notifier.Io) (expiry : Z) (times : list Z) :
  forall (n : Z) (db_ : Redis.Store),
    Notifier.incr_ok io = true ->
    0 < n ->
    Forall (fun t => t < expiry) times ->
    db_ !! Notifier.global_throttle_key_ = Some (counter_entry n expiry) ->
    record_all io times db_ !! Notifier.global_throttle_key_
    = Some (counter_entry (n + Z.of_nat (length times)) expiry).
Proof.
  induction times as [| t times IH]; intros n db_ Hi Hn Ht Hdb.
  - simpl. rewrite Z.add_0_r. exact Hdb.
  - inversion Ht as [| ? ? Ht1 Ht2]; subst.
    change (record_all io (t :: times) db_)
      with (record_all io times
              (Notifier.record_actionable_alert cfg io t db_)).
    rewrite (IH (n + 1)); [| exact Hi | lia | exact Ht2
                           | apply record_next; assumption].
    f_equal. f_equal. cbn [length]. lia.
Qed.

(** X14. The global throttle counts.  From a store in which the counter is
    not live, the first [record_actionable_alert] opens a window of
    [global_throttle_period_sec] seconds; after that call and any further
    calls inside the window, [is_globally_throttled] inside the window
    answers, for an actionable alert, whether the number of calls has
    reached [global_throttle_limit]. *)
Theorem global_throttle_counts :
  forall (io : Notifier.Io) (t0 t : Z) (times : list Z) (db_ : Redis.Store),
    let expiry :=
      t0 + Notifier.global_throttle_period_sec cfg * Redis.ticks_per_second in
    let count := 1 + Z.of_nat (length times) in
    Notifier.incr_ok io = true -> Notifier.expire_ok io = true ->
    Notifier.get_ok io = true ->
    0 < Notifier.global_throttle_period_sec cfg ->
    Redis.read t0 db_ Notifier.global_throttle_key_ = None ->
    Forall (fun t' => t' < expiry) times ->
    t < expiry ->
    count < 2 ^ 31 ->
    Notifier.is_globally_throttled cfg io t
      (record_all io times (Notifier.record_actionable_alert cfg io t0 db_))
      "actionable"
    = (Notifier.global_throttle_limit cfg <=? count).
Proof.
  intros io t0 t times db_ expiry count Hi He Hg Hp Hread Htimes Ht Hcount.
  pose proof (record_all_counts io expiry times 1
                (Notifier.record_actionable_alert cfg io t0 db_)
                Hi ltac:(lia) Htimes
                (record_first io t0 db_ Hi He Hp Hread)) as Hdb.
  fold count in Hdb.
  unfold Notifier.is_globally_throttled, Redis.GET, Redis.read.
  cbn [String.eqb Ascii.eqb Bool.eqb negb]. rewrite Hg, Hdb. unfold Redis.live.
  cbv iota beta.
  change (Redis.expires_at (counter_entry count expiry)) with (Some expiry).
  cbv iota beta.
  destruct (Z.ltb_spec t expiry); [| lia].
  change (Redis.value <$> Some (counter_entry count expiry))
    with (Some (Cxx.to_string count)).
  cbv iota beta.
  rewrite stoi_to_string by lia.
  rewrite Z.geb_leb.
  destruct (Notifier.global_throttle_limit cfg <=? count); reflexivity.
Qed.

End NotifierPolicyFacts.

Lemma mute_lasts_its_minutes_witness :
  let muted := Notifier.set_mute true 0 ∅ 60 in
  let t := 59 * 60 * Redis.ticks_per_second in
  Notifier.is_muted (io_all true) t muted
    = (t <? 0 + 60 * 60 * Redis.ticks_per_second) /\
  Notifier.is_muted (io_all true) t (Notifier.clear_mute true t muted) = false.
Proof.
  cbv zeta.
  destruct (mute_lasts_its_minutes notifier_config_example hash_example
              format_example 0 60 (59 * 60 * Redis.ticks_per_second)
              (59 * 60 * Redis.ticks_per_second) ∅ (io_all true))
    as (H1 & H2 & _); [lia | lia | reflexivity |].
  split; [exact H1 | exact H2].
Defined.

Lemma global_throttle_counts_witness :
  let sec := Redis.ticks_per_second in
  Notifier.is_globally_throttled notifier_config_example (io_all true)
    (50 * sec)
    (record_all notifier_config_example (io_all true) [10 * sec; 20 * sec]
       (Notifier.record_actionable_alert notifier_config_example (io_all true)
          0 ∅))
    "actionable"
  = (Notifier.global_throttle_limit notifier_config_example
     <=? 1 + Z.of_nat (length [10 * sec; 20 * sec])).
Proof.
  cbv zeta.
  apply (global_throttle_counts notifier_config_example (io_all true) 0).
  - reflexivity.
  - reflexivity.
  - reflexivity.
  - vm_compute. reflexivity.
  - reflexivity.
  - repeat (constructor; [vm_compute; reflexivity |]). constructor.
  - vm_compute. reflexivity.
  - vm_compute. reflexivity.
Defined.


(** ** analytics: the pipeline from a market update to an alert *)

Section PipelineFacts.
Context {D : Type} `{Double D}.
Variable cfg : Pipeline.Config D.
Variable generate_reasons :
  Pipeline.Update D -> option (TokenMetadata D) -> SignalResult D
  -> list string.

Abbreviation scored := (Pipeline.scored_signals cfg generate_reasons).
Abbreviation process := (Pipeline.process_market_update cfg generate_reasons).

Lemma scored_band (env : Pipeline.Env D) (update : Pipeline.Update D)
    (st : Pipeline.Service D) :
  band (scored env update st)
  = determine_band (Pipeline.scorer cfg)
      (confidence_score (scored env update st))
      (entry_confirmed (scored env update st))
      (net_edge_ok (scored env update st)).
Proof. reflexivity. Qed.

(** The service after [cache_market_update] alone. *)
Definition cached (env : Pipeline.Env D) (update : Pipeline.Update D)
    (st : Pipeline.Service D) : Pipeline.Service D :=
  Pipeline.set_api_signals_handler st
    (Pipeline.cache_market_update cfg (Pipeline.now_cache env) update
       (Pipeline.api_signals_handler_ st)).

Definition is_sol (update : Pipeline.Update D) : bool :=
  String.eqb (mint_base (Pipeline.scalars update)) (Pipeline.sol_mint cfg).


(** The calls of the throttle manager that a sequence of updates makes. *)
Definition run_updates (calls : list (Pipeline.Env D * Pipeline.Update D))
    (st : Pipeline.Service D) : Pipeline.Service D :=
  fold_left (fun st call => process call.1 call.2 st) calls st.

(** An update raises no alert and leaves the history of the throttle
    manager as it is, or it raises one and records it. *)
Lemma process_history (env : Pipeline.Env D) (update : Pipeline.Update D)
    (st : Pipeline.Service D) :
  let st' := process env update st in
  (Pipeline.alerts st' = Pipeline.alerts st /\
   Pipeline.alert_history_ st' = Pipeline.alert_history_ st) \/
  (is_sol update = false /\
   Pipeline.alerts st' <> Pipeline.alerts st /\
   Pipeline.alert_history_ st'
   = Throttles.record_alert (Pipeline.throttle cfg) (Pipeline.now_record env)
       (Pipeline.now_cleanup env) (mint_base (Pipeline.scalars update))
       (band (scored env update st)) (Pipeline.alert_history_ st)).
Proof.
  cbv zeta. unfold Pipeline.process_market_update, is_sol.
  destruct (String.eqb _ (Pipeline.sol_mint cfg));
    [left; split; reflexivity |].
  fold (cached env update st).
  change (scored env update (cached env update st))
    with (scored env update st).
  unfold Pipeline.generate_alerts.
  destruct (String.eqb _ "watch"); [left; split; reflexivity |].
  destruct (Throttles.should_throttle _ _ _ _ _);
    [left; split; reflexivity |].
  destruct (Pipeline.publish_ok env); [| left; split; reflexivity].
  right. simpl. split; [reflexivity |]. split; [| reflexivity].
  intros E. apply (f_equal length) in E. rewrite length_app in E.
  simpl in E. lia.
Qed.

Lemma run_updates_keep (r : Throttles.AlertRecord) (b : string) (now : Z)
    (calls : list (Pipeline.Env D * Pipeline.Update D)) :
  forall st : Pipeline.Service D,
    Forall (fun call => Pipeline.now_cleanup call.1 <= now) calls ->
    Throttles.duration_cast_minutes (now - Throttles.timestamp r)
      < Throttles.cooldown_minutes (Pipeline.throttle cfg) b ->
    r ∈ Pipeline.alert_history_ st ->
    r ∈ Pipeline.alert_history_ (run_updates calls st).
Proof.
  induction calls as [| [env update] calls IH]; intros st Hc Hfresh Hin;
    [exact Hin |].
  inversion Hc as [| ? ? Hc1 Hc2]; subst. simpl in Hc1.
  unfold run_updates. cbn [fold_left]. apply IH; [exact Hc2 | exact Hfresh |].
  cbn [fst snd].
  destruct (process_history env update st) as [[_ ->] | (_ & _ & ->)];
    [exact Hin |].
  unfold Throttles.record_alert.
  apply (cleanup_keeps (Pipeline.throttle cfg) r b (Pipeline.now_cleanup env) now);
    [exact Hc1 | exact Hfresh |].
  apply elem_of_app. left. exact Hin.
Qed.


End PipelineFacts.

(** The defaults of config.hpp, with a SOL mint and regime thresholds. *)
Definition pipeline_config_example : Pipeline.Config Q := {|
  Pipeline.scorer := default_config;
  Pipeline.throttle := throttle_config_example;
  Pipeline.min_liquidity_actionable := 150000;
  Pipeline.min_liquidity_headsup := 25000;
  Pipeline.min_volume_actionable := 500000;
  Pipeline.min_volume_headsup := 50000;
  Pipeline.max_impact_pct := 15 # 10;
  Pipeline.max_spread_pct := 25 # 10;
  Pipeline.max_route_hops := 3;
  Pipeline.max_route_deviation := 8 # 10;
  Pipeline.min_age_hours := 24;
  Pipeline.young_token_hours := 72;
  Pipeline.min_c_young_risky := 80;
  Pipeline.min_m1h_pct := 1;
  Pipeline.max_m1h_pct := 12;
  Pipeline.min_m24h_pct := 2;
  Pipeline.max_m24h_pct := 60;
  Pipeline.dq_start := 1;
  Pipeline.dq_penalty_per_missing := 8 # 100;
  Pipeline.max_upside_cap := 15;
  Pipeline.net_edge_k_factor := 2;
  Pipeline.lag_penalty := 3 # 10;
  Pipeline.sol_mint := "So11111111111111111111111111111111111111112";
  Pipeline.risk_on_sol_change_threshold := 2;
  Pipeline.risk_on_momentum_threshold := 1;
  Pipeline.cache_ttl_minutes := 60
|}%Q.

Definition bar_example (open_ high_ low_ close_ : Q) : Pipeline.OHLCVBar Q := {|
  Pipeline.open := open_; Pipeline.high := high_; Pipeline.low := low_;
  Pipeline.close := close_; Pipeline.volume_usd := 1000%Q
|}.

Definition pipeline_update_example : Pipeline.Update Q := {|
  Pipeline.scalars := update_of_age 1000%Q;
  Pipeline.route := {| Pipeline.ok := true; Pipeline.hops := 1;
                       Pipeline.deviation_pct := (1 # 10)%Q |};
  Pipeline.bars :=
    <["5m" := bar_example 100 106 99 105]>
      (<["15m" := bar_example 100 112 99 110]> ∅);
  Pipeline.timestamp := 0
|}.

Definition pipeline_env_at (t : Z) : Pipeline.Env Q := {|
  Pipeline.metadata := None;
  Pipeline.token_list_mints := ["A"];
  Pipeline.publish_ok := true;
  Pipeline.now_cache := t;
  Pipeline.now_throttle := t;
  Pipeline.now_alert := t;
  Pipeline.now_record := t;
  Pipeline.now_cleanup := t
|}.

Definition pipeline_empty : Pipeline.Service Q := {|
  Pipeline.regime_detector_ :=
    {| Pipeline.data_points_ := []; Pipeline.risk_on_ := false |};
  Pipeline.sol_price_ := 0%Q;
  Pipeline.sol_24h_change_pct_ := 0%Q;
  Pipeline.alert_history_ := [];
  Pipeline.api_signals_handler_ :=
    {| Pipeline.market_updates_cache_ := ∅; Pipeline.signals_cache_ := ∅;
       Pipeline.counter := 0 |};
  Pipeline.alerts := []
|}.

Definition no_reasons (update : Pipeline.Update Q)
    (metadata : option (TokenMetadata Q)) (result : SignalResult Q)
    : list string := [].



(** ** analytics: scoring and throttling *)

(** X17. The rug cap binds: when the data quality passes and the rug-risk
    signal is below 0.5, [calculate_confidence] never exceeds [max_rug_cap]
    (or 0, for a negative cap), whatever the other signals; under the
    default configuration the score after the regime adjustment is then at
    most 65, below the actionable threshold, so the band is heads_up or
    watch. *)
Theorem rug_cap_binds :
  forall (D : Type) (HD : Double D) (cfg : Config D) (s : SignalResult D),
    d_ltb (data_quality s) (min_dq_for_actionable cfg) = false ->
    d_ltb (s7_rug_risk s) (d_lit 5 10) = true ->
    calculate_confidence cfg s <= Z.max 0 (max_rug_cap cfg) /\
    (cfg = default_config ->
     forall risk_on e n : bool,
       let c := apply_risk_adjustment cfg (calculate_confidence cfg s)
                  risk_on in
       c <= 65 /\
       (determine_band cfg c e n = "heads_up" \/
        determine_band cfg c e n = "watch")).
Proof.
  intros D HD cfg s Hdq Hrug.
  assert (Hcap : calculate_confidence cfg s <= Z.max 0 (max_rug_cap cfg)).
  { unfold calculate_confidence. rewrite Hdq, Hrug.
    destruct (d_ltb (n1_hygiene s) (d_lit 5 10)); lia. }
  split; [exact Hcap |].
  intros -> risk_on e n c.
  assert (Hc : c <= 65).
  { unfold c, apply_risk_adjustment. simpl in *. destruct risk_on; lia. }
  split; [exact Hc |].
  unfold determine_band. simpl.
  destruct e, n; simpl; try (right; reflexivity).
  destruct (Z.geb_spec c 85); [lia |].
  destruct (Z.geb_spec c 70); [lia |].
  destruct ((c >=? 60) && (c <=? 69)); [left | right]; reflexivity.
Qed.

Section ThrottleCleanupFacts.
Variable cfg : Throttles.Config.

(** A record that [cleanup] drops at [t] counts for nothing at [now]. *)
Lemma dropped_is_stale (t now : Z) (r : Throttles.AlertRecord) (b : string) :
  t <= now ->
  Throttles.rate_limit_window_min cfg <= Throttles.max_cooldown cfg + 1 ->
  Throttles.duration_cast_minutes (t - Throttles.timestamp r)
    > Throttles.max_cooldown cfg ->
  (Throttles.duration_cast_minutes (now - Throttles.timestamp r)
     <? Throttles.cooldown_minutes cfg b) = false /\
  (Throttles.duration_cast_minutes (now - Throttles.timestamp r)
     <? Throttles.rate_limit_window_min cfg) = false.
Proof.
  intros Ht Hw Hold.
  pose proof (cooldown_le_max cfg b).
  pose proof (duration_cast_minutes_mono (t - Throttles.timestamp r)
                (now - Throttles.timestamp r) ltac:(lia)).
  split; apply Z.ltb_ge; lia.
Qed.

(** X18. [cleanup] is invisible to [should_throttle]: when the rate-limit
    window is no longer than the longest cooldown plus one minute, pruning
    the history at some instant never changes the answer of
    [should_throttle] at that instant or later, for any mint and band. *)
Theorem cleanup_keeps_throttle_answers :
  forall (t now : Z) (m b : string) (history : list Throttles.AlertRecord),
    t <= now ->
    Throttles.rate_limit_window_min cfg <= Throttles.max_cooldown cfg + 1 ->
    Throttles.should_throttle cfg now m b (Throttles.cleanup cfg t history)
    = Throttles.should_throttle cfg now m b history.
Proof.
  intros t now m b history Ht Hw.
  assert (H3 :
    Throttles.mint_in_cooldown cfg now m b (Throttles.cleanup cfg t history)
    = Throttles.mint_in_cooldown cfg now m b history /\
    Throttles.alerts_in_window cfg now (Throttles.cleanup cfg t history)
    = Throttles.alerts_in_window cfg now history /\
    Throttles.band_alerts_in_window cfg now b (Throttles.cleanup cfg t history)
    = Throttles.band_alerts_in_window cfg now b history).
  { unfold Throttles.cleanup.
    induction history as [| r history (IH1 & IH2 & IH3)];
      [repeat split |].
    rewrite filter_cons.
    destruct (decide (¬ Throttles.duration_cast_minutes
                          (t - Throttles.timestamp r)
                        > Throttles.max_cooldown cfg)) as [Hkeep | Hdrop].
    - cbn [Throttles.mint_in_cooldown Throttles.alerts_in_window
           Throttles.band_alerts_in_window].
      rewrite IH1, IH2, IH3. repeat split.
    - assert (Hold : Throttles.duration_cast_minutes
                       (t - Throttles.timestamp r)
                     > Throttles.max_cooldown cfg) by lia.
      destruct (dropped_is_stale t now r b Ht Hw Hold) as [Hc Hwin].
      cbn [Throttles.mint_in_cooldown Throttles.alerts_in_window
           Throttles.band_alerts_in_window].
      rewrite Hc, Hwin, IH1, IH2, IH3.
      repeat split;
        repeat match goal with
               | |- context [String.eqb ?x ?y] => destruct (String.eqb x y)
               end; reflexivity. }
  destruct H3 as (E1 & E2 & E3).
  unfold Throttles.should_throttle. rewrite E1, E2, E3. reflexivity.
Qed.

End ThrottleCleanupFacts.

Lemma rug_cap_binds_witness :
  calculate_confidence default_config
    (uniform_signals (float_lit 4 10) (float_lit 9 10))
  <= Z.max 0 (max_rug_cap (D := float) default_config).
Proof.
  assert (H1 : d_ltb (data_quality
                        (uniform_signals (float_lit 4 10) (float_lit 9 10)))
                 (min_dq_for_actionable default_config) = false)
    by (vm_compute; reflexivity).
  assert (H2 : d_ltb (s7_rug_risk
                        (uniform_signals (float_lit 4 10) (float_lit 9 10)))
                 (d_lit 5 10) = true)
    by (vm_compute; reflexivity).
  exact (proj1 (rug_cap_binds float float_Double default_config
                  (uniform_signals (float_lit 4 10) (float_lit 9 10))
                  H1 H2)).
Defined.

Lemma cleanup_keeps_throttle_answers_witness :
  let history :=
    Throttles.record_alert throttle_config_example 0 0 "A" "actionable" [] in
  let now := 800 * Throttles.ticks_per_minute in
  Throttles.should_throttle throttle_config_example now "B" "heads_up"
    (Throttles.cleanup throttle_config_example now history)
  = Throttles.should_throttle throttle_config_example now "B" "heads_up"
      history.
Proof.
  cbv zeta.
  apply (cleanup_keeps_throttle_answers throttle_config_example).
  - lia.
  - vm_compute. discriminate.
Defined.


Lemma float_ltb_leb (x y : float) :
  PrimFloat.ltb x y = true -> PrimFloat.leb x y = true.
Proof.
  rewrite FloatAxioms.ltb_spec, FloatAxioms.leb_spec.
  unfold SFltb, SFleb.
  destruct (SFcompare (Prim2SF x) (Prim2SF y)) as [[] |];
    intros E; try discriminate; reflexivity.
Qed.

Lemma std_max_zero_nonneg (x : float) :
  d_leb (float_lit 0 1) (std_max (float_lit 0 1) x) = true.
Proof.
  unfold std_max. simpl d_ltb. simpl d_leb.
  destruct (PrimFloat.ltb (float_lit 0 1) x) eqn:E.
  - apply float_ltb_leb. exact E.
  - vm_compute. reflexivity.
Qed.

Section PipelineQualityFacts.
Variable cfg : Pipeline.Config float.
Variable generate_reasons :
  Pipeline.Update float -> option (TokenMetadata float) -> SignalResult float
  -> list string.

(** How many of the six items that [calculate_data_quality] looks for are
    missing from an update. *)
Definition missing_items (update : Pipeline.Update float) : nat :=
  (Nat.b2n (liq_usd (Pipeline.scalars update) <=? d_lit 0 1)%D
   + Nat.b2n (vol24h_usd (Pipeline.scalars update) <=? d_lit 0 1)%D
   + Nat.b2n (bool_decide (Pipeline.bars update !! "5m" = None))
   + Nat.b2n (bool_decide (Pipeline.bars update !! "15m" = None))
   + Nat.b2n (spread_pct (Pipeline.scalars update) <=? d_lit 0 1)%D
   + Nat.b2n (impact_1pct_pct (Pipeline.scalars update) <=? d_lit 0 1)%D)%nat.

(** The data quality for the penalties of config.hpp (start 1.0, 0.08 for
    each missing item), by which items are missing. *)
Definition shipped_quality (m1 m2 m3 m4 m5 m6 : bool) : float :=
  let penalise (missing : bool) (dq : float) : float :=
    if missing then (dq - float_lit 8 100)%float else dq in
  std_max (float_lit 0 1)
    (penalise m6 (penalise m5 (penalise m4 (penalise m3 (penalise m2
       (penalise m1 (float_lit 1 1))))))).

Lemma shipped_quality_facts (m1 m2 m3 m4 m5 m6 : bool) :
  let dq := shipped_quality m1 m2 m3 m4 m5 m6 in
  let missing :=
    (Nat.b2n m1 + Nat.b2n m2 + Nat.b2n m3 + Nat.b2n m4 + Nat.b2n m5
     + Nat.b2n m6)%nat in
  PrimFloat.leb (float_lit 1 2) dq = true /\
  PrimFloat.leb dq (float_lit 1 1) = true /\
  static_cast_int_defined (dq * float_lit 100 1)%float = true /\
  50 <= static_cast_int (dq * float_lit 100 1)%float /\
  PrimFloat.ltb dq (float_lit 7 10) = (4 <=? missing)%nat.
Proof.
  destruct m1, m2, m3, m4, m5, m6; vm_compute;
    repeat split; try reflexivity; discriminate.
Qed.

(** X19. In binary64, whatever an update holds (NaN and the infinities
    included) and whatever the configuration, the data quality that
    [calculate_data_quality] returns is never negative and never NaN.  With
    the quality penalties and the scorer of config.hpp it lies between 0.5
    and 1, its conversion to a percentage in [calculate_confidence] is the
    conversion of a finite value in the range of [int], and it is below
    [min_dq_for_actionable] exactly when four or more of the six items are
    missing; the confidence is then 50 whatever the signals, and the score
    after the regime adjustment is 40 in the risk-on regime and 60
    otherwise. *)
Theorem low_data_quality_scores_50 :
  forall (env : Pipeline.Env float) (update : Pipeline.Update float)
         (st : Pipeline.Service float),
    let dq := Pipeline.calculate_data_quality cfg update in
    let signals :=
      Pipeline.calculate_signals cfg generate_reasons update
        (Pipeline.metadata env) (Pipeline.token_list_mints env) in
    let final :=
      confidence_score
        (Pipeline.scored_signals cfg generate_reasons env update st) in
    d_leb (float_lit 0 1) dq = true /\
    (Pipeline.dq_start cfg = float_lit 1 1 ->
     Pipeline.dq_penalty_per_missing cfg = float_lit 8 100 ->
     Pipeline.scorer cfg = default_config ->
     d_leb (float_lit 1 2) dq = true /\
     d_leb dq (float_lit 1 1) = true /\
     static_cast_int_defined (dq * d_lit 100 1)%D = true /\
     d_ltb dq (min_dq_for_actionable (Pipeline.scorer cfg))
     = (4 <=? missing_items update)%nat /\
     ((4 <= missing_items update)%nat ->
      calculate_confidence (Pipeline.scorer cfg) signals = 50 /\
      final = if Pipeline.is_risk_on (Pipeline.regime_detector_ st)
              then 40 else 60)).
Proof.
  intros env update st dq signals final.
  split.
  { unfold dq, Pipeline.calculate_data_quality. apply std_max_zero_nonneg. }
  intros Hstart Hpenalty Hscorer.
  assert (Edq : dq = shipped_quality
                       (liq_usd (Pipeline.scalars update) <=? d_lit 0 1)%D
                       (vol24h_usd (Pipeline.scalars update) <=? d_lit 0 1)%D
                       (bool_decide (Pipeline.bars update !! "5m" = None))
                       (bool_decide (Pipeline.bars update !! "15m" = None))
                       (spread_pct (Pipeline.scalars update) <=? d_lit 0 1)%D
                       (impact_1pct_pct (Pipeline.scalars update)
                        <=? d_lit 0 1)%D).
  { unfold dq, Pipeline.calculate_data_quality, shipped_quality.
    rewrite Hstart, Hpenalty. reflexivity. }
  destruct (shipped_quality_facts
              (liq_usd (Pipeline.scalars update) <=? d_lit 0 1)%D
              (vol24h_usd (Pipeline.scalars update) <=? d_lit 0 1)%D
              (bool_decide (Pipeline.bars update !! "5m" = None))
              (bool_decide (Pipeline.bars update !! "15m" = None))
              (spread_pct (Pipeline.scalars update) <=? d_lit 0 1)%D
              (impact_1pct_pct (Pipeline.scalars update) <=? d_lit 0 1)%D)
    as (Hlo & Hhi & Hdef & Hcast & Hlt).
  cbv zeta in Hlo, Hhi, Hdef, Hcast, Hlt.
  rewrite <- Edq in Hlo, Hhi, Hdef, Hcast, Hlt.
  fold (missing_items update) in Hlt.
  split; [exact Hlo |]. split; [exact Hhi |]. split; [exact Hdef |].
  rewrite Hscorer.
  split; [exact Hlt |].
  intros Hmissing.
  assert (Hc : calculate_confidence (D := float) default_config signals = 50).
  { unfold calculate_confidence.
    change (data_quality signals) with dq.
    change (min_dq_for_actionable (D := float) default_config)
      with (float_lit 7 10).
    change (d_ltb dq (float_lit 7 10)) with (PrimFloat.ltb dq (float_lit 7 10)).
    rewrite Hlt. destruct (Nat.leb_spec 4 (missing_items update)); [| lia].
    apply Z.min_l. exact Hcast. }
  split; [exact Hc |].
  assert (Hf : final = apply_risk_adjustment (Pipeline.scorer cfg)
                         (calculate_confidence (Pipeline.scorer cfg) signals)
                         (Pipeline.is_risk_on (Pipeline.regime_detector_ st))).
  { reflexivity. }
  rewrite Hf, Hscorer, Hc. unfold apply_risk_adjustment.
  destruct (Pipeline.is_risk_on (Pipeline.regime_detector_ st)); reflexivity.
Qed.

End PipelineQualityFacts.

(** The defaults of config.hpp in binary64. *)
Definition pipeline_config_binary64 : Pipeline.Config float := {|
  Pipeline.scorer := default_config;
  Pipeline.throttle := throttle_config_example;
  Pipeline.min_liquidity_actionable := float_lit 150000 1;
  Pipeline.min_liquidity_headsup := float_lit 25000 1;
  Pipeline.min_volume_actionable := float_lit 500000 1;
  Pipeline.min_volume_headsup := float_lit 50000 1;
  Pipeline.max_impact_pct := float_lit 15 10;
  Pipeline.max_spread_pct := float_lit 25 10;
  Pipeline.max_route_hops := 3;
  Pipeline.max_route_deviation := float_lit 8 10;
  Pipeline.min_age_hours := 24;
  Pipeline.young_token_hours := 72;
  Pipeline.min_c_young_risky := 80;
  Pipeline.min_m1h_pct := float_lit 1 1;
  Pipeline.max_m1h_pct := float_lit 12 1;
  Pipeline.min_m24h_pct := float_lit 2 1;
  Pipeline.max_m24h_pct := float_lit 60 1;
  Pipeline.dq_start := float_lit 1 1;
  Pipeline.dq_penalty_per_missing := float_lit 8 100;
  Pipeline.max_upside_cap := float_lit 15 1;
  Pipeline.net_edge_k_factor := float_lit 2 1;
  Pipeline.lag_penalty := float_lit 3 10;
  Pipeline.sol_mint := "So11111111111111111111111111111111111111112";
  Pipeline.risk_on_sol_change_threshold := float_lit 2 1;
  Pipeline.risk_on_momentum_threshold := float_lit 1 1;
  Pipeline.cache_ttl_minutes := 60
|}.

(** An update without bars, liquidity or volume: four items missing. *)
Definition update_without_data : Pipeline.Update float := {|
  Pipeline.scalars := {|
    pool_id := "pool"; mint_base := "MintA"; symbol := "AAA";
    price := float_lit 1 1; liq_usd := float_lit 0 1;
    vol24h_usd := float_lit 0 1; spread_pct := float_lit 1 1;
    impact_1pct_pct := float_lit 1 1; age_hours := float_lit 100 1 |};
  Pipeline.route := {| Pipeline.ok := true; Pipeline.hops := 1;
                       Pipeline.deviation_pct := float_lit 1 10 |};
  Pipeline.bars := ∅;
  Pipeline.timestamp := 0
|}.

Definition pipeline_env_binary64 : Pipeline.Env float := {|
  Pipeline.metadata := None;
  Pipeline.token_list_mints := ["MintA"];
  Pipeline.publish_ok := true;
  Pipeline.now_cache := 0;
  Pipeline.now_throttle := 0;
  Pipeline.now_alert := 0;
  Pipeline.now_record := 0;
  Pipeline.now_cleanup := 0
|}.

Definition pipeline_empty_binary64 : Pipeline.Service float := {|
  Pipeline.regime_detector_ :=
    {| Pipeline.data_points_ := []; Pipeline.risk_on_ := false |};
  Pipeline.sol_price_ := float_lit 0 1;
  Pipeline.sol_24h_change_pct_ := float_lit 0 1;
  Pipeline.alert_history_ := [];
  Pipeline.api_signals_handler_ :=
    {| Pipeline.market_updates_cache_ := ∅; Pipeline.signals_cache_ := ∅;
       Pipeline.counter := 0 |};
  Pipeline.alerts := []
|}.

Lemma low_data_quality_scores_50_witness :
  confidence_score
    (Pipeline.scored_signals pipeline_config_binary64 (fun _ _ _ => [])
       pipeline_env_binary64 update_without_data pipeline_empty_binary64)
  = 60.
Proof.
  destruct (low_data_quality_scores_50 pipeline_config_binary64
              (fun _ _ _ => []) pipeline_env_binary64 update_without_data
              pipeline_empty_binary64) as [_ H].
  destruct (H eq_refl eq_refl eq_refl) as (_ & _ & _ & _ & Hfinal).
  apply Hfinal. vm_compute. lia.
Defined.



Section RegimeFacts.
Context {D : Type} `{Double D}.
Variable cfg : Pipeline.Config D.

(** X20. [update_regime] keeps the points whose age, in whole hours, is at
    most 24, in their order, and the new point after them; and it reports
    risk-off, whatever the prices, unless at least two of the earlier points
    are kept: a fresh detector is risk-off through its first two updates. *)
Theorem regime_needs_three_points :
  forall (now : Z) (sol_price sol_24h_change_pct : D)
         (detector : Pipeline.RegimeDetector D),
    let kept :=
      filter (fun p => ¬ (Pipeline.duration_cast_hours
                            (now - Pipeline.point_timestamp p) > 24))
        (Pipeline.data_points_ detector) in
    let detector' :=
      Pipeline.update_regime cfg now sol_price sol_24h_change_pct detector in
    Pipeline.data_points_ detector'
    = kept ++ [{| Pipeline.point_sol_price := sol_price;
                  Pipeline.point_sol_24h_change_pct := sol_24h_change_pct;
                  Pipeline.point_timestamp := now |}] /\
    ((length kept < 2)%nat -> Pipeline.is_risk_on detector' = false) /\
    (Pipeline.data_points_ detector = [] ->
     forall (now2 : Z) (price2 change2 : D),
       Pipeline.is_risk_on detector' = false /\
       Pipeline.is_risk_on
         (Pipeline.update_regime cfg now2 price2 change2 detector') = false).
Proof.
  intros now sol_price sol_24h_change_pct detector kept detector'.
  set (point := {| Pipeline.point_sol_price := sol_price;
                   Pipeline.point_sol_24h_change_pct := sol_24h_change_pct;
                   Pipeline.point_timestamp := now |}).
  assert (Hnew : forall t (p : Pipeline.RegimeDataPoint D),
             Pipeline.point_timestamp p = t ->
             ¬ (Pipeline.duration_cast_hours (t - Pipeline.point_timestamp p)
                > 24)).
  { intros t p ->. rewrite Z.sub_diag. unfold Pipeline.duration_cast_hours.
    rewrite Z.quot_0_l by discriminate. lia. }
  assert (Hpoints :
    forall (t : Z) (pr ch : D) (d : Pipeline.RegimeDetector D),
      Pipeline.data_points_ (Pipeline.update_regime cfg t pr ch d)
      = filter (fun p => ¬ (Pipeline.duration_cast_hours
                              (t - Pipeline.point_timestamp p) > 24))
          (Pipeline.data_points_ d)
        ++ [{| Pipeline.point_sol_price := pr;
               Pipeline.point_sol_24h_change_pct := ch;
               Pipeline.point_timestamp := t |}]).
  { intros t pr ch d. unfold Pipeline.update_regime.
    rewrite filter_app, filter_cons, filter_nil.
    rewrite decide_True by (apply Hnew; reflexivity).
    destruct (_ <? 3)%nat; reflexivity. }
  assert (Hfew :
    forall (t : Z) (pr ch : D) (d : Pipeline.RegimeDetector D),
      (length (filter (fun p => ¬ (Pipeline.duration_cast_hours
                                     (t - Pipeline.point_timestamp p) > 24)%Z)
                 (Pipeline.data_points_ d)) < 2)%nat ->
      Pipeline.is_risk_on (Pipeline.update_regime cfg t pr ch d) = false).
  { intros t pr ch d Hlen. unfold Pipeline.update_regime, Pipeline.is_risk_on.
    rewrite filter_app, filter_cons, filter_nil.
    rewrite decide_True by (apply Hnew; reflexivity).
    rewrite length_app. cbn [length].
    match goal with
    | |- context [(?n <? 3)%nat] => destruct (Nat.ltb_spec n 3)
    end; [reflexivity | lia]. }
  split; [apply Hpoints |]. split; [apply Hfew |].
  intros Hempty now2 price2 change2. split.
  - apply Hfew. rewrite Hempty. simpl. lia.
  - apply Hfew. unfold detector'. rewrite Hpoints, Hempty.
    rewrite filter_nil, app_nil_l, filter_cons, filter_nil.
    destruct (decide _); simpl; lia.
Qed.

End RegimeFacts.

(** ** ingestor: the retry loop *)

Section RetryFacts.
Context {D : Type} `{Double D}.
Variable max_backoff_seconds : D.
Variable request_func : nat -> DexRequests.Response.
Variable jitter : nat -> D.

(** X21. [make_request_with_backoff] calls the request between one and
    five times and returns the response of its last call, never the empty
    response after the loop: every earlier call failed, a return before the
    fifth call is a success, it sleeps once between two calls, and each
    sleep is followed by one [increase_backoff]. *)
Theorem retry_discipline :
  forall backoff_seconds_ : D,
    let out :=
      DexRequests.make_request_with_backoff max_backoff_seconds request_func
        jitter backoff_seconds_ in
    let n := DexRequests.calls out in
    (1 <= n <= 5)%nat /\
    DexRequests.response out = request_func (n - 1)%nat /\
    (forall i : nat, (i < n - 1)%nat ->
       DexRequests.succeeded (request_func i) = false) /\
    ((n < 5)%nat -> DexRequests.succeeded (DexRequests.response out) = true) /\
    length (DexRequests.sleeps_ms out) = (n - 1)%nat /\
    DexRequests.backoff_seconds_after out
    = Nat.iter (n - 1) (DexRequests.increase_backoff max_backoff_seconds)
        backoff_seconds_.
Proof.
  intros b. cbv zeta.
  unfold DexRequests.make_request_with_backoff.
  change (Z.to_nat DexRequests.max_attempts) with 5%nat.
  cbn [DexRequests.request_loop]. 
  change (0 <? DexRequests.max_attempts) with true.
  change (0 + 1 <? DexRequests.max_attempts) with true.
  change (0 + 1 + 1 <? DexRequests.max_attempts) with true.
  change (0 + 1 + 1 + 1 <? DexRequests.max_attempts) with true.
  change (0 + 1 + 1 + 1 + 1 <? DexRequests.max_attempts) with true.
  change (0 + 1 >=? DexRequests.max_attempts) with false.
  change (0 + 1 + 1 >=? DexRequests.max_attempts) with false.
  change (0 + 1 + 1 + 1 >=? DexRequests.max_attempts) with false.
  change (0 + 1 + 1 + 1 + 1 >=? DexRequests.max_attempts) with false.
  change (0 + 1 + 1 + 1 + 1 + 1 >=? DexRequests.max_attempts) with true.
  cbn [negb].
  destruct (DexRequests.succeeded (request_func 0%nat)) eqn:E0;
    [| destruct (DexRequests.succeeded (request_func 1%nat)) eqn:E1;
       [| destruct (DexRequests.succeeded (request_func 2%nat)) eqn:E2;
          [| destruct (DexRequests.succeeded (request_func 3%nat)) eqn:E3;
             [| destruct (DexRequests.succeeded (request_func 4%nat)) eqn:E4]]]];
    cbn [DexRequests.calls DexRequests.response DexRequests.sleeps_ms
         DexRequests.backoff_seconds_after Nat.sub Nat.iter nat_rect
         length app];
    (split; [lia |]); (split; [reflexivity |]);
    (split; [intros i Hi;
             do 4 (destruct i as [| i]; [assumption || lia |]); lia |]);
    (split; [intros Hn; first [assumption | lia] |]);
    split; reflexivity.
Qed.

End RetryFacts.

(** ** ingestor: the two threshold filters *)

Definition is_nan (x : float) : bool :=
  match Prim2SF x with
  | S754_nan => true
  | _ => false
  end.

Lemma SFcompare_swap (x y : spec_float) :
  SFcompare y x = option_map CompOpp (SFcompare x y).
Proof.
  destruct x as [sx | sx | | sx mx ex], y as [sy | sy | | sy my ey];
    try reflexivity;
    try (destruct sx; reflexivity); try (destruct sy; reflexivity);
    try (destruct sx, sy; reflexivity).
  simpl. destruct sx, sy; try reflexivity;
    rewrite (Z.compare_antisym ey ex);
    destruct (ey ?= ex)%Z; simpl; try reflexivity;
    rewrite (Pos.compare_cont_antisym mx my Eq); simpl;
    destruct (Pos.compare_cont Eq my mx); reflexivity.
Qed.

Lemma float_not_ltb_leb (x y : float) :
  is_nan x = false -> is_nan y = false ->
  PrimFloat.ltb x y = false -> PrimFloat.leb y x = true.
Proof.
  unfold is_nan. rewrite FloatAxioms.ltb_spec, FloatAxioms.leb_spec.
  unfold SFltb, SFleb. rewrite (SFcompare_swap (Prim2SF x) (Prim2SF y)).
  destruct (Prim2SF x) as [sx | sx | | sx mx ex] eqn:Ex;
    destruct (Prim2SF y) as [sy | sy | | sy my ey] eqn:Ey;
    try discriminate; intros _ _;
    match goal with
    | |- context [SFcompare ?a ?b] => destruct (SFcompare a b) as [[] |] eqn:Ec
    end; simpl; try reflexivity; try discriminate;
    simpl in Ec; repeat match type of Ec with
                        | context [if ?b then _ else _] => destruct b
                        end; discriminate.
Qed.

(** X22. The filter of [tick] is redundant behind [fetch_pools] for
    ordinary numbers: in binary64, a pool that [fetch_pools] returns, whose
    TVL is not NaN against a TVL threshold that is not NaN, passes the
    filter of [tick]; if that holds of every pool returned, [tick] hands all
    of them to the cache, in their order. *)
Theorem tick_keeps_fetched_pools :
  forall (cfg : Ingestor.Config float)
         (raydium orca : list (Ingestor.PoolInfo float))
         (uuids : nat -> string) (clock : nat -> Z),
    let fetched := Ingestor.fetch_pools cfg raydium orca in
    is_nan (Ingestor.min_tvl_threshold cfg) = false ->
    (forall p, In p fetched ->
       is_nan (Ingestor.tvl_usd p) = false ->
       Ingestor.meets_threshold cfg p = true) /\
    (Forall (fun p => is_nan (Ingestor.tvl_usd p) = false) fetched ->
     Ingestor.cache_update (Ingestor.tick cfg uuids clock fetched) = fetched).
Proof.
  intros cfg raydium orca uuids clock fetched Hmin.
  assert (Hpass : forall p, In p fetched ->
            is_nan (Ingestor.tvl_usd p) = false ->
            Ingestor.meets_threshold cfg p = true).
  { intros p Hin Hp. unfold fetched, Ingestor.fetch_pools in Hin.
    apply in_map_iff in Hin as (q & <- & Hq).
    apply filter_In in Hq as [_ Hq].
    unfold Ingestor.below_thresholds in Hq.
    apply negb_true_iff, orb_false_iff in Hq as [Ht _].
    unfold Ingestor.meets_threshold. apply orb_true_iff. left.
    simpl in *. apply float_not_ltb_leb; assumption. }
  split; [exact Hpass |].
  intros Hall. unfold Ingestor.tick. simpl.
  rewrite Forall_forall in Hall.
  induction fetched as [| p l IH]; [reflexivity |].
  simpl. rewrite (Hpass p) by (try (left; reflexivity);
                                apply Hall; apply list_elem_of_In; left; reflexivity).
  f_equal. apply IH.
  - intros q Hq. apply Hpass. right. exact Hq.
  - intros q Hq. apply Hall. apply elem_of_cons. right. exact Hq.
Qed.

Definition pool_example (tvl vol : float) : Ingestor.PoolInfo float := {|
  Ingestor.pool_id := "P"; Ingestor.dex_name := "Raydium";
  Ingestor.pool_type := "constant-product";
  Ingestor.reserve_a := float_lit 1000 1; Ingestor.reserve_b := float_lit 2000 1;
  Ingestor.tvl_usd := tvl; Ingestor.volume_24h_usd := vol;
  Ingestor.price_impact_1pct := float_lit 0 1;
  Ingestor.fee_rate := float_lit 0 1; Ingestor.apr := float_lit 0 1
|}.

Lemma tick_keeps_fetched_pools_witness :
  let fetched :=
    Ingestor.fetch_pools Ingestor.default_config
      [pool_example (float_lit 30000 1) (float_lit 5000 1);
       pool_example (float_lit 10 1) (float_lit 5000 1)] [] in
  Ingestor.cache_update
    (Ingestor.tick Ingestor.default_config (fun _ => "id") (fun _ => 0)
       fetched) = fetched.
Proof.
  cbv zeta.
  apply (tick_keeps_fetched_pools Ingestor.default_config).
  - vm_compute. reflexivity.
  - repeat (constructor; [vm_compute; reflexivity |]). constructor.
Defined.
